(** * GoodVibes v6.0: quasi-harmonic thermochemistry and PES tabulation

    A shallow embedding of the numerical core of [GoodVibes v6.0.py]:
    the statistical-mechanics formulas, the thermochemistry assembly of
    [calc_bbe], the Boltzmann averaging and point assembly of [get_pes]
    and the selectivity / ee rows printed by [main].

    Conventions of the embedding.
    - A Python [float] is a real number ([R]); arithmetic is exact.  The
      operations that raise in Python on a bad operand (division by zero,
      [math.log] of a non-positive number) are the total functions of the
      real-number library; every theorem below carries the hypotheses
      (positive temperature, positive wavenumbers, ...) under which the
      Python operands stay inside the domain.
    - [x ** n] with an integer literal [n] is [x ^ n]; [x ** 0.5] is
      [sqrt x]; [x ** 0.333333] is [Rpower x 0.333333].
    - Python objects that the code inspects dynamically ([hasattr], a
      [TypeError] on [float + tuple]) are values of [pyval]; attributes
      that may be missing are [option] fields; exceptions are the [Raise]
      outcomes of [result]. *)

From Stdlib Require Import Reals Lra Lia List String Ascii Bool Arith.
Import ListNotations.
Open Scope R_scope.

(** ** Physical constants and unit conversion (lines 41-45) *)

Definition GAS_CONSTANT : R := 8.3144621.
Definition PLANCK_CONSTANT : R := 6.62606957e-34.
Definition BOLTZMANN_CONSTANT : R := 1.3806488e-23.
Definition SPEED_OF_LIGHT : R := 2.99792458e10.
Definition AVOGADRO_CONSTANT : R := 6.0221415e23.
Definition AMU_to_KG : R := 1.66053886e-27.
Definition atmos : R := 101.325.

Definition j_to_au : R := 4.184 * 627.509541 * 1000.0.
Definition kcal_to_au : R := 627.509541.

(** Python's [sum]: a left fold starting from [0]. *)
Definition py_sum (l : list R) : R := fold_left Rplus l 0.

(** ** Energies (lines 448-487) *)

Definition calc_translational_energy (temperature : R) : R :=
  let energy := 1.5 * GAS_CONSTANT * temperature in
  energy.

(** [linear] is the integer flag [linear_mol]; [zpe] is the zero-point
    correction read from the output file. *)
Definition calc_rotational_energy (zpe : R) (symmno : Z) (temperature : R)
    (linear : Z) : R :=
  if Req_dec_T zpe 0.0 then 0.0
  else if Z.eqb linear 1 then GAS_CONSTANT * temperature
  else 1.5 * GAS_CONSTANT * temperature.

Definition calc_vibrational_energy (frequency_wn : list R)
    (temperature freq_scale_factor : R) : R :=
  let factor :=
    map (fun freq =>
           (PLANCK_CONSTANT * freq * SPEED_OF_LIGHT * freq_scale_factor)
           / (BOLTZMANN_CONSTANT * temperature)) frequency_wn in
  let energy :=
    map (fun entry =>
           entry * GAS_CONSTANT * temperature
           * (0.5 + (1.0 / (exp entry - 1.0)))) factor in
  py_sum energy.

Definition calc_zeropoint_energy (frequency_wn : list R)
    (freq_scale_factor : R) : R :=
  let factor :=
    map (fun freq =>
           PLANCK_CONSTANT * freq * SPEED_OF_LIGHT * freq_scale_factor
           / BOLTZMANN_CONSTANT) frequency_wn in
  let energy := map (fun entry => 0.5 * entry * GAS_CONSTANT) factor in
  py_sum energy.

(** ** Free space of a solvent (lines 490-509) *)

Definition solvent_list : list string :=
  ["none"; "H2O"; "toluene"; "DMF"; "AcOH"; "chloroform"]%string.
Definition molarity : list R := [1.0; 55.6; 9.4; 12.9; 17.4; 12.5].
Definition molecular_vol : list R := [1.0; 27.944; 149.070; 77.442; 86.10; 97.0].

(** The loop [for i in range(0, len(solvent_list))]: the last matching
    index wins, [nsolv] stays at its initial value when nothing matches. *)
Definition find_nsolv (solv : string) (names : list string) : nat :=
  fold_left
    (fun nsolv i => if String.eqb solv (nth i names ""%string) then i else nsolv)
    (seq 0 (List.length names)) 0%nat.

Definition get_free_space (solv : string) : R :=
  let nsolv := find_nsolv solv solvent_list in
  let solv_molarity := nth nsolv molarity 0 in
  let solv_volume := nth nsolv molecular_vol 0 in
  if (0 <? nsolv)%nat then
    let V_free :=
      8 * (Rpower (1e27 / (solv_molarity * AVOGADRO_CONSTANT)) 0.333333
           - Rpower solv_volume 0.333333) ^ 3 in
    let freespace := V_free * solv_molarity * AVOGADRO_CONSTANT * 1e-24 in
    freespace
  else 1000.0.

(** ** Entropies (lines 511-587) *)

Definition calc_translational_entropy (molecular_mass conc temperature : R)
    (solv : string) : R :=
  let lmda :=
    sqrt (2.0 * PI * molecular_mass * AMU_to_KG * BOLTZMANN_CONSTANT
          * temperature) / PLANCK_CONSTANT in
  let freespace := get_free_space solv in
  let Ndens := conc * 1000 * AVOGADRO_CONSTANT / (freespace / 1000.0) in
  let entropy := GAS_CONSTANT * (2.5 + ln (lmda ^ 3 / Ndens)) in
  entropy.

Definition calc_electronic_entropy (multiplicity : R) : R :=
  let entropy := GAS_CONSTANT * ln multiplicity in
  entropy.

(** Comparison of the list [rotemp] with the literal [[0.0,0.0,0.0]]. *)
Definition is_zero_rotemp (rotemp : list R) : bool :=
  match rotemp with
  | [a; b; c] =>
      if Req_dec_T a 0.0 then
        if Req_dec_T b 0.0 then
          if Req_dec_T c 0.0 then true else false
        else false
      else false
  | _ => false
  end.

(** The branches assign [linear] and [qrot]; in the two-temperature branch
    [qrot] is never bound and never read.  [rotemp[0]], ... are read with
    default [0] because the branches that read them have checked the
    length (the call site guarantees a non-empty list). *)
Definition calc_rotational_entropy (zpe : R) (linear : Z) (symmno : Z)
    (rotemp : list R) (temperature : R) : R :=
  if is_zero_rotemp rotemp || (if Req_dec_T zpe 0.0 then true else false)
  then 0.0
  else
    let '(linear, qrot) :=
      if (List.length rotemp =? 1)%nat then
        (1%Z, temperature / nth 0 rotemp 0)
      else if (List.length rotemp =? 2)%nat then
        (2%Z, 0)
      else
        (linear,
         sqrt (PI * temperature ^ 3
               / (nth 0 rotemp 0 * nth 1 rotemp 0 * nth 2 rotemp 0))) in
    if Z.eqb linear 1 then GAS_CONSTANT * (ln (qrot / IZR symmno) + 1)
    else if Z.eqb linear 2 then 0.0
    else GAS_CONSTANT * (ln (qrot / IZR symmno) + 1.5).

Definition calc_rrho_entropy (frequency_wn : list R)
    (temperature freq_scale_factor : R) : list R :=
  let factor :=
    map (fun freq =>
           PLANCK_CONSTANT * freq * SPEED_OF_LIGHT * freq_scale_factor
           / BOLTZMANN_CONSTANT / temperature) frequency_wn in
  let entropy :=
    map (fun entry =>
           entry * GAS_CONSTANT / (exp entry - 1)
           - GAS_CONSTANT * ln (1 - exp (- entry))) factor in
  entropy.

Definition Bav : R := 10.0e-44.

Definition calc_freerot_entropy (frequency_wn : list R)
    (temperature freq_scale_factor : R) : list R :=
  let mu :=
    map (fun freq =>
           PLANCK_CONSTANT
           / (8 * PI ^ 2 * freq * SPEED_OF_LIGHT * freq_scale_factor))
        frequency_wn in
  let mu_primed := map (fun entry => entry * Bav / (entry + Bav)) mu in
  let factor :=
    map (fun entry =>
           8 * PI ^ 3 * entry * BOLTZMANN_CONSTANT * temperature
           / PLANCK_CONSTANT ^ 2) mu_primed in
  let entropy :=
    map (fun entry => (0.5 + ln (sqrt entry)) * GAS_CONSTANT) factor in
  entropy.

Definition calc_damp (frequency_wn : list R) (FREQ_CUTOFF : R) : list R :=
  let alpha := 4%nat in
  let damp :=
    map (fun entry => 1 / (1 + (FREQ_CUTOFF / entry) ^ alpha)) frequency_wn in
  damp.

(** ** Python values, exceptions and outcomes *)

(** The dynamically typed values that reach the arithmetic of [calc_bbe]
    and [get_pes]. *)
#[warnings="-register-all"]
Inductive pyval : Type :=
| PyFloat (x : R)
| PyStr (s : string)
| PyTuple (items : list pyval)
| PyList (items : list pyval).

Inductive exn : Type :=
| TypeError
| ValueError
| KeyError
| NameError
| AttributeError
| IndexError
| SystemExit (msg : string).

Inductive result (A : Type) : Type :=
| Ok (a : A)
| Raise (e : exn).
Arguments Ok {A} a.
Arguments Raise {A} e.

Definition bind {A B : Type} (m : result A) (k : A -> result B) : result B :=
  match m with
  | Ok a => k a
  | Raise e => Raise e
  end.

Notation "x <- m ;; k" := (bind m (fun x => k))
  (at level 61, m at next level, right associativity).

(** [float + v]: defined for a float operand only, a [TypeError] for a
    tuple, a list or a string. *)
Definition float_add (x : R) (v : pyval) : result R :=
  match v with
  | PyFloat y => Ok (x + y)
  | _ => Raise TypeError
  end.

(** [v * float]: a float for a float operand; a tuple, a list or a string
    cannot be multiplied by a float. *)
Definition mul_float (v : pyval) (x : R) : result R :=
  match v with
  | PyFloat y => Ok (y * x)
  | _ => Raise TypeError
  end.

(** Reading an attribute that was never assigned, a local that was never
    bound, a key that is not in a dict. *)
Definition getattr {A : Type} (o : option A) : result A :=
  match o with Some a => Ok a | None => Raise AttributeError end.
Definition getlocal {A : Type} (o : option A) : result A :=
  match o with Some a => Ok a | None => Raise NameError end.
Definition getitem {A : Type} (o : option A) : result A :=
  match o with Some a => Ok a | None => Raise KeyError end.

(** ** Single-point energies (lines 309-379) *)

(** The values of the locals of [sp_energy] when the scan of the file
    reaches the [return]: [spe] is the string ['none'] until an energy line
    has been read, a float afterwards. *)
Record sp_scan : Type := {
  spe : pyval;
  program : string;
  version_program : string;
  solvation_model : string
}.

(** The output files on disk, as [sp_energy] sees them: [None] when neither
    the [.log] nor the [.out] file exists. *)
Definition filesystem : Type := string -> option sp_scan.

(** [return spe,program,version_program,solvation_model,file]: a 5-tuple. *)
Definition sp_energy (fs : filesystem) (file : string) : result pyval :=
  match fs file with
  | None => Raise ValueError
  | Some s =>
      Ok (PyTuple [spe s; PyStr (program s); PyStr (version_program s);
                   PyStr (solvation_model s); PyStr file])
  end.

(** ** The thermochemistry object (lines 590-731) *)

(** The [--spc] option: [False], or a string (['link'] or a file suffix). *)
Inductive spc_option : Type :=
| SpcFalse
| SpcStr (s : string).

(** What the scan of the frequency output (lines 611-678) leaves behind:
    attributes of [self] and locals of [__init__].  An attribute or local
    that no line assigned is [None]; [rotemp = None] is the Python value
    [None] and is written [RotNone]. *)
Inductive rotemp_value : Type :=
| RotNone
| RotList (temps : list R).

Record scan : Type := {
  scf_energy : option R;
  zero_point_corr : option R;
  mult : option R;
  molecular_mass : option R;
  symmno : Z;
  linear_mol : Z;
  rotemp : rotemp_value;
  frequency_wn : list R;
  im_frequency_wn : list R;
  linear_warning : pyval
}.

(** The attributes of a [calc_bbe] object after [__init__]; the thermal
    fields are assigned only inside the guarded block, so they are
    [option]s ([hasattr] is [Some]). *)
Record bbe : Type := {
  bbe_sp_energy : option pyval;
  bbe_scf_energy : option R;
  bbe_zero_point_corr : option R;
  enthalpy : option R;
  zpe : option R;
  entropy : option R;
  qh_entropy : option R;
  gibbs_free_energy : option R;
  qh_gibbs_free_energy : option R;
  im_freq : option (list R);
  bbe_frequency_wn : list R;
  bbe_linear_warning : pyval
}.

(** Lines 600-608: the single-point energy attribute. *)
Definition read_sp_energy (fs : filesystem) (name ext : string)
    (spc : spc_option) : result (option pyval) :=
  let file := (name ++ ext)%string in
  match spc with
  | SpcFalse => Ok None
  | SpcStr s =>
      if String.eqb s "link" then
        v <- sp_energy fs file ;; Ok (Some v)
      else
        match sp_energy fs (name ++ "_" ++ s ++ ext)%string with
        | Ok v => Ok (Some v)
        | Raise ValueError => Ok (Some (PyStr "!"))
        | Raise e => Raise e
        end
  end.

(** Lines 703-710: the loop [for j in range(0,len(frequency_wn))] that
    appends one quasi-harmonic entropy per mode.  [Svib_rrqho] is bound
    only when [FREQ_CUTOFF > 0.0], which is also the only case in which it
    is read. *)
Definition vib_entropy_loop (QH : string) (FREQ_CUTOFF : R)
    (frequency_wn Svib_rrho Svib_rrqho Svib_free_rot damp : list R) : list R :=
  fold_left
    (fun vib_entropy j =>
       if String.eqb QH "grimme" then
         vib_entropy
           ++ [nth j Svib_rrho 0 * nth j damp 0
               + (1 - nth j damp 0) * nth j Svib_free_rot 0]
       else if String.eqb QH "truhlar" then
         if Rgt_dec FREQ_CUTOFF 0.0 then
           if Rgt_dec (nth j frequency_wn 0) FREQ_CUTOFF
           then vib_entropy ++ [nth j Svib_rrho 0]
           else vib_entropy ++ [nth j Svib_rrqho 0]
         else vib_entropy ++ [nth j Svib_rrho 0]
       else vib_entropy)
    (seq 0 (List.length frequency_wn)) [].

(** The per-mode entropies of lines 697-710 and their sums (line 711). *)
Definition vib_entropies (QH : string) (FREQ_CUTOFF temperature
    freq_scale_factor : R) (frequency_wn : list R) : list R * list R :=
  let cutoffs := map (fun freq => FREQ_CUTOFF) frequency_wn in
  let Svib_rrho := calc_rrho_entropy frequency_wn temperature freq_scale_factor in
  let Svib_rrqho := calc_rrho_entropy cutoffs temperature 1.0 in
  let Svib_free_rot :=
    calc_freerot_entropy frequency_wn temperature freq_scale_factor in
  let damp := calc_damp frequency_wn FREQ_CUTOFF in
  (vib_entropy_loop QH FREQ_CUTOFF frequency_wn Svib_rrho Svib_rrqho
     Svib_free_rot damp,
   Svib_rrho).

(** Truth value of [rotemp] in [if hasattr(...) and rotemp]. *)
Definition rotemp_truthy (r : rotemp_value) : option (list R) :=
  match r with
  | RotNone => None
  | RotList [] => None
  | RotList l => Some l
  end.

(** Lines 719-721: [try: self.enthalpy = self.enthalpy - self.scf_energy +
    self.sp_energy / except TypeError: pass]. *)
Definition sp_correction (enthalpy0 scf : R) (sp : option pyval) : R :=
  match sp with
  | None => enthalpy0
  | Some v =>
      match float_add (enthalpy0 - scf) v with
      | Ok h => h
      | Raise _ => enthalpy0
      end
  end.

(** [calc_bbe.__init__] from the scanned values on (lines 599-608 and
    680-731).  CPU-time bookkeeping ([self.cpu]) is left out. *)
Definition calc_bbe (fs : filesystem) (name ext : string) (s : scan)
    (QH : string) (FREQ_CUTOFF temperature conc freq_scale_factor : R)
    (solv : string) (spc : spc_option) : result bbe :=
  sp <- read_sp_energy fs name ext spc ;;
  let partial :=
    {| bbe_sp_energy := sp; bbe_scf_energy := scf_energy s;
       bbe_zero_point_corr := zero_point_corr s;
       enthalpy := None; zpe := None; entropy := None; qh_entropy := None;
       gibbs_free_energy := None; qh_gibbs_free_energy := None;
       im_freq := None;
       bbe_frequency_wn := frequency_wn s;
       bbe_linear_warning := linear_warning s |} in
  match zero_point_corr s, rotemp_truthy (rotemp s) with
  | Some zero_point, Some rotemps =>
      let Utrans := calc_translational_energy temperature in
      mass <- getlocal (molecular_mass s) ;;
      let Strans := calc_translational_entropy mass conc temperature solv in
      m <- getlocal (mult s) ;;
      let Selec := calc_electronic_entropy m in
      let '(ZPE, Urot, Uvib, Srot, h_Svib, qh_Svib) :=
        if (0 <? List.length (frequency_wn s))%nat then
          let '(vib_entropy, Svib_rrho) :=
            vib_entropies QH FREQ_CUTOFF temperature freq_scale_factor
              (frequency_wn s) in
          (calc_zeropoint_energy (frequency_wn s) freq_scale_factor,
           calc_rotational_energy zero_point (symmno s) temperature
             (linear_mol s),
           calc_vibrational_energy (frequency_wn s) temperature
             freq_scale_factor,
           calc_rotational_entropy zero_point (linear_mol s) (symmno s)
             rotemps temperature,
           py_sum Svib_rrho, py_sum vib_entropy)
        else (0.0, 0.0, 0.0, 0.0, 0.0, 0.0) in
      scf <- getattr (scf_energy s) ;;
      let enthalpy0 :=
        scf + (Utrans + Urot + Uvib + GAS_CONSTANT * temperature) / j_to_au in
      let H := sp_correction enthalpy0 scf sp in
      let S := (Strans + Srot + h_Svib + Selec) / j_to_au in
      let qh_S := (Strans + Srot + qh_Svib + Selec) / j_to_au in
      Ok {| bbe_sp_energy := sp; bbe_scf_energy := scf_energy s;
            bbe_zero_point_corr := zero_point_corr s;
            enthalpy := Some H;
            zpe := Some (ZPE / j_to_au);
            entropy := Some S;
            qh_entropy := Some qh_S;
            gibbs_free_energy := Some (H - temperature * S);
            qh_gibbs_free_energy := Some (H - temperature * qh_S);
            im_freq :=
              Some (filter (fun freq =>
                              if Rlt_dec freq (-1 * 0.0) then true else false)
                           (im_frequency_wn s));
            bbe_frequency_wn := frequency_wn s;
            bbe_linear_warning := linear_warning s |}
  | _, _ => Ok partial
  end.

(** ** Reading the rotational temperatures (lines 663-674) *)

(** The string methods the scan uses on a line. *)
Definition is_space (c : ascii) : bool :=
  Ascii.eqb c " " || Ascii.eqb c "009" || Ascii.eqb c "010"
  || Ascii.eqb c "011" || Ascii.eqb c "012" || Ascii.eqb c "013".

Fixpoint lstrip (s : string) : string :=
  match s with
  | EmptyString => EmptyString
  | String c s' => if is_space c then lstrip s' else s
  end.

Fixpoint rstrip (s : string) : string :=
  match s with
  | EmptyString => EmptyString
  | String c s' =>
      match rstrip s' with
      | EmptyString => if is_space c then EmptyString else String c EmptyString
      | r => String c r
      end
  end.

Definition strip (s : string) : string := rstrip (lstrip s).

(** [s.split()]: the maximal runs of non-blank characters. *)
Fixpoint split_from (s : string) (cur : string) : list string :=
  match s with
  | EmptyString => if String.eqb cur "" then [] else [cur]
  | String c s' =>
      if is_space c then
        if String.eqb cur "" then split_from s' "" else cur :: split_from s' ""
      else split_from s' (cur ++ String c EmptyString)
  end.

Definition split (s : string) : list string := split_from s "".

Definition startswith (s p : string) : bool := String.prefix p s.

(** [s.find(sub)]: the first index of [sub], [-1] when it does not occur. *)
Definition find (s sub : string) : Z :=
  match String.index 0 sub s with
  | Some n => Z.of_nat n
  | None => (-1)%Z
  end.

Definition linear_warning_message : pyval :=
  PyList [PyStr "WARNING! Potential invalid calculation of linear molecule from Gaussian."].

Definition set_rotemp (s : scan) (r : rotemp_value) : scan :=
  {| scf_energy := scf_energy s; zero_point_corr := zero_point_corr s;
     mult := mult s; molecular_mass := molecular_mass s;
     symmno := symmno s; linear_mol := linear_mol s;
     rotemp := r;
     frequency_wn := frequency_wn s; im_frequency_wn := im_frequency_wn s;
     linear_warning := linear_warning s |}.

Definition set_linear_warning (s : scan) (w : pyval) : scan :=
  {| scf_energy := scf_energy s; zero_point_corr := zero_point_corr s;
     mult := mult s; molecular_mass := molecular_mass s;
     symmno := symmno s; linear_mol := linear_mol s;
     rotemp := rotemp s;
     frequency_wn := frequency_wn s; im_frequency_wn := im_frequency_wn s;
     linear_warning := w |}.

Section Scan.

(** Python's [float(s)] on a token; [None] is the [ValueError] of a
    token that is not a number. *)
Variable py_float : string -> option R.

(** [float(line.strip().split()[i])]. *)
Definition float_at (tokens : list string) (i : nat) : result R :=
  match nth_error tokens i with
  | None => Raise IndexError
  | Some t =>
      match py_float t with
      | Some x => Ok x
      | None => Raise ValueError
      end
  end.

(** The two statements of the scan loop that assign [rotemp]
    (lines 663-674), applied to one line. *)
Definition read_rotational_temperatures (line : string) (s : scan)
    : result scan :=
  let stripped := strip line in
  let tokens := split stripped in
  s1 <- (if startswith stripped "Rotational temperature "
         then x <- float_at tokens 3 ;; Ok (set_rotemp s (RotList [x]))
         else Ok s) ;;
  if startswith stripped "Rotational temperatures" then
    match (a <- float_at tokens 3 ;;
           b <- float_at tokens 4 ;;
           c <- float_at tokens 5 ;;
           Ok [a; b; c]) with
    | Ok l => Ok (set_rotemp s1 (RotList l))
    | Raise ValueError =>
        let s2 := set_rotemp s1 RotNone in
        if negb (Z.eqb (find stripped "********") 0) then
          let s3 := set_linear_warning s2 linear_warning_message in
          b <- float_at tokens 4 ;;
          c <- float_at tokens 5 ;;
          Ok (set_rotemp s3 (RotList [b; c]))
        else Ok s2
    | Raise e => Raise e
    end
  else Ok s1.

End Scan.

(** ** Relative thermochemistry: [get_pes] (lines 122-269) *)

(** A dict with string keys, as an association list read from the front. *)
Fixpoint lookup {A : Type} (d : list (string * A)) (k : string) : option A :=
  match d with
  | [] => None
  | (k', v) :: d' => if String.eqb k k' then Some v else lookup d' k
  end.

(** A value of the [species] dict: one file name (a key of [thermo_data]),
    or the list of conformer files matched by a wildcard. *)
Inductive species_entry : Type :=
| OneFile (file : string)
| Conformers (files : list string).

(** The eight running totals [e_abs, spc_abs, zpe_abs, h_abs, ts_abs,
    g_abs, qhts_abs, qhg_abs] of one point (and the eight [*_zero]
    attributes of the zero reference). *)
Record abs_values : Type := {
  e_abs : R;
  spc_abs : R;
  zpe_abs : R;
  h_abs : R;
  ts_abs : R;
  g_abs : R;
  qhts_abs : R;
  qhg_abs : R
}.

Definition abs_zero : abs_values :=
  {| e_abs := 0.0; spc_abs := 0.0; zpe_abs := 0.0; h_abs := 0.0;
     ts_abs := 0.0; g_abs := 0.0; qhts_abs := 0.0; qhg_abs := 0.0 |}.

(** [sys.float_info.max]. *)
Definition float_max : R := (2 - / 2 ^ 52) * 2 ^ 1023.

(** A [for] loop whose body may raise. *)
Fixpoint fold_result {A B : Type} (f : A -> B -> result A) (l : list B)
    (a : A) : result A :=
  match l with
  | [] => Ok a
  | x :: l' => a' <- f a x ;; fold_result f l' a'
  end.

Definition boltz_fac_of (g g_min temperature : R) : R :=
  let g_rel := g - g_min in
  exp (- g_rel * j_to_au / GAS_CONSTANT / temperature).

Section Point.

Variable thermo_data : list (string * bbe).
Variable species : list (string * species_entry).
Variable temperature : R.

Definition qh_gibbs_of (conformer : string) : result R :=
  b <- getitem (lookup thermo_data conformer) ;;
  getattr (qh_gibbs_free_energy b).

(** Lines 245-246 (and 191-192): the most stable conformer. *)
Definition find_g_min (conformers : list string) : result R :=
  fold_result
    (fun g_min conformer =>
       g <- qh_gibbs_of conformer ;;
       Ok (if Rle_dec g g_min then g else g_min))
    conformers float_max.

(** Lines 247-250 (and 193-196). *)
Definition find_boltz_sum (g_min : R) (conformers : list string) : result R :=
  fold_result
    (fun boltz_sum conformer =>
       g <- qh_gibbs_of conformer ;;
       Ok (boltz_sum + boltz_fac_of g g_min temperature))
    conformers 0.0.

(** Lines 235-242: a structure bound to one file. *)
Definition add_file (file : string) (acc : abs_values) : result abs_values :=
  b <- getitem (lookup thermo_data file) ;;
  scf <- getattr (bbe_scf_energy b) ;;
  spc <- match bbe_sp_energy b with
         | Some v => float_add (spc_abs acc) v
         | None => Ok (spc_abs acc)
         end ;;
  z <- getattr (zpe b) ;;
  h <- getattr (enthalpy b) ;;
  s <- getattr (entropy b) ;;
  g <- getattr (gibbs_free_energy b) ;;
  qs <- getattr (qh_entropy b) ;;
  qg <- getattr (qh_gibbs_free_energy b) ;;
  Ok {| e_abs := e_abs acc + scf; spc_abs := spc;
        zpe_abs := zpe_abs acc + z; h_abs := h_abs acc + h;
        ts_abs := ts_abs acc + s; g_abs := g_abs acc + g;
        qhts_abs := qhts_abs acc + qs; qhg_abs := qhg_abs acc + qg |}.

(** Lines 251-261: one conformer of a Boltzmann group. *)
Definition add_conformer (g_min boltz_sum : R) (acc : abs_values)
    (conformer : string) : result abs_values :=
  g0 <- qh_gibbs_of conformer ;;
  let boltz_fac := boltz_fac_of g0 g_min temperature in
  b <- getitem (lookup thermo_data conformer) ;;
  scf <- getattr (bbe_scf_energy b) ;;
  spc <- match bbe_sp_energy b with
         | Some v =>
             x <- mul_float v boltz_fac ;;
             Ok (spc_abs acc + x / boltz_sum)
         | None => Ok (spc_abs acc)
         end ;;
  z <- getattr (zpe b) ;;
  h <- getattr (enthalpy b) ;;
  s <- getattr (entropy b) ;;
  g <- getattr (gibbs_free_energy b) ;;
  qs <- getattr (qh_entropy b) ;;
  qg <- getattr (qh_gibbs_free_energy b) ;;
  Ok {| e_abs := e_abs acc + scf * boltz_fac / boltz_sum;
        spc_abs := spc;
        zpe_abs := zpe_abs acc + z * boltz_fac / boltz_sum;
        h_abs := h_abs acc + h * boltz_fac / boltz_sum;
        ts_abs := ts_abs acc + s * boltz_fac / boltz_sum;
        g_abs := g_abs acc + g * boltz_fac / boltz_sum;
        qhts_abs := qhts_abs acc + qs * boltz_fac / boltz_sum;
        qhg_abs := qhg_abs acc + qg * boltz_fac / boltz_sum |}.

(** Lines 244-261: a structure bound to a list of conformers. *)
Definition add_conformers (conformers : list string) (acc : abs_values)
    : result abs_values :=
  g_min <- find_g_min conformers ;;
  boltz_sum <- find_boltz_sum g_min conformers ;;
  fold_result (add_conformer g_min boltz_sum) conformers acc.

(** The body of [for structure in point_structures] (lines 234-261). *)
Definition add_structure (acc : abs_values) (structure : string)
    : result abs_values :=
  entry <- getitem (lookup species structure) ;;
  match entry with
  | OneFile file => add_file file acc
  | Conformers files => add_conformers files acc
  end.

(** The loop over the structures of a point; the first component is the
    value of the loop variable [structure] when the loop stops, which the
    handler of [KeyError] prints. *)
Fixpoint add_structures (structures : list string) (last : string)
    (acc : abs_values) : string * result abs_values :=
  match structures with
  | [] => (last, Ok acc)
  | structure :: rest =>
      match add_structure acc structure with
      | Ok acc' => add_structures rest structure acc'
      | Raise e => (structure, Raise e)
      end
  end.

End Point.

(** [point.replace(' ','')] and [s.split('+')]. *)
Fixpoint remove_spaces (s : string) : string :=
  match s with
  | EmptyString => EmptyString
  | String c s' =>
      if Ascii.eqb c " " then remove_spaces s' else String c (remove_spaces s')
  end.

Fixpoint split_on (sep : ascii) (s : string) (cur : string) : list string :=
  match s with
  | EmptyString => [cur]
  | String c s' =>
      if Ascii.eqb c sep then cur :: split_on sep s' ""
      else split_on sep s' (cur ++ String c EmptyString)
  end.

Definition point_structures (point : string) : list string :=
  split_on "+" (remove_spaces point) "".

(** A row of the table: the name appended to [self.species[n]] and the
    values appended, at the same moment (line 266), to [self.e_abs[n]],
    [self.spc_abs[n]], ..., [self.qhg_abs[n]]. *)
Record pes_row : Type := {
  row_species : string;
  row_abs : abs_values
}.

(** What [log.Write] has written, oldest first, and how the call ended. *)
Definition logged (A : Type) : Type := list string * result A.

Section GetPes.

Variable file : string.
Variable thermo_data : list (string * bbe).
Variable species : list (string * species_entry).
Variable temperature : R.

(** Lines 228-267: one entry of a pathway.  An empty entry reaches
    [np.nan], and [np] is not defined in this module. *)
Definition pes_point (log : list string) (point : string)
    : logged pes_row :=
  if String.eqb point "" then (log, Raise NameError)
  else
    match add_structures thermo_data species temperature
            (point_structures point) "" abs_zero with
    | (_, Ok acc) => (log, Ok {| row_species := point; row_abs := acc |})
    | (structure, Raise KeyError) =>
        (log ++ ["   Warning! Structure " ++ structure
                 ++ " has not been defined correctly in " ++ file
                 ++ String "010" ""]%string,
         Raise (SystemExit ("   Please edit " ++ file ++ " and try again"
                            ++ String "010" "")%string))
    | (_, Raise e) => (log, Raise e)
    end.

(** [for point in points]. *)
Fixpoint pes_points (log : list string) (points : list string)
    (rows : list pes_row) : logged (list pes_row) :=
  match points with
  | [] => (log, Ok rows)
  | point :: rest =>
      match pes_point log point with
      | (log', Ok row) => pes_points log' rest (rows ++ [row])
      | (log', Raise e) => (log', Raise e)
      end
  end.

(** The lines of the PES block, each already cut into the pathway name
    and its stripped entries (lines 224-227). *)
Fixpoint pes_pathways (log : list string)
    (pathways : list (string * list string))
    (done : list (string * list pes_row))
    : logged (list (string * list pes_row)) :=
  match pathways with
  | [] => (log, Ok done)
  | (pathway, points) :: rest =>
      match pes_points log points [] with
      | (log', Ok rows) => pes_pathways log' rest (done ++ [(pathway, rows)])
      | (log', Raise e) => (log', Raise e)
      end
  end.

End GetPes.

(** *** The zero reference (lines 177-211) *)

Section Zero.

Variable thermo_data : list (string * bbe).
Variable species : list (string * species_entry).
Variable temperature : R.

(** Lines 181-188: here the single-point energy is added first. *)
Definition add_file_zero (file : string) (acc : abs_values)
    : result abs_values :=
  b <- getitem (lookup thermo_data file) ;;
  spc <- match bbe_sp_energy b with
         | Some v => float_add (spc_abs acc) v
         | None => Ok (spc_abs acc)
         end ;;
  scf <- getattr (bbe_scf_energy b) ;;
  z <- getattr (zpe b) ;;
  h <- getattr (enthalpy b) ;;
  s <- getattr (entropy b) ;;
  g <- getattr (gibbs_free_energy b) ;;
  qs <- getattr (qh_entropy b) ;;
  qg <- getattr (qh_gibbs_free_energy b) ;;
  Ok {| e_abs := e_abs acc + scf; spc_abs := spc;
        zpe_abs := zpe_abs acc + z; h_abs := h_abs acc + h;
        ts_abs := ts_abs acc + s; g_abs := g_abs acc + g;
        qhts_abs := qhts_abs acc + qs; qhg_abs := qhg_abs acc + qg |}.

(** Lines 197-207. *)
Definition add_conformer_zero (g_min boltz_sum : R) (acc : abs_values)
    (conformer : string) : result abs_values :=
  g0 <- qh_gibbs_of thermo_data conformer ;;
  let boltz_fac := boltz_fac_of g0 g_min temperature in
  b <- getitem (lookup thermo_data conformer) ;;
  spc <- match bbe_sp_energy b with
         | Some v =>
             x <- mul_float v boltz_fac ;;
             Ok (spc_abs acc + x / boltz_sum)
         | None => Ok (spc_abs acc)
         end ;;
  scf <- getattr (bbe_scf_energy b) ;;
  z <- getattr (zpe b) ;;
  h <- getattr (enthalpy b) ;;
  s <- getattr (entropy b) ;;
  g <- getattr (gibbs_free_energy b) ;;
  qs <- getattr (qh_entropy b) ;;
  qg <- getattr (qh_gibbs_free_energy b) ;;
  Ok {| e_abs := e_abs acc + scf * boltz_fac / boltz_sum;
        spc_abs := spc;
        zpe_abs := zpe_abs acc + z * boltz_fac / boltz_sum;
        h_abs := h_abs acc + h * boltz_fac / boltz_sum;
        ts_abs := ts_abs acc + s * boltz_fac / boltz_sum;
        g_abs := g_abs acc + g * boltz_fac / boltz_sum;
        qhts_abs := qhts_abs acc + qs * boltz_fac / boltz_sum;
        qhg_abs := qhg_abs acc + qg * boltz_fac / boltz_sum |}.

Definition add_structure_zero (acc : abs_values) (structure : string)
    : result abs_values :=
  entry <- getitem (lookup species structure) ;;
  match entry with
  | OneFile file => add_file_zero file acc
  | Conformers files =>
      g_min <- find_g_min thermo_data files ;;
      boltz_sum <- find_boltz_sum thermo_data temperature g_min files ;;
      fold_result (add_conformer_zero g_min boltz_sum) files acc
  end.

(** [for structure in zero_structures], the [try] inside the loop: a
    [KeyError] writes two warnings and leaves through [sys.exit]. *)
Fixpoint zero_loop (file : string) (log : list string)
    (structures : list string) (acc : abs_values) : logged abs_values :=
  match structures with
  | [] => (log, Ok acc)
  | structure :: rest =>
      match add_structure_zero acc structure with
      | Ok acc' => zero_loop file log rest acc'
      | Raise KeyError =>
          (log ++ ["   Warning! Structure " ++ structure
                   ++ " has not been defined correctly as energy-zero in "
                   ++ file ++ String "010" "";
                   "   Make sure this structure matches one of the SPECIES defined in the same file"
                   ++ String "010" ""]%string,
           Raise (SystemExit ("   Please edit " ++ file ++ " and try again"
                              ++ String "010" "")%string))
      | Raise e => (log, Raise e)
      end
  end.

End Zero.

(** *** The object built by [get_pes.__init__] *)

(** The [boltz] entry of the FORMAT block: the default [False], or the
    string written in the file. *)
Inductive boltz_option : Type :=
| BoltzFalse
| BoltzStr (s : string).

Record PES : Type := {
  dps : Z;
  units : string;
  boltz : boltz_option;
  zero_abs : abs_values;
  paths : list (string * list pes_row)
}.

(** [get_pes.__init__] once the SPECIES and FORMAT blocks have been read:
    [species] is the dict of line 171, [zero] the zero-reference string
    (unbound when the FORMAT block has no such line), [pathways] the lines
    of the PES block. *)
Definition get_pes (file : string) (thermo_data : list (string * bbe))
    (species : list (string * species_entry)) (fmt_dps : Z)
    (fmt_units : string) (fmt_boltz : boltz_option) (zero : option string)
    (pathways : list (string * list string)) (temperature : R)
    (log : list string) : logged PES :=
  match zero with
  | None => (log, Raise NameError)
  | Some zero =>
      match zero_loop thermo_data species temperature file log
              (point_structures zero) abs_zero with
      | (log1, Raise e) => (log1, Raise e)
      | (log1, Ok zero_vals) =>
          match pes_pathways file thermo_data species temperature log1
                  pathways [] with
          | (log2, Raise e) => (log2, Raise e)
          | (log2, Ok done) =>
              (log2, Ok {| dps := fmt_dps; units := fmt_units;
                           boltz := fmt_boltz; zero_abs := zero_vals;
                           paths := done |})
          end
      end
  end.

(** ** The relative table printed by [main] (lines 1279-1321) *)

(** [species = [PES.spc_abs[i][j], PES.e_abs[i][j], ...]] and
    [relative = [species[x]-zero_vals[x] ...]] (lines 1282, 1288-1289). *)
Definition abs_list (temperature : R) (a : abs_values) : list R :=
  [spc_abs a; e_abs a; zpe_abs a; h_abs a; temperature * ts_abs a;
   temperature * qhts_abs a; g_abs a; qhg_abs a].

Definition relative_of (temperature : R) (zero_vals : list R)
    (row : pes_row) : list R :=
  let species := abs_list temperature (row_abs row) in
  map (fun x => nth x species 0 - nth x zero_vals 0)
      (seq 0 (List.length zero_vals)).

Definition boltz_term (temperature : R) (relative : list R) (x : nat) : R :=
  exp (- nth x relative 0 * j_to_au / GAS_CONSTANT / temperature).

(** Lines 1286-1293: [e_sum, h_sum, g_sum, qhg_sum]. *)
Definition boltz_sums (temperature : R) (zero_vals : list R)
    (rows : list pes_row) : R * R * R * R :=
  fold_left
    (fun '(e_sum, h_sum, g_sum, qhg_sum) row =>
       let relative := relative_of temperature zero_vals row in
       (e_sum + boltz_term temperature relative 1,
        h_sum + boltz_term temperature relative 3,
        g_sum + boltz_term temperature relative 6,
        qhg_sum + boltz_term temperature relative 7))
    rows (0.0, 0.0, 0.0, 0.0).

(** Lines 1312-1314. *)
Definition selectivity_of (temperature : R) (sums : R * R * R * R)
    (relative : list R) : list R :=
  let '(e_sum, h_sum, g_sum, qhg_sum) := sums in
  let boltz :=
    [boltz_term temperature relative 1 / e_sum;
     boltz_term temperature relative 3 / h_sum;
     boltz_term temperature relative 6 / g_sum;
     boltz_term temperature relative 7 / qhg_sum] in
  map (fun x => nth x boltz 0 * 100.0) (seq 0 (List.length boltz)).

(** What is written for one pathway: per point the name, the relative
    values in the display unit and, when populations are requested, the
    selectivity; then the optional ee row. *)
Record path_report : Type := {
  report_path : string;
  report_rows : list (string * list R * option (list R));
  report_ee : option (list R)
}.

Definition boltz_on (b : boltz_option) : bool :=
  match b with BoltzFalse => false | BoltzStr _ => true end.

Definition boltz_is_ee (b : boltz_option) : bool :=
  match b with BoltzFalse => false | BoltzStr s => String.eqb s "ee" end.

Definition report_pathway (P : PES) (temperature : R) (spc : spc_option)
    (path : string) (rows : list pes_row) : path_report :=
  let zero_vals := abs_list temperature (zero_abs P) in
  let sums := boltz_sums temperature zero_vals rows in
  let lines :=
    map (fun row =>
           let relative := relative_of temperature zero_vals row in
           let formatted_list :=
             if String.eqb (units P) "kJ/mol"
             then map (fun x => j_to_au / 1000.0 * x) relative
             else map (fun x => kcal_to_au * x) relative in
           let formatted_list :=
             match spc with
             | SpcFalse => tl formatted_list
             | SpcStr _ => formatted_list
             end in
           (row_species row, formatted_list,
            if boltz_on (boltz P)
            then Some (selectivity_of temperature sums relative)
            else None))
        rows in
  (* [sels] collects the selectivity of every point of this pathway *)
  let sels :=
    flat_map (fun l => match snd l with Some s => [s] | None => [] end) lines in
  {| report_path := path;
     report_rows := lines;
     report_ee :=
       if boltz_is_ee (boltz P) && (List.length sels =? 2)%nat then
         let sels0 := nth 0 sels [] in
         let sels1 := nth 1 sels [] in
         Some (map (fun x => nth x sels0 0 - nth x sels1 0)
                   (seq 0 (List.length sels0)))
       else None |}.

(** [for i, path in enumerate(PES.path)]. *)
Definition report_pes (P : PES) (temperature : R) (spc : spc_option)
    : list path_report :=
  map (fun '(path, rows) => report_pathway P temperature spc path rows)
      (paths P).

(** ** Sample inputs and auxiliary notions used in the statements *)

(** A frequency job of a water molecule and the single-point output
    [water_SP.log] next to it. *)
Definition sample_scan : scan :=
  {| scf_energy := Some (-76.4);
     zero_point_corr := Some 0.02;
     mult := Some 1;
     molecular_mass := Some 18.01;
     symmno := 2;
     linear_mol := 0;
     rotemp := RotList [39.0; 21.0; 13.0];
     frequency_wn := [1600; 3800; 3900];
     im_frequency_wn := [];
     linear_warning := PyStr "" |}.

Definition sample_files : filesystem :=
  fun file =>
    if String.eqb file "water_SP.log" then
      Some {| spe := PyFloat (-76.5);
              program := "Gaussian";
              version_program := "Gaussian 16, Revision A.03";
              solvation_model := "gas phase" |}
    else None.

(** [float] on the tokens of the sample lines. *)
Definition sample_float (token : string) : option R :=
  if String.eqb token "0.5" then Some 0.5
  else if String.eqb token "0.25" then Some 0.25
  else if String.eqb token "39.0" then Some 39.0
  else None.

Definition sample_rotational_line : string :=
  " Rotational temperatures (Kelvin) ******** 0.5 0.5".

(** An object with every thermal attribute assigned and no single-point
    attribute. *)
Definition complete (b : bbe) : Prop :=
  bbe_sp_energy b = None
  /\ bbe_scf_energy b <> None /\ zpe b <> None /\ enthalpy b <> None
  /\ entropy b <> None /\ qh_entropy b <> None
  /\ gibbs_free_energy b <> None /\ qh_gibbs_free_energy b <> None.

(** [G - qh-G = T (qh-S - S)] on the attributes of an object. *)
Definition gibbs_identity (temperature : R) (b : bbe) : Prop :=
  forall G qhG S qhS,
    gibbs_free_energy b = Some G -> qh_gibbs_free_energy b = Some qhG ->
    entropy b = Some S -> qh_entropy b = Some qhS ->
    G - qhG = temperature * (qhS - S).

(** The value of an assigned attribute (0 for a missing one), and the
    quasi-harmonic Gibbs energy recorded for a conformer file. *)
Definition value_of (o : option R) : R :=
  match o with Some x => x | None => 0 end.

Definition qh_gibbs_value (thermo_data : list (string * bbe))
    (conformer : string) : R :=
  match lookup thermo_data conformer with
  | Some b => value_of (qh_gibbs_free_energy b)
  | None => 0
  end.

(** [G - qh-G = T (qh-S - S)] on the running totals of a point. *)
Definition abs_identity (temperature : R) (a : abs_values) : Prop :=
  g_abs a - qhg_abs a = temperature * (qhts_abs a - ts_abs a).

(** A complete object with the given energy, enthalpy and entropies at
    the given temperature, and a table of two conformers and one further
    structure. *)
Definition sample_bbe (E H S qhS temperature : R) : bbe :=
  {| bbe_sp_energy := None;
     bbe_scf_energy := Some E;
     bbe_zero_point_corr := Some 0.02;
     enthalpy := Some H;
     zpe := Some 0.02;
     entropy := Some S;
     qh_entropy := Some qhS;
     gibbs_free_energy := Some (H - temperature * S);
     qh_gibbs_free_energy := Some (H - temperature * qhS);
     im_freq := Some [];
     bbe_frequency_wn := [100; 2000];
     bbe_linear_warning := PyStr "" |}.

Definition sample_thermo_data : list (string * bbe) :=
  [("conf1.log", sample_bbe (-10.5) (-10.4) 0.0001 0.00009 298.15);
   ("conf2.log", sample_bbe (-10.6) (-10.5) 0.0002 0.00015 298.15);
   ("ts.log", sample_bbe (-20) (-19.9) 0.0003 0.0002 298.15)]%string.

Definition sample_species : list (string * species_entry) :=
  [("A", Conformers ["conf1.log"; "conf2.log"]);
   ("TS", OneFile "ts.log")]%string.

(** A PES file [pes.txt] with one pathway whose second entry names a
    structure that the SPECIES block does not define. *)
Definition sample_pathways : list (string * list string) :=
  [("Path", ["A"; "B"; "TS"])]%string.

(** A table with two pathways of three points each, populations and ee
    requested. *)
Definition sample_row (name : string) (E : R) : pes_row :=
  {| row_species := name;
     row_abs := {| e_abs := E; spc_abs := 0.0; zpe_abs := 0.02;
                   h_abs := E + 0.03; ts_abs := 0.0001; g_abs := E + 0.001;
                   qhts_abs := 0.00009; qhg_abs := E + 0.002 |} |}.

Definition sample_PES : PES :=
  {| dps := 2;
     units := "kcal/mol";
     boltz := BoltzStr "ee";
     zero_abs := row_abs (sample_row "SM" (-10));
     paths := [("R", [sample_row "SM" (-10); sample_row "TS_R" (-9.98);
                      sample_row "P_R" (-10.01)]);
               ("S", [sample_row "SM" (-10); sample_row "TS_S" (-9.97);
                      sample_row "P_S" (-10.01)])]%string |}.

(** The same table with one pathway that lists the two competing
    transition states. *)
Definition sample_PES_two_points : PES :=
  {| dps := 2;
     units := "kcal/mol";
     boltz := BoltzStr "ee";
     zero_abs := row_abs (sample_row "SM" (-10));
     paths := [("Selectivity", [sample_row "TS_R" (-9.98);
                                sample_row "TS_S" (-9.97)])]%string |}.

(** ** Further sample inputs and auxiliary notions *)

(** The sample frequency job without any energy line. *)
Definition sample_scan_no_energy : scan :=
  {| scf_energy := None;
     zero_point_corr := Some 0.02;
     mult := Some 1;
     molecular_mass := Some 18.01;
     symmno := 2;
     linear_mol := 0;
     rotemp := RotList [39.0; 21.0; 13.0];
     frequency_wn := [1600; 3800; 3900];
     im_frequency_wn := [];
     linear_warning := PyStr "" |}.

(** The field-wise sum of two sets of running totals. *)
Definition abs_plus (a b : abs_values) : abs_values :=
  {| e_abs := e_abs a + e_abs b;
     spc_abs := spc_abs a + spc_abs b;
     zpe_abs := zpe_abs a + zpe_abs b;
     h_abs := h_abs a + h_abs b;
     ts_abs := ts_abs a + ts_abs b;
     g_abs := g_abs a + g_abs b;
     qhts_abs := qhts_abs a + qhts_abs b;
     qhg_abs := qhg_abs a + qhg_abs b |}.


(** A table with another zero reference. *)
Definition with_zero (P : PES) (z : abs_values) : PES :=
  {| dps := dps P; units := units P; boltz := boltz P; zero_abs := z;
     paths := paths P |}.

(** ** The Boltzmann column of the main table (lines 898-924 and 974) *)






(** * Properties *)

(** ** Elementary facts about lists and the error monad *)

Lemma nth_map_default {A : Type} (f : A -> R) (l : list A) (i : nat) (d : A) :
  (i < List.length l)%nat -> nth i (map f l) 0 = f (nth i l d).
Proof.
  intros Hi. rewrite (nth_indep (map f l) 0 (f d)).
  - apply map_nth.
  - now rewrite length_map.
Qed.

Lemma fold_append_map {A : Type} (f : nat -> A) (js : list nat) (acc : list A) :
  fold_left (fun acc j => acc ++ [f j]) js acc = acc ++ map f js.
Proof.
  revert acc. induction js as [|j js IH]; intros acc; simpl.
  - now rewrite app_nil_r.
  - rewrite IH, <- app_assoc. reflexivity.
Qed.

Lemma map_nth_seq (l : list R) :
  map (fun j => nth j l 0) (seq 0 (List.length l)) = l.
Proof.
  induction l as [|x l IH]; simpl; [reflexivity|].
  f_equal. rewrite <- seq_shift, map_map. exact IH.
Qed.

Lemma py_sum_app (l1 l2 : list R) : py_sum (l1 ++ l2) = py_sum l1 + py_sum l2.
Proof.
  unfold py_sum. rewrite fold_left_app.
  generalize (fold_left Rplus l1 0). revert l2.
  induction l2 as [|x l2 IH]; intros a; simpl; [lra|].
  rewrite IH. rewrite (IH (0 + x)). lra.
Qed.

Lemma py_sum_cons (x : R) (l : list R) : py_sum (x :: l) = x + py_sum l.
Proof. change (x :: l) with ([x] ++ l). rewrite py_sum_app. unfold py_sum; simpl. lra. Qed.

(** ** The damping function *)

Lemma calc_damp_nth (frequency_wn : list R) (FREQ_CUTOFF : R) (i : nat) :
  (i < List.length frequency_wn)%nat ->
  nth i (calc_damp frequency_wn FREQ_CUTOFF) 0
  = 1 / (1 + (FREQ_CUTOFF / nth i frequency_wn 0) ^ 4).
Proof. intros Hi. unfold calc_damp. now rewrite (nth_map_default _ _ _ 0). Qed.

Lemma pow4_pos (x : R) : 0 < x -> 0 < x ^ 4.
Proof. intros Hx. apply pow_lt. exact Hx. Qed.

Lemma pow4_lt (x y : R) : 0 < x -> x < y -> x ^ 4 < y ^ 4.
Proof.
  intros Hx Hxy.
  assert (H2 : x * x < y * y) by nra.
  assert (Hx2 : 0 < x * x) by nra.
  replace (x ^ 4) with ((x * x) * (x * x)) by ring.
  replace (y ^ 4) with ((y * y) * (y * y)) by ring.
  nra.
Qed.

Lemma damp_value_bounds (c nu : R) :
  0 < c -> 0 < nu -> 0 < 1 / (1 + (c / nu) ^ 4) < 1.
Proof.
  intros Hc Hnu.
  assert (Hq : 0 < c / nu) by (apply Rdiv_lt_0_compat; assumption).
  pose proof (pow4_pos _ Hq) as Hp.
  split.
  - apply Rdiv_lt_0_compat; lra.
  - apply (Rmult_lt_reg_r (1 + (c / nu) ^ 4)); [lra|].
    unfold Rdiv. rewrite Rmult_assoc, Rinv_l by lra. lra.
Qed.

Lemma damp_value_increasing (c nu1 nu2 : R) :
  0 < c -> 0 < nu1 -> nu1 < nu2 ->
  1 / (1 + (c / nu1) ^ 4) < 1 / (1 + (c / nu2) ^ 4).
Proof.
  intros Hc H1 H12.
  assert (H2 : 0 < nu2) by lra.
  assert (Hq2 : 0 < c / nu2) by (apply Rdiv_lt_0_compat; assumption).
  assert (Hlt : c / nu2 < c / nu1).
  { unfold Rdiv. apply Rmult_lt_compat_l; [exact Hc|].
    apply Rinv_lt_contravar; nra. }
  pose proof (pow4_lt _ _ Hq2 Hlt) as Hp.
  pose proof (pow4_pos _ Hq2) as Hp2.
  unfold Rdiv at 1 3. rewrite !Rmult_1_l.
  apply Rinv_lt_contravar; nra.
Qed.

(** C8.  For a fixed positive cutoff, the damping values computed by
    [calc_damp] are strictly increasing in the wavenumber over positive
    wavenumbers, lie strictly between 0 and 1, and are one half at the
    cutoff itself: this holds at every position of every frequency list. *)
Theorem calc_damp_monotone_bounded_half :
  forall (FREQ_CUTOFF : R) (frequency_wn : list R),
    0 < FREQ_CUTOFF ->
    let damp := calc_damp frequency_wn FREQ_CUTOFF in
    (forall i j, (i < List.length frequency_wn)%nat ->
                 (j < List.length frequency_wn)%nat ->
                 0 < nth i frequency_wn 0 ->
                 nth i frequency_wn 0 < nth j frequency_wn 0 ->
                 nth i damp 0 < nth j damp 0)
    /\ (forall i, (i < List.length frequency_wn)%nat ->
                  0 < nth i frequency_wn 0 ->
                  0 < nth i damp 0 < 1)
    /\ (forall i, (i < List.length frequency_wn)%nat ->
                  nth i frequency_wn 0 = FREQ_CUTOFF ->
                  nth i damp 0 = 0.5).
Proof.
  intros c l Hc damp. subst damp. split; [|split].
  - intros i j Hi Hj Hpos Hlt. rewrite !calc_damp_nth by assumption.
    apply damp_value_increasing; assumption.
  - intros i Hi Hpos. rewrite calc_damp_nth by assumption.
    apply damp_value_bounds; assumption.
  - intros i Hi Heq. rewrite calc_damp_nth by assumption. rewrite Heq.
    replace (c / c) with 1 by (field; lra). lra.
Qed.

Lemma calc_damp_monotone_bounded_half_witness :
  0 < 100
  /\ nth 0 (calc_damp [50; 100; 300] 100) 0
     < nth 1 (calc_damp [50; 100; 300] 100) 0
  /\ 0 < nth 2 (calc_damp [50; 100; 300] 100) 0 < 1
  /\ nth 1 (calc_damp [50; 100; 300] 100) 0 = 0.5.
Proof.
  assert (Hc : 0 < 100) by lra.
  destruct (calc_damp_monotone_bounded_half 100 [50; 100; 300] Hc)
    as (Hmono & Hbound & Hhalf).
  split; [exact Hc|]. split; [|split].
  - apply (Hmono 0%nat 1%nat); simpl; try lia; lra.
  - apply (Hbound 2%nat); simpl; try lia; lra.
  - apply (Hhalf 1%nat); simpl; try lia; lra.
Defined.

(** ** The free-space table *)

Lemma find_nsolv_no_match (solv : string) (names : list string)
    (js : list nat) (nsolv : nat) :
  (forall j, In j js -> String.eqb solv (nth j names ""%string) = false) ->
  fold_left
    (fun nsolv i => if String.eqb solv (nth i names ""%string) then i else nsolv)
    js nsolv = nsolv.
Proof.
  revert nsolv. induction js as [|j js IH]; intros nsolv Hjs; simpl.
  - reflexivity.
  - rewrite (Hjs j) by (now left). apply IH.
    intros k Hk. apply Hjs. now right.
Qed.

Lemma find_nsolv_unknown (solv : string) (names : list string) :
  ~ In solv names -> find_nsolv solv names = 0%nat.
Proof.
  intros Hnot. unfold find_nsolv. apply find_nsolv_no_match.
  intros j Hj. apply in_seq in Hj. apply String.eqb_neq.
  intros Heq. apply Hnot. rewrite Heq. apply nth_In. lia.
Qed.

(** C9.  A solvent name outside the six table entries leaves [nsolv] at
    0, so [get_free_space] returns the free space of "none", 1000.0; the
    function is total, no error is raised. *)
Theorem get_free_space_unknown_solvent :
  forall solv : string,
    ~ In solv solvent_list -> get_free_space solv = 1000.0.
Proof.
  intros solv Hnot. unfold get_free_space.
  rewrite (find_nsolv_unknown solv solvent_list Hnot). reflexivity.
Qed.

Lemma get_free_space_unknown_solvent_witness :
  ~ In "benzene"%string solvent_list
  /\ get_free_space "benzene" = 1000.0.
Proof.
  assert (H : ~ In "benzene"%string solvent_list).
  { unfold solvent_list. simpl. intros [H|[H|[H|[H|[H|[H|[]]]]]]]; discriminate H. }
  split; [exact H|]. exact (get_free_space_unknown_solvent "benzene" H).
Defined.

(** ** The quasi-harmonic entropy per mode *)

Lemma vib_entropy_loop_truhlar_no_cutoff
    (frequency_wn Svib_rrho Svib_rrqho Svib_free_rot damp : list R) :
  List.length Svib_rrho = List.length frequency_wn ->
  vib_entropy_loop "truhlar" 0 frequency_wn Svib_rrho Svib_rrqho
    Svib_free_rot damp = Svib_rrho.
Proof.
  intros Hlen. unfold vib_entropy_loop. simpl String.eqb. cbv iota.
  destruct (Rgt_dec 0 0.0) as [Hgt|_]; [exfalso; lra|].
  rewrite (fold_append_map (fun j => nth j Svib_rrho 0)). simpl.
  rewrite <- Hlen. apply map_nth_seq.
Qed.

Lemma calc_rrho_entropy_length (frequency_wn : list R) (T scale : R) :
  List.length (calc_rrho_entropy frequency_wn T scale)
  = List.length frequency_wn.
Proof. unfold calc_rrho_entropy. now rewrite !length_map. Qed.

(** C5.  Under the truhlar method with a cutoff of 0 the list of
    quasi-harmonic entropies per mode is the list of RRHO entropies per
    mode, hence the two totals of line 711 coincide; this carries over to
    the entropies of the object: [qh_entropy] equals [entropy]. *)
Theorem truhlar_zero_cutoff_is_rrho :
  forall (freqs : list R) (temperature freq_scale_factor : R),
    Forall (fun freq => 0 < freq) freqs ->
    0 < temperature -> 0 < freq_scale_factor ->
    let modes :=
      vib_entropies "truhlar" 0 temperature freq_scale_factor freqs in
    fst modes = snd modes
    /\ py_sum (fst modes) = py_sum (snd modes)
    /\ forall fs name ext s conc solv spc r,
         frequency_wn s = freqs ->
         calc_bbe fs name ext s "truhlar" 0 temperature conc
           freq_scale_factor solv spc = Ok r ->
         qh_entropy r = entropy r.
Proof.
  intros freqs T scale _ _ _ modes. subst modes.
  unfold vib_entropies. cbn [fst snd].
  rewrite vib_entropy_loop_truhlar_no_cutoff
    by apply calc_rrho_entropy_length.
  split; [reflexivity|]. split; [reflexivity|].
  intros fs name ext s conc solv spc r Hs Hr. subst freqs.
  unfold calc_bbe in Hr.
  destruct (read_sp_energy fs name ext spc) as [sp|e]; simpl in Hr;
    [|discriminate].
  destruct (zero_point_corr s) as [zp|];
    [|injection Hr as <-; reflexivity].
  destruct (rotemp_truthy (rotemp s)) as [rot|];
    [|injection Hr as <-; reflexivity].
  destruct (molecular_mass s) as [mass|]; simpl in Hr; [|discriminate].
  destruct (mult s) as [m|]; simpl in Hr; [|discriminate].
  destruct (0 <? List.length (frequency_wn s))%nat.
  - unfold vib_entropies in Hr.
    rewrite vib_entropy_loop_truhlar_no_cutoff in Hr
      by apply calc_rrho_entropy_length.
    destruct (scf_energy s) as [scf|]; simpl in Hr; [|discriminate].
    injection Hr as <-. reflexivity.
  - destruct (scf_energy s) as [scf|]; simpl in Hr; [|discriminate].
    injection Hr as <-. reflexivity.
Qed.

Lemma truhlar_zero_cutoff_is_rrho_witness :
  Forall (fun freq => 0 < freq) [50; 100; 300; 3000]
  /\ 0 < 298.15 /\ 0 < 1
  /\ py_sum (fst (vib_entropies "truhlar" 0 298.15 1 [50; 100; 300; 3000]))
     = py_sum (snd (vib_entropies "truhlar" 0 298.15 1 [50; 100; 300; 3000])).
Proof.
  assert (Hf : Forall (fun freq => 0 < freq) [50; 100; 300; 3000])
    by (repeat constructor; lra).
  assert (HT : 0 < 298.15) by lra.
  assert (Hs : 0 < 1) by lra.
  repeat (split; [assumption|]).
  exact (proj1 (proj2
    (truhlar_zero_cutoff_is_rrho [50; 100; 300; 3000] 298.15 1 Hf HT Hs))).
Defined.

(** ** Numerical bounds for one mode *)

Lemma exp_neg_gt (y : R) : 0 < y -> 1 - y < exp (- y).
Proof.
  intros Hy. pose proof (exp_ineq1 (- y)) as H.
  assert (Hne : - y <> 0) by lra. specialize (H Hne). lra.
Qed.

Lemma exp_neg_lt (y : R) : 0 < y -> exp (- y) < / (1 + y).
Proof.
  intros Hy. rewrite exp_Ropp.
  apply Rinv_lt_contravar.
  - apply Rmult_lt_0_compat; [lra | apply exp_pos].
  - apply exp_ineq1. lra.
Qed.

Lemma exp_lt_inv_one_minus (y : R) : 0 < y < 1 -> exp y < / (1 - y).
Proof.
  intros [Hy Hy1]. pose proof (exp_neg_gt y Hy) as H.
  rewrite exp_Ropp in H.
  pose proof (exp_pos y) as Hp.
  apply (Rmult_lt_reg_r (1 - y)); [lra|].
  rewrite Rinv_l by lra.
  apply (Rmult_lt_compat_l (exp y)) in H; [|exact Hp].
  rewrite Rinv_r in H by lra. lra.
Qed.

(** The RRHO entropy of a mode with reduced frequency [y], in units of
    the gas constant, is above [(1 - y) - ln y]. *)
Lemma rrho_mode_lower (y : R) :
  0 < y < 1 ->
  (1 - y) - ln y < y / (exp y - 1) - ln (1 - exp (- y)).
Proof.
  intros [Hy Hy1].
  pose proof (exp_ineq1 y ltac:(lra)) as Hlow.
  pose proof (exp_lt_inv_one_minus y (conj Hy Hy1)) as Hup.
  pose proof (exp_neg_gt y Hy) as Hneg.
  assert (Hnegpos : 0 < 1 - exp (- y)).
  { pose proof (exp_increasing (- y) 0 ltac:(lra)) as H. rewrite exp_0 in H. lra. }
  assert (Hln : ln (1 - exp (- y)) < ln y).
  { apply ln_increasing; lra. }
  assert (Hfrac : 1 - y < y / (exp y - 1)).
  { assert (Hd : 0 < exp y - 1) by lra.
    apply (Rmult_lt_reg_r (exp y - 1)); [exact Hd|].
    unfold Rdiv. rewrite Rmult_assoc, Rinv_l by lra.
    assert (Hb : exp y - 1 < / (1 - y) - 1) by lra.
    assert (Hc : (1 - y) * (/ (1 - y) - 1) = y) by (field; lra).
    assert (Hm : (1 - y) * (exp y - 1) < (1 - y) * (/ (1 - y) - 1)).
    { apply Rmult_lt_compat_l; lra. }
    lra. }
  lra.
Qed.

(** ... and below [1 - ln (y / (1 + y))]. *)
Lemma rrho_mode_upper (y : R) :
  0 < y ->
  y / (exp y - 1) - ln (1 - exp (- y)) < 1 - ln (y / (1 + y)).
Proof.
  intros Hy.
  pose proof (exp_ineq1 y ltac:(lra)) as Hlow.
  pose proof (exp_neg_lt y Hy) as Hneg.
  assert (Hq : 1 - / (1 + y) = y / (1 + y)) by (field; lra).
  assert (Hqpos : 0 < y / (1 + y)) by (apply Rdiv_lt_0_compat; lra).
  assert (Hln : ln (y / (1 + y)) < ln (1 - exp (- y))).
  { apply ln_increasing; lra. }
  assert (Hfrac : y / (exp y - 1) < 1).
  { assert (Hd : 0 < exp y - 1) by lra.
    apply (Rmult_lt_reg_r (exp y - 1)); [exact Hd|].
    unfold Rdiv. rewrite Rmult_assoc, Rinv_l by lra. lra. }
  lra.
Qed.

(** Doubling a reduced frequency below one quarter lowers the RRHO
    entropy of the mode. *)
Lemma rrho_mode_doubling (y : R) :
  0 < y <= / 4 ->
  2 * y / (exp (2 * y) - 1) - ln (1 - exp (- (2 * y)))
  < y / (exp y - 1) - ln (1 - exp (- y)).
Proof.
  intros [Hy Hy4].
  pose proof (rrho_mode_lower y ltac:(lra)) as Hl.
  pose proof (rrho_mode_upper (2 * y) ltac:(lra)) as Hu.
  assert (Hkey : y + ln y < ln (2 * y / (1 + 2 * y))).
  { replace (y + ln y) with (ln (exp y * y)).
    - apply ln_increasing.
      + apply Rmult_lt_0_compat; [apply exp_pos | lra].
      + pose proof (exp_lt_inv_one_minus y ltac:(lra)) as He.
        assert (Hb : / (1 - y) <= 2 / (1 + 2 * y)).
        { apply (Rmult_le_reg_r ((1 - y) * (1 + 2 * y))); [nra|].
          replace (/ (1 - y) * ((1 - y) * (1 + 2 * y))) with (1 + 2 * y)
            by (field; lra).
          replace (2 / (1 + 2 * y) * ((1 - y) * (1 + 2 * y)))
            with (2 * (1 - y)) by (field; lra).
          lra. }
        replace (2 * y / (1 + 2 * y)) with (2 / (1 + 2 * y) * y)
          by (field; lra).
        apply Rmult_lt_compat_r; lra.
    - rewrite ln_mult by (try apply exp_pos; lra). rewrite ln_exp. reflexivity. }
  lra.
Qed.

Lemma ln_sqrt_half (f : R) : 0 < f -> ln (sqrt f) = ln f / 2.
Proof.
  intros Hf. pose proof (sqrt_lt_R0 f Hf) as Hs.
  assert (H : ln f = ln (sqrt f) + ln (sqrt f)).
  { rewrite <- ln_mult by assumption. now rewrite sqrt_sqrt by lra. }
  lra.
Qed.

(** A free-rotor factor [f] below [4 / y] gives, for a reduced frequency
    [y] below one quarter, a free-rotor entropy below the RRHO entropy. *)
Lemma freerot_below_rrho (y f : R) :
  0 < y < / 4 -> 0 < f < 4 / y ->
  0.5 + ln (sqrt f) < y / (exp y - 1) - ln (1 - exp (- y)).
Proof.
  intros [Hy Hy4] [Hf Hfy].
  pose proof (rrho_mode_lower y ltac:(lra)) as Hl.
  rewrite ln_sqrt_half by exact Hf.
  assert (Hb : 4 / y < / (y * y)).
  { apply (Rmult_lt_reg_r (y * y)); [nra|].
    rewrite Rinv_l by nra.
    replace (4 / y * (y * y)) with (4 * y) by (field; lra). lra. }
  assert (Hln : ln f < ln (/ (y * y))).
  { apply ln_increasing; lra. }
  rewrite ln_Rinv in Hln by nra.
  rewrite ln_mult in Hln by lra.
  lra.
Qed.

Lemma constants_positive :
  0 < GAS_CONSTANT /\ 0 < PLANCK_CONSTANT /\ 0 < BOLTZMANN_CONSTANT
  /\ 0 < SPEED_OF_LIGHT /\ 0 < Bav /\ 0 < j_to_au.
Proof.
  unfold GAS_CONSTANT, PLANCK_CONSTANT, BOLTZMANN_CONSTANT, SPEED_OF_LIGHT,
    Bav, j_to_au.
  repeat split; lra.
Qed.

Ltac prod_pos :=
  repeat match goal with
         | |- 0 < _ * _ => apply Rmult_lt_0_compat
         | |- 0 < _ / _ => apply Rdiv_lt_0_compat
         | |- 0 < _ ^ _ => apply pow_lt
         end;
  try assumption; try lra.

(** The argument of the logarithm in the free-rotor entropy stays below
    [4 / y], where [y] is the reduced frequency of the same mode. *)
Lemma freerot_factor_bound (nu T s : R) :
  0 < nu -> 0 < T -> 0 < s ->
  let mu := PLANCK_CONSTANT / (8 * PI ^ 2 * nu * SPEED_OF_LIGHT * s) in
  let mu_primed := mu * Bav / (mu + Bav) in
  let f :=
    8 * PI ^ 3 * mu_primed * BOLTZMANN_CONSTANT * T / PLANCK_CONSTANT ^ 2 in
  let y := PLANCK_CONSTANT * nu * SPEED_OF_LIGHT * s / BOLTZMANN_CONSTANT / T in
  0 < f < 4 / y.
Proof.
  intros Hnu HT Hs.
  destruct constants_positive as (_ & Hh & Hk & Hc & HB & _).
  generalize dependent PLANCK_CONSTANT. intros h Hh.
  generalize dependent BOLTZMANN_CONSTANT. intros k Hk.
  generalize dependent SPEED_OF_LIGHT. intros c Hc.
  generalize dependent Bav. intros B HB.
  intros mu mu_primed f y.
  pose proof PI_RGT_0 as Hpi. pose proof PI_4 as Hpi4.
  assert (Hden : 0 < 8 * PI ^ 2 * nu * c * s).
  { prod_pos. }
  assert (Hmu : 0 < mu) by (apply Rdiv_lt_0_compat; assumption).
  assert (Hmp : 0 < mu_primed) by (unfold mu_primed; prod_pos).
  assert (Hmlt : mu_primed < mu).
  { unfold mu_primed. apply (Rmult_lt_reg_r (mu + B)); [lra|].
    unfold Rdiv. rewrite Rmult_assoc, Rinv_l by lra. nra. }
  assert (HK : 0 < 8 * PI ^ 3 * k * T / h ^ 2).
  { prod_pos. }
  assert (Hf : f = 8 * PI ^ 3 * k * T / h ^ 2 * mu_primed).
  { unfold f. field. lra. }
  assert (Hy : 0 < y).
  { unfold y. prod_pos. }
  assert (Hfull : 8 * PI ^ 3 * k * T / h ^ 2 * mu = PI / y).
  { unfold mu, y. field. repeat split; lra. }
  split.
  - rewrite Hf. apply Rmult_lt_0_compat; assumption.
  - apply Rlt_le_trans with (PI / y).
    + rewrite Hf, <- Hfull. apply Rmult_lt_compat_l; assumption.
    + unfold Rdiv. apply Rmult_le_compat_r; [|exact Hpi4].
      left. apply Rinv_0_lt_compat. exact Hy.
Qed.

Lemma fold_left_pointwise {A B : Type} (f g : A -> B -> A) (l : list B) (a : A) :
  (forall a x, f a x = g a x) -> fold_left f l a = fold_left g l a.
Proof.
  intros H. revert a. induction l as [|x l IH]; intros a; simpl.
  - reflexivity.
  - rewrite H. apply IH.
Qed.

Lemma vib_entropy_loop_grimme
    (FREQ_CUTOFF : R) (freqs Svib_rrho Svib_rrqho Svib_free_rot damp : list R) :
  vib_entropy_loop "grimme" FREQ_CUTOFF freqs Svib_rrho Svib_rrqho
    Svib_free_rot damp
  = map (fun j => nth j Svib_rrho 0 * nth j damp 0
                  + (1 - nth j damp 0) * nth j Svib_free_rot 0)
        (seq 0 (List.length freqs)).
Proof.
  unfold vib_entropy_loop. simpl String.eqb. cbv iota.
  now rewrite fold_append_map.
Qed.

Lemma vib_entropy_loop_truhlar
    (FREQ_CUTOFF : R) (freqs Svib_rrho Svib_rrqho Svib_free_rot damp : list R) :
  vib_entropy_loop "truhlar" FREQ_CUTOFF freqs Svib_rrho Svib_rrqho
    Svib_free_rot damp
  = map (fun j => if Rgt_dec FREQ_CUTOFF 0.0 then
                    if Rgt_dec (nth j freqs 0) FREQ_CUTOFF
                    then nth j Svib_rrho 0 else nth j Svib_rrqho 0
                  else nth j Svib_rrho 0)
        (seq 0 (List.length freqs)).
Proof.
  unfold vib_entropy_loop. simpl String.eqb. cbv iota.
  rewrite <- (app_nil_l (map _ _)), <- fold_append_map.
  apply fold_left_pointwise. intros acc j.
  destruct (Rgt_dec FREQ_CUTOFF 0.0); [|reflexivity].
  destruct (Rgt_dec (nth j freqs 0) FREQ_CUTOFF); reflexivity.
Qed.

Lemma rrho_entry_factor (y : R) :
  y * GAS_CONSTANT / (exp y - 1) - GAS_CONSTANT * ln (1 - exp (- y))
  = GAS_CONSTANT * (y / (exp y - 1) - ln (1 - exp (- y))).
Proof. unfold Rdiv. ring. Qed.

(** C6.  Frequencies [50, 100, 300, 3000] at 298.15 K, scale factor 1.0,
    cutoff 100: under truhlar the entropy of the 50 cm^-1 mode is the RRHO
    entropy of a 100 cm^-1 mode, which differs from its own RRHO entropy;
    under grimme it lies strictly between its free-rotor entropy and its
    RRHO entropy. *)
Theorem scenario_low_mode_entropy :
  let freqs := [50; 100; 300; 3000] in
  let truhlar := fst (vib_entropies "truhlar" 100 298.15 1.0 freqs) in
  let grimme := fst (vib_entropies "grimme" 100 298.15 1.0 freqs) in
  let Svib_rrho := calc_rrho_entropy freqs 298.15 1.0 in
  let Svib_free_rot := calc_freerot_entropy freqs 298.15 1.0 in
  nth 0 truhlar 0 = nth 0 (calc_rrho_entropy [100] 298.15 1.0) 0
  /\ nth 0 truhlar 0 <> nth 0 Svib_rrho 0
  /\ nth 0 Svib_free_rot 0 < nth 0 grimme 0 < nth 0 Svib_rrho 0.
Proof.
  intros freqs truhlar grimme Svib_rrho Svib_free_rot.
  destruct constants_positive as (HG & _).
  assert (Hy : 0.2 < PLANCK_CONSTANT * 50 * SPEED_OF_LIGHT * 1.0
                     / BOLTZMANN_CONSTANT / 298.15 < 0.25).
  { unfold PLANCK_CONSTANT, SPEED_OF_LIGHT, BOLTZMANN_CONSTANT. lra. }
  assert (Hdouble : PLANCK_CONSTANT * 100 * SPEED_OF_LIGHT * 1.0
                    / BOLTZMANN_CONSTANT / 298.15
                    = 2 * (PLANCK_CONSTANT * 50 * SPEED_OF_LIGHT * 1.0
                           / BOLTZMANN_CONSTANT / 298.15)) by lra.
  pose proof (freerot_factor_bound 50 298.15 1.0
                ltac:(lra) ltac:(lra) ltac:(lra)) as Hf.
  cbv zeta in Hf.
  assert (Htru : nth 0 truhlar 0
                 = nth 0 (calc_rrho_entropy [100] 298.15 1.0) 0).
  { unfold truhlar, vib_entropies, freqs. cbn [fst].
    rewrite vib_entropy_loop_truhlar.
    cbn [map seq List.length nth].
    destruct (Rgt_dec 100 0.0) as [_|Hn]; [|exfalso; lra].
    destruct (Rgt_dec 50 100) as [Hn|_]; [exfalso; lra|].
    unfold calc_rrho_entropy. cbn [map nth]. reflexivity. }
  assert (Hrr : nth 0 (calc_rrho_entropy [100] 298.15 1.0) 0
                < nth 0 Svib_rrho 0).
  { unfold Svib_rrho, freqs, calc_rrho_entropy. cbn [map nth].
    rewrite !rrho_entry_factor, Hdouble.
    apply Rmult_lt_compat_l; [exact HG|].
    apply rrho_mode_doubling. lra. }
  assert (Hfr : nth 0 Svib_free_rot 0 < nth 0 Svib_rrho 0).
  { unfold Svib_free_rot, Svib_rrho, freqs, calc_freerot_entropy,
      calc_rrho_entropy. cbn [map nth].
    rewrite rrho_entry_factor, (Rmult_comm _ GAS_CONSTANT).
    apply Rmult_lt_compat_l; [exact HG|].
    apply freerot_below_rrho; [lra|].
    destruct Hf as [Hf0 Hf4]. split; [exact Hf0|].
    eapply Rlt_le_trans; [exact Hf4|]. lra. }
  split; [exact Htru|]. split; [rewrite Htru; lra|].
  assert (Hd : 0 < nth 0 (calc_damp freqs 100) 0 < 1).
  { unfold freqs. rewrite calc_damp_nth by (simpl; lia).
    apply damp_value_bounds; simpl; lra. }
  assert (Hg : nth 0 grimme 0
               = nth 0 Svib_rrho 0 * nth 0 (calc_damp freqs 100) 0
                 + (1 - nth 0 (calc_damp freqs 100) 0)
                   * nth 0 Svib_free_rot 0).
  { unfold grimme, vib_entropies, freqs. cbn [fst].
    rewrite vib_entropy_loop_grimme. cbn [map seq List.length].
    reflexivity. }
  rewrite Hg. nra.
Qed.

(** ** The single-point correction *)

Lemma sp_correction_tuple (enthalpy0 scf : R) (items : list pyval) :
  sp_correction enthalpy0 scf (Some (PyTuple items)) = enthalpy0.
Proof. reflexivity. Qed.

(** Whatever [sp_energy] returns is a tuple, so the addition of line 720
    raises [TypeError] and the enthalpy keeps the energy of the frequency
    job: a run with a single-point file has the thermal attributes of the
    run without it. *)
Lemma calc_bbe_ignores_single_point
    (fs : filesystem) (name ext suffix : string) (s : scan) (QH : string)
    (FREQ_CUTOFF temperature conc freq_scale_factor : R) (solv : string)
    (found : sp_scan) :
  String.eqb suffix "link" = false ->
  fs (name ++ "_" ++ suffix ++ ext)%string = Some found ->
  forall r0,
    calc_bbe fs name ext s QH FREQ_CUTOFF temperature conc freq_scale_factor
      solv SpcFalse = Ok r0 ->
    exists r,
      calc_bbe fs name ext s QH FREQ_CUTOFF temperature conc
        freq_scale_factor solv (SpcStr suffix) = Ok r
      /\ enthalpy r = enthalpy r0
      /\ gibbs_free_energy r = gibbs_free_energy r0
      /\ qh_gibbs_free_energy r = qh_gibbs_free_energy r0.
Proof.
  intros Hlink Hfound r0 H0.
  unfold calc_bbe, read_sp_energy, sp_energy in *.
  rewrite Hlink, Hfound. cbn [bind] in *.
  destruct (zero_point_corr s) as [zp|];
    [|injection H0 as <-; eexists; split; [reflexivity|]; now repeat split].
  destruct (rotemp_truthy (rotemp s)) as [rot|];
    [|injection H0 as <-; eexists; split; [reflexivity|]; now repeat split].
  destruct (molecular_mass s) as [mass|]; cbn [getlocal bind] in *;
    [|discriminate].
  destruct (mult s) as [m|]; cbn [getlocal bind] in *; [|discriminate].
  destruct (if (0 <? List.length (frequency_wn s))%nat then _ else _)
    as [[[[[ZPE Urot] Uvib] Srot] h_Svib] qh_Svib].
  destruct (scf_energy s) as [scf|]; cbn [getattr bind] in *; [|discriminate].
  injection H0 as <-. eexists. split; [reflexivity|].
  cbn [enthalpy gibbs_free_energy qh_gibbs_free_energy].
  rewrite sp_correction_tuple. now repeat split.
Qed.

(** C1 (the code departs from the claim).  A frequency job with energy
    -76.4 and a single-point file with energy -76.5: the object holds the
    5-tuple returned by [sp_energy], and its enthalpy is the energy of the
    frequency job plus the thermal terms, not the single-point energy plus
    the thermal terms. *)
Theorem single_point_energy_not_applied :
  exists r thermal,
    calc_bbe sample_files "water" ".log" sample_scan "grimme" 100.0 298.15
      (atmos / GAS_CONSTANT / 298.15) 1.0 "none" (SpcStr "SP") = Ok r
    /\ bbe_sp_energy r
       = Some (PyTuple [PyFloat (-76.5); PyStr "Gaussian";
                        PyStr "Gaussian 16, Revision A.03";
                        PyStr "gas phase"; PyStr "water_SP.log"])
    /\ thermal
       = calc_translational_energy 298.15
         + calc_rotational_energy 0.02 2 298.15 0
         + calc_vibrational_energy [1600; 3800; 3900] 298.15 1.0
         + GAS_CONSTANT * 298.15
    /\ enthalpy r = Some (-76.4 + thermal / j_to_au)
    /\ enthalpy r <> Some (-76.5 + thermal / j_to_au).
Proof.
  eexists. eexists.
  split; [reflexivity|]. split; [reflexivity|]. split; [reflexivity|].
  split; [reflexivity|].
  cbn [enthalpy].
  intros H. injection H as H.
  match type of H with
  | _ + ?t = _ + ?t => generalize dependent t
  end.
  intros t H. lra.
Qed.

(** ** The two-temperature case *)

Lemma calc_rotational_entropy_two (zpe : R) (linear symmno : Z)
    (b c temperature : R) :
  calc_rotational_entropy zpe linear symmno [b; c] temperature = 0.0.
Proof.
  unfold calc_rotational_entropy. cbn [is_zero_rotemp orb].
  destruct (Req_dec_T zpe 0.0); reflexivity.
Qed.

Lemma prefix_last_char (p s : string) (a b : ascii) :
  a <> b ->
  String.prefix (p ++ String a EmptyString) s = true ->
  String.prefix (p ++ String b EmptyString) s = false.
Proof.
  intros Hab. revert s. induction p as [|c p IH]; intros s H.
  - destruct s as [|d s]; [discriminate H|].
    cbn [String.prefix String.append] in *.
    destruct (ascii_dec a d) as [->|Had]; [|discriminate H].
    destruct (ascii_dec b d) as [->|Hbd]; [congruence|reflexivity].
  - destruct s as [|d s]; [discriminate H|].
    cbn [String.prefix String.append] in *.
    destruct (ascii_dec c d); [now apply IH|reflexivity].
Qed.

Lemma find_nonzero_of_first_char (s sub : string) (a b : ascii) (s' sub' : string) :
  s = String a s' -> sub = String b sub' -> a <> b ->
  Z.eqb (find s sub) 0 = false.
Proof.
  intros -> -> Hab. unfold find.
  destruct (String.index 0 (String b sub') (String a s')) as [n|] eqn:Hi;
    [|reflexivity].
  destruct n as [|n]; [|reflexivity].
  apply String.index_correct1 in Hi. cbn in Hi. congruence.
Qed.

Lemma startswith_rotational_temperatures (stripped : string) :
  startswith stripped "Rotational temperatures" = true ->
  startswith stripped "Rotational temperature " = false
  /\ Z.eqb (find stripped "********") 0 = false.
Proof.
  intros H. split.
  - unfold startswith in *.
    apply (prefix_last_char "Rotational temperature" stripped "s" " ");
      [discriminate|exact H].
  - destruct stripped as [|a s']; [discriminate|].
    unfold startswith in H. cbn [String.prefix] in H.
    destruct (ascii_dec "R" a) as [<-|]; [|discriminate H].
    eapply find_nonzero_of_first_char; try reflexivity. discriminate.
Qed.

(** A record with its zero-point correction, a non-empty [rotemp], mass,
    multiplicity and energy is evaluated in full. *)
Lemma calc_bbe_complete
    (fs : filesystem) (name ext : string) (s : scan) (QH : string)
    (FREQ_CUTOFF temperature conc freq_scale_factor : R) (solv : string)
    (spc : spc_option) (sp : option pyval) (zp mass m scf : R)
    (rot : list R) :
  read_sp_energy fs name ext spc = Ok sp ->
  zero_point_corr s = Some zp -> rotemp_truthy (rotemp s) = Some rot ->
  molecular_mass s = Some mass -> mult s = Some m ->
  scf_energy s = Some scf ->
  exists r,
    calc_bbe fs name ext s QH FREQ_CUTOFF temperature conc
      freq_scale_factor solv spc = Ok r
    /\ bbe_linear_warning r = linear_warning s
    /\ enthalpy r <> None /\ entropy r <> None /\ qh_entropy r <> None
    /\ gibbs_free_energy r <> None /\ qh_gibbs_free_energy r <> None.
Proof.
  intros Hsp Hzp Hrot Hmass Hm Hscf.
  unfold calc_bbe. rewrite Hsp, Hzp, Hrot, Hmass, Hm, Hscf.
  cbn [getlocal getattr bind].
  destruct (if (0 <? List.length (frequency_wn s))%nat then _ else _)
    as [[[[[ZPE Urot] Uvib] Srot] h_Svib] qh_Svib].
  eexists. split; [reflexivity|].
  cbn [bbe_linear_warning enthalpy entropy qh_entropy gibbs_free_energy
         qh_gibbs_free_energy].
  split; [reflexivity|]. repeat split; discriminate.
Qed.

(** C4 (as the code has it).  A line [Rotational temperatures ...] whose
    first value is not a number while the next two are: the scan stores
    the two values and the warning, and the evaluation of a record that
    has its zero-point correction, mass, multiplicity and energy returns
    an object carrying the warning in which enthalpy, both entropies and
    both Gibbs energies are assigned; the rotational entropy entering
    them is 0. *)
Theorem two_rotational_temperatures_full_result :
  forall (py_float : string -> option R) (line : string) (s0 : scan)
         (b c zp mass m scf : R) (fs : filesystem) (name ext QH : string)
         (FREQ_CUTOFF temperature conc freq_scale_factor : R)
         (solv : string) (spc : spc_option) (sp : option pyval),
    startswith (strip line) "Rotational temperatures" = true ->
    float_at py_float (split (strip line)) 3 = Raise ValueError ->
    float_at py_float (split (strip line)) 4 = Ok b ->
    float_at py_float (split (strip line)) 5 = Ok c ->
    zero_point_corr s0 = Some zp -> molecular_mass s0 = Some mass ->
    mult s0 = Some m -> scf_energy s0 = Some scf ->
    read_sp_energy fs name ext spc = Ok sp ->
    exists s1 r,
      read_rotational_temperatures py_float line s0 = Ok s1
      /\ rotemp s1 = RotList [b; c]
      /\ linear_warning s1 = linear_warning_message
      /\ calc_bbe fs name ext s1 QH FREQ_CUTOFF temperature conc
           freq_scale_factor solv spc = Ok r
      /\ bbe_linear_warning r = linear_warning_message
      /\ enthalpy r <> None /\ entropy r <> None /\ qh_entropy r <> None
      /\ gibbs_free_energy r <> None /\ qh_gibbs_free_energy r <> None
      /\ calc_rotational_entropy zp (linear_mol s1) (symmno s1) [b; c]
           temperature = 0.0.
Proof.
  intros py_float line s0 b c zp mass m scf fs name ext QH cutoff T conc
    scale solv spc sp Hstart H3 H4 H5 Hzp Hmass Hm Hscf Hsp.
  destruct (startswith_rotational_temperatures _ Hstart) as [Hsing Hfind].
  set (s1 := set_rotemp
               (set_linear_warning (set_rotemp s0 RotNone)
                  linear_warning_message)
               (RotList [b; c])).
  destruct (calc_bbe_complete fs name ext s1 QH cutoff T conc scale solv
              spc sp zp mass m scf [b; c] Hsp Hzp eq_refl Hmass Hm Hscf)
    as (r & Hr & Hw & Hfields).
  exists s1, r. split.
  - unfold read_rotational_temperatures.
    rewrite Hsing, Hstart, H3, H4, H5, Hfind. cbn [bind negb]. reflexivity.
  - split; [reflexivity|]. split; [reflexivity|]. split; [exact Hr|].
    split; [exact Hw|].
    destruct Hfields as (H1 & H2 & H6 & H7 & H8).
    repeat (split; [assumption|]).
    apply calc_rotational_entropy_two.
Qed.

Lemma two_rotational_temperatures_full_result_witness :
  startswith (strip sample_rotational_line) "Rotational temperatures" = true
  /\ exists s1 r,
       read_rotational_temperatures sample_float sample_rotational_line
         sample_scan = Ok s1
       /\ rotemp s1 = RotList [0.5; 0.5]
       /\ calc_bbe sample_files "water" ".log" s1 "grimme" 100.0 298.15
            (atmos / GAS_CONSTANT / 298.15) 1.0 "none" SpcFalse = Ok r
       /\ bbe_linear_warning r = linear_warning_message
       /\ entropy r <> None.
Proof.
  assert (Hstart : startswith (strip sample_rotational_line)
                     "Rotational temperatures" = true) by reflexivity.
  split; [exact Hstart|].
  destruct (two_rotational_temperatures_full_result sample_float
              sample_rotational_line sample_scan 0.5 0.5 0.02 18.01 1
              (-76.4) sample_files "water" ".log" "grimme" 100.0 298.15
              (atmos / GAS_CONSTANT / 298.15) 1.0 "none" SpcFalse None
              Hstart eq_refl eq_refl eq_refl eq_refl eq_refl eq_refl
              eq_refl eq_refl)
    as (s1 & r & Hs1 & Hrot & _ & Hr & Hw & _ & HS & _).
  exists s1, r. repeat split; assumption.
Defined.

(** C4 (the claim as it stands fails).  On the sample line the result is
    not partial: the warning is set and enthalpy, entropy and Gibbs
    energy are all assigned. *)
Lemma malformed_rotational_line_result_not_partial :
  exists s1 r,
    read_rotational_temperatures sample_float sample_rotational_line
      sample_scan = Ok s1
    /\ calc_bbe sample_files "water" ".log" s1 "grimme" 100.0 298.15
         (atmos / GAS_CONSTANT / 298.15) 1.0 "none" SpcFalse = Ok r
    /\ bbe_linear_warning r = linear_warning_message
    /\ ~ (enthalpy r = None /\ entropy r = None
          /\ gibbs_free_energy r = None)
    /\ enthalpy r <> None /\ entropy r <> None
    /\ gibbs_free_energy r <> None.
Proof.
  eexists. eexists.
  split; [reflexivity|]. split; [reflexivity|]. split; [reflexivity|].
  cbn [enthalpy entropy gibbs_free_energy].
  split; [intros (H & _); discriminate H|].
  repeat split; discriminate.
Qed.

(** ** Sums over lists *)

Lemma fold_left_Rplus_init (l : list R) (a : R) :
  fold_left Rplus l a = a + py_sum l.
Proof.
  unfold py_sum. revert a. induction l as [|x l IH]; intros a; simpl.
  - lra.
  - rewrite IH, (IH (0 + x)). lra.
Qed.

Lemma py_sum_nil : py_sum [] = 0.
Proof. reflexivity. Qed.

Lemma py_sum_map_scale {A : Type} (f : A -> R) (k : R) (l : list A) :
  py_sum (map (fun x => f x / k) l) = py_sum (map f l) / k.
Proof.
  induction l as [|x l IH]; simpl map.
  - unfold py_sum; simpl. unfold Rdiv. ring.
  - rewrite !py_sum_cons, IH. unfold Rdiv. ring.
Qed.

Lemma py_sum_map_nonpos {A : Type} (f : A -> R) (l : list A) :
  (forall x, In x l -> f x <= 0) -> py_sum (map f l) <= 0.
Proof.
  induction l as [|x l IH]; intros H; simpl map.
  - unfold py_sum; simpl. lra.
  - rewrite py_sum_cons.
    assert (f x <= 0) by (apply H; now left).
    assert (py_sum (map f l) <= 0) by (apply IH; intros y Hy; apply H; now right).
    lra.
Qed.

Lemma py_sum_map_pos {A : Type} (f : A -> R) (l : list A) :
  l <> [] -> (forall x, 0 < f x) -> 0 < py_sum (map f l).
Proof.
  intros Hne Hpos. destruct l as [|x l]; [congruence|]. clear Hne.
  revert x. induction l as [|y l IH]; intros x; simpl map.
  - rewrite py_sum_cons. unfold py_sum at 1; simpl. specialize (Hpos x). lra.
  - rewrite py_sum_cons. specialize (IH y). specialize (Hpos x).
    simpl map in IH. lra.
Qed.

(** Chebyshev's sum inequality for a weight that decreases with the
    value: the double sum of [(w a - w b) (a - b)] is not positive. *)
Lemma cross_sum_inner (w : R -> R) (a : R) (l : list R) :
  py_sum (map (fun b => (w a - w b) * (a - b)) l)
  = INR (List.length l) * (a * w a) - w a * py_sum l
    - a * py_sum (map w l) + py_sum (map (fun b => b * w b) l).
Proof.
  induction l as [|b l IH].
  - unfold py_sum; simpl. ring.
  - simpl map. rewrite !py_sum_cons, IH.
    change (List.length (b :: l)) with (S (List.length l)).
    rewrite S_INR. ring.
Qed.

Lemma cross_sum_outer (w : R -> R) (l1 l2 : list R) :
  py_sum (map (fun a => py_sum (map (fun b => (w a - w b) * (a - b)) l2)) l1)
  = INR (List.length l2) * py_sum (map (fun a => a * w a) l1)
    - py_sum (map w l1) * py_sum l2
    - py_sum l1 * py_sum (map w l2)
    + INR (List.length l1) * py_sum (map (fun b => b * w b) l2).
Proof.
  induction l1 as [|a l1 IH].
  - simpl map. simpl List.length. rewrite !py_sum_nil. simpl INR. ring.
  - simpl map. rewrite !py_sum_cons, IH, cross_sum_inner.
    change (List.length (a :: l1)) with (S (List.length l1)).
    rewrite S_INR. ring.
Qed.

Lemma chebyshev_decreasing (w : R -> R) (l : list R) :
  (forall a b, a <= b -> w b <= w a) ->
  INR (List.length l) * py_sum (map (fun a => a * w a) l)
  <= py_sum (map w l) * py_sum l.
Proof.
  intros Hw.
  pose proof (cross_sum_outer w l l) as Heq.
  assert (Hle : py_sum (map (fun a =>
                  py_sum (map (fun b => (w a - w b) * (a - b)) l)) l) <= 0).
  { apply py_sum_map_nonpos. intros a _.
    apply py_sum_map_nonpos. intros b _.
    destruct (Rle_dec a b) as [Hab|Hab].
    - pose proof (Hw a b Hab). nra.
    - assert (Hba : b <= a) by lra. pose proof (Hw b a Hba). nra. }
  lra.
Qed.

Lemma boltz_fac_pos (g g_min temperature : R) :
  0 < boltz_fac_of g g_min temperature.
Proof. unfold boltz_fac_of. apply exp_pos. Qed.

Lemma boltz_fac_decreasing (g_min temperature a b : R) :
  0 < temperature -> a <= b ->
  boltz_fac_of b g_min temperature <= boltz_fac_of a g_min temperature.
Proof.
  intros HT Hab. unfold boltz_fac_of.
  destruct constants_positive as (HG & _ & _ & _ & _ & Hj).
  assert (Hk : 0 < j_to_au / GAS_CONSTANT / temperature) by prod_pos.
  assert (Harg : - (b - g_min) * j_to_au / GAS_CONSTANT / temperature
                 <= - (a - g_min) * j_to_au / GAS_CONSTANT / temperature).
  { replace (- (b - g_min) * j_to_au / GAS_CONSTANT / temperature)
      with (- (b - g_min) * (j_to_au / GAS_CONSTANT / temperature))
      by (unfold Rdiv; ring).
    replace (- (a - g_min) * j_to_au / GAS_CONSTANT / temperature)
      with (- (a - g_min) * (j_to_au / GAS_CONSTANT / temperature))
      by (unfold Rdiv; ring).
    nra. }
  destruct Harg as [Hlt|Heq].
  - left. now apply exp_increasing.
  - right. now rewrite Heq.
Qed.

(** ** The Boltzmann average over a conformer group *)

Section Ensemble.

Variable thermo_data : list (string * bbe).
Variable temperature : R.

(** A conformer whose object is in the table and is complete. *)
Let available (conformer : string) : Prop :=
  exists b, lookup thermo_data conformer = Some b /\ complete b.

Lemma qh_gibbs_of_available (conformer : string) :
  available conformer ->
  qh_gibbs_of thermo_data conformer
  = Ok (qh_gibbs_value thermo_data conformer).
Proof.
  intros (b & Hb & Hc). unfold qh_gibbs_of, qh_gibbs_value.
  rewrite Hb. cbn [getitem bind].
  destruct Hc as (_ & _ & _ & _ & _ & _ & _ & Hq).
  destruct (qh_gibbs_free_energy b); [reflexivity|congruence].
Qed.

Lemma find_g_min_available (conformers : list string) :
  Forall available conformers ->
  exists g_min, find_g_min thermo_data conformers = Ok g_min.
Proof.
  unfold find_g_min. generalize float_max.
  induction conformers as [|c cs IH]; intros g0 Hall; cbn [fold_result].
  - now exists g0.
  - inversion Hall as [|? ? Hc Hcs]; subst.
    rewrite (qh_gibbs_of_available c Hc). cbn [bind]. now apply IH.
Qed.

Lemma find_boltz_sum_available (g_min : R) (conformers : list string) :
  Forall available conformers ->
  find_boltz_sum thermo_data temperature g_min conformers
  = Ok (0.0 + py_sum (map (fun g => boltz_fac_of g g_min temperature)
                        (map (qh_gibbs_value thermo_data) conformers))).
Proof.
  unfold find_boltz_sum. generalize 0.0.
  induction conformers as [|c cs IH]; intros s0 Hall; cbn [fold_result map].
  - rewrite py_sum_nil. f_equal. lra.
  - inversion Hall as [|? ? Hc Hcs]; subst.
    rewrite (qh_gibbs_of_available c Hc). cbn [bind].
    rewrite (IH _ Hcs), py_sum_cons. f_equal. lra.
Qed.

Lemma add_conformer_available (g_min boltz_sum : R) (acc : abs_values)
    (conformer : string) (b : bbe) :
  lookup thermo_data conformer = Some b -> complete b ->
  exists acc',
    add_conformer thermo_data temperature g_min boltz_sum acc conformer
    = Ok acc'
    /\ qhg_abs acc'
       = qhg_abs acc
         + qh_gibbs_value thermo_data conformer
           * boltz_fac_of (qh_gibbs_value thermo_data conformer) g_min
               temperature / boltz_sum
    /\ (gibbs_identity temperature b -> abs_identity temperature acc ->
        abs_identity temperature acc').
Proof.
  intros Hb Hc.
  assert (Hav : available conformer) by (exists b; split; assumption).
  unfold add_conformer. rewrite (qh_gibbs_of_available _ Hav).
  unfold qh_gibbs_value. rewrite Hb. cbn [bind getitem].
  destruct Hc as (Hsp & Hscf & Hz & Hh & Hs & Hqs & Hg & Hqg).
  rewrite Hsp.
  destruct (bbe_scf_energy b) as [scf|]; [|congruence].
  destruct (zpe b) as [z|]; [|congruence].
  destruct (enthalpy b) as [h|]; [|congruence].
  destruct (entropy b) as [s|] eqn:Es; [|congruence].
  destruct (gibbs_free_energy b) as [g|] eqn:Eg; [|congruence].
  destruct (qh_entropy b) as [qs|] eqn:Eqs; [|congruence].
  destruct (qh_gibbs_free_energy b) as [qg|] eqn:Eqg; [|congruence].
  cbn [getattr bind value_of].
  eexists. split; [reflexivity|]. cbn [qhg_abs]. split; [reflexivity|].
  intros Hid Hacc. unfold abs_identity in *.
  cbn [g_abs qhg_abs qhts_abs ts_abs].
  specialize (Hid g qg s qs Eg Eqg Es Eqs).
  replace g with (qg + temperature * (qs - s)) by lra.
  replace (g_abs acc)
    with (qhg_abs acc + temperature * (qhts_abs acc - ts_abs acc)) by lra.
  unfold Rdiv. ring.
Qed.

Lemma add_conformer_fold (g_min boltz_sum : R) (conformers : list string) :
  Forall available conformers ->
  forall acc,
  exists acc',
    fold_result (add_conformer thermo_data temperature g_min boltz_sum)
      conformers acc = Ok acc'
    /\ qhg_abs acc'
       = qhg_abs acc
         + py_sum (map (fun g => g * boltz_fac_of g g_min temperature
                                 / boltz_sum)
                     (map (qh_gibbs_value thermo_data) conformers))
    /\ (Forall (fun c => forall b, lookup thermo_data c = Some b ->
                                   gibbs_identity temperature b)
          conformers ->
        abs_identity temperature acc -> abs_identity temperature acc').
Proof.
  induction conformers as [|c cs IH]; intros Hall acc; cbn [fold_result map].
  - exists acc. split; [reflexivity|]. rewrite py_sum_nil.
    split; [lra|]. intros _ H; exact H.
  - inversion Hall as [|? ? Hc Hcs]; subst.
    destruct Hc as (b & Hb & Hcomp).
    destruct (add_conformer_available g_min boltz_sum acc c b Hb Hcomp)
      as (acc1 & H1 & Hq1 & Hid1).
    rewrite H1. cbn [bind].
    destruct (IH Hcs acc1) as (acc' & H' & Hq' & Hid').
    exists acc'. split; [exact H'|]. split.
    + rewrite Hq', Hq1, py_sum_cons. lra.
    + intros Hids Hacc. inversion Hids as [|? ? Hidc Hidcs]; subst.
      apply Hid'; [exact Hidcs|]. apply Hid1; [|exact Hacc].
      now apply Hidc.
Qed.

End Ensemble.

(** C7.  For a non-empty group of complete conformers and a positive
    temperature the three loops of the Boltzmann branch return; the
    normalised weights [boltz_fac / boltz_sum] add up to 1, the
    accumulated [qhg_abs] is the average of the quasi-harmonic Gibbs
    energies under these weights, and it does not exceed their arithmetic
    mean. *)
Theorem boltzmann_weights_normalised_average_below_mean :
  forall (thermo_data : list (string * bbe)) (temperature : R)
         (conformers : list string),
    conformers <> [] -> 0 < temperature ->
    Forall (fun c => exists b, lookup thermo_data c = Some b /\ complete b)
      conformers ->
    exists g_min boltz_sum acc,
      find_g_min thermo_data conformers = Ok g_min
      /\ find_boltz_sum thermo_data temperature g_min conformers
         = Ok boltz_sum
      /\ add_conformers thermo_data temperature conformers abs_zero = Ok acc
      /\ let gs := map (qh_gibbs_value thermo_data) conformers in
         let weight g := boltz_fac_of g g_min temperature / boltz_sum in
         py_sum (map weight gs) = 1
         /\ qhg_abs acc = py_sum (map (fun g => g * weight g) gs)
         /\ qhg_abs acc <= py_sum gs / INR (List.length gs).
Proof.
  intros td T confs Hne HT Hall.
  destruct (find_g_min_available td confs Hall) as (g_min & Hmin).
  pose proof (find_boltz_sum_available td T g_min confs Hall) as Hsum.
  set (gs := map (qh_gibbs_value td) confs) in *.
  set (total := py_sum (map (fun g => boltz_fac_of g g_min T) gs)) in *.
  destruct (add_conformer_fold td T g_min (0.0 + total) confs Hall abs_zero)
    as (acc & Hfold & Hq & _).
  fold gs in Hq.
  assert (Hgs : gs <> []).
  { unfold gs. destruct confs; [congruence|discriminate]. }
  assert (Htot : 0 < total).
  { apply py_sum_map_pos; [exact Hgs|]. intros g. apply boltz_fac_pos. }
  assert (Hn : 0 < INR (List.length gs)).
  { destruct gs; [congruence|]. apply lt_0_INR. simpl. lia. }
  exists g_min, (0.0 + total), acc.
  split; [exact Hmin|]. split; [exact Hsum|]. split.
  { unfold add_conformers. rewrite Hmin. cbn [bind]. rewrite Hsum.
    cbn [bind]. exact Hfold. }
  cbv zeta.
  replace (0.0 + total) with total in * by lra.
  split; [|split].
  - rewrite py_sum_map_scale. fold total. field. lra.
  - rewrite Hq. cbn [abs_zero qhg_abs].
    rewrite (map_ext (fun g => g * (boltz_fac_of g g_min T / total))
                     (fun g => g * boltz_fac_of g g_min T / total))
      by (intros g; unfold Rdiv; ring).
    lra.
  - rewrite Hq. cbn [abs_zero qhg_abs].
    rewrite (py_sum_map_scale (fun g => g * boltz_fac_of g g_min T)).
    pose proof (chebyshev_decreasing (fun g => boltz_fac_of g g_min T) gs
                  (fun a b => boltz_fac_decreasing g_min T a b HT)) as Hch.
    fold total in Hch.
    set (num := py_sum (map (fun g => g * boltz_fac_of g g_min T) gs)) in *.
    apply (Rmult_le_reg_r (total * INR (List.length gs))); [nra|].
    assert (H00 : 0.0 = 0) by lra. rewrite H00.
    replace ((0 + num / total) * (total * INR (List.length gs)))
      with (INR (List.length gs) * num) by (field; lra).
    replace (py_sum gs / INR (List.length gs)
             * (total * INR (List.length gs)))
      with (total * py_sum gs) by (field; lra).
    exact Hch.
Qed.

Lemma sample_conformers_available :
  Forall (fun c => exists b, lookup sample_thermo_data c = Some b
                             /\ complete b
                             /\ gibbs_identity 298.15 b)
    ["conf1.log"; "conf2.log"]%string.
Proof.
  repeat constructor; eexists; (split; [reflexivity|]); split;
    try (unfold complete; cbn; repeat split; (reflexivity || discriminate));
    intros G qhG S qhS HG HqhG HS HqhS; cbn in HG, HqhG, HS, HqhS;
    injection HG as <-; injection HqhG as <-; injection HS as <-;
    injection HqhS as <-; lra.
Defined.

Lemma boltzmann_weights_normalised_average_below_mean_witness :
  exists g_min boltz_sum acc,
    find_g_min sample_thermo_data ["conf1.log"; "conf2.log"]%string
    = Ok g_min
    /\ add_conformers sample_thermo_data 298.15
         ["conf1.log"; "conf2.log"]%string abs_zero = Ok acc
    /\ py_sum (map (fun g => boltz_fac_of g g_min 298.15 / boltz_sum)
                 (map (qh_gibbs_value sample_thermo_data)
                    ["conf1.log"; "conf2.log"]%string)) = 1
    /\ qhg_abs acc
       <= py_sum (map (qh_gibbs_value sample_thermo_data)
                    ["conf1.log"; "conf2.log"]%string) / INR 2.
Proof.
  assert (Hne : ["conf1.log"; "conf2.log"]%string <> []) by discriminate.
  assert (HT : 0 < 298.15) by lra.
  assert (Hall : Forall (fun c => exists b,
                           lookup sample_thermo_data c = Some b /\ complete b)
                   ["conf1.log"; "conf2.log"]%string).
  { eapply Forall_impl; [|exact sample_conformers_available].
    intros c (b & Hb & Hc & _). exists b. split; assumption. }
  destruct (boltzmann_weights_normalised_average_below_mean
              sample_thermo_data 298.15 ["conf1.log"; "conf2.log"]%string
              Hne HT Hall)
    as (g_min & boltz_sum & acc & Hmin & _ & Hacc & Hw & _ & Hmean).
  exists g_min, boltz_sum, acc. repeat split; assumption.
Defined.

(** ** The gap between harmonic and quasi-harmonic Gibbs energy *)

Lemma calc_bbe_gibbs_identity
    (fs : filesystem) (name ext : string) (s : scan) (QH : string)
    (FREQ_CUTOFF temperature conc freq_scale_factor : R) (solv : string)
    (spc : spc_option) (r : bbe) :
  calc_bbe fs name ext s QH FREQ_CUTOFF temperature conc freq_scale_factor
    solv spc = Ok r ->
  gibbs_identity temperature r.
Proof.
  intros H. unfold calc_bbe in H.
  destruct (read_sp_energy fs name ext spc) as [sp|e]; cbn [bind] in H;
    [|discriminate].
  destruct (zero_point_corr s) as [zp|];
    [|injection H as <-; intros G qhG S qhS HG; discriminate HG].
  destruct (rotemp_truthy (rotemp s)) as [rot|];
    [|injection H as <-; intros G qhG S qhS HG; discriminate HG].
  destruct (molecular_mass s) as [mass|]; cbn [getlocal bind] in H;
    [|discriminate].
  destruct (mult s) as [m|]; cbn [getlocal bind] in H; [|discriminate].
  destruct (if (0 <? List.length (frequency_wn s))%nat then _ else _)
    as [[[[[ZPE Urot] Uvib] Srot] h_Svib] qh_Svib].
  destruct (scf_energy s) as [scf|]; cbn [getattr bind] in H; [|discriminate].
  injection H as <-.
  intros G qhG S qhS HG HqhG HS HqhS.
  cbn [gibbs_free_energy qh_gibbs_free_energy entropy qh_entropy]
    in HG, HqhG, HS, HqhS.
  injection HG as <-. injection HqhG as <-.
  injection HS as <-. injection HqhS as <-. ring.
Qed.

(** C10.  The object built by [calc_bbe] satisfies
    [G - qh-G = T (qh-S - S)]; for a group of complete conformers that
    satisfy it at one temperature, the Boltzmann branch returns totals
    that satisfy it as well. *)
Theorem gibbs_gap_identity_preserved :
  (forall fs name ext s QH FREQ_CUTOFF temperature conc freq_scale_factor
          solv spc r,
      calc_bbe fs name ext s QH FREQ_CUTOFF temperature conc
        freq_scale_factor solv spc = Ok r ->
      gibbs_identity temperature r)
  /\ (forall thermo_data temperature conformers,
         Forall (fun c => exists b, lookup thermo_data c = Some b
                                    /\ complete b
                                    /\ gibbs_identity temperature b)
           conformers ->
         exists acc,
           add_conformers thermo_data temperature conformers abs_zero
           = Ok acc
           /\ abs_identity temperature acc).
Proof.
  split.
  - intros. eapply calc_bbe_gibbs_identity; eassumption.
  - intros td T confs Hall.
    assert (Hav : Forall (fun c => exists b,
                            lookup td c = Some b /\ complete b) confs).
    { eapply Forall_impl; [|exact Hall].
      intros c (b & Hb & Hc & _). exists b. split; assumption. }
    assert (Hids : Forall (fun c => forall b, lookup td c = Some b ->
                                              gibbs_identity T b) confs).
    { eapply Forall_impl; [|exact Hall].
      intros c (b & Hb & _ & Hid) b' Hb'.
      rewrite Hb in Hb'. injection Hb' as <-. exact Hid. }
    destruct (find_g_min_available td confs Hav) as (g_min & Hmin).
    pose proof (find_boltz_sum_available td T g_min confs Hav) as Hsum.
    set (boltz_sum := 0.0 + _) in Hsum.
    destruct (add_conformer_fold td T g_min boltz_sum confs Hav abs_zero)
      as (acc & Hfold & _ & Hid).
    exists acc. split.
    + unfold add_conformers. rewrite Hmin. cbn [bind]. rewrite Hsum.
      cbn [bind]. exact Hfold.
    + apply Hid; [exact Hids|].
      unfold abs_identity, abs_zero. cbn. lra.
Qed.

Lemma gibbs_gap_identity_preserved_witness :
  (exists r,
      calc_bbe sample_files "water" ".log" sample_scan "grimme" 100.0 298.15
        (atmos / GAS_CONSTANT / 298.15) 1.0 "none" SpcFalse = Ok r
      /\ gibbs_identity 298.15 r)
  /\ (exists acc,
         add_conformers sample_thermo_data 298.15
           ["conf1.log"; "conf2.log"]%string abs_zero = Ok acc
         /\ abs_identity 298.15 acc).
Proof.
  destruct gibbs_gap_identity_preserved as [Hone Hgroup].
  split.
  - eexists. split; [reflexivity|].
    eapply (Hone sample_files "water"%string ".log"%string sample_scan
              "grimme"%string 100.0 298.15 (atmos / GAS_CONSTANT / 298.15)
              1.0 "none"%string SpcFalse).
    reflexivity.
  - exact (Hgroup sample_thermo_data 298.15
             ["conf1.log"; "conf2.log"]%string sample_conformers_available).
Defined.

(** ** Pathway points that name an undefined structure *)

Section MissingStructure.

Variable file : string.
Variable thermo_data : list (string * bbe).
Variable species : list (string * species_entry).
Variable temperature : R.

Lemma add_structures_ok (structures : list string) (last : string)
    (acc : abs_values) (last' : string) (acc' : abs_values) :
  add_structures thermo_data species temperature structures last acc
  = (last', Ok acc') ->
  forall structure, In structure structures ->
                    lookup species structure <> None.
Proof.
  revert last acc. induction structures as [|s rest IH];
    intros last acc H structure Hin; [destruct Hin|].
  cbn [add_structures] in H.
  destruct (add_structure thermo_data species temperature acc s)
    as [acc1|e] eqn:Hs; [|discriminate H].
  destruct Hin as [<-|Hin].
  - unfold add_structure in Hs. intros Hnone. rewrite Hnone in Hs.
    discriminate Hs.
  - eapply IH; eassumption.
Qed.

Lemma add_structures_missing (pre post : list string)
    (structure last last' : string) (acc acc' : abs_values) :
  add_structures thermo_data species temperature pre last acc
  = (last', Ok acc') ->
  lookup species structure = None ->
  add_structures thermo_data species temperature
    (pre ++ structure :: post) last acc
  = (structure, Raise KeyError).
Proof.
  revert last acc. induction pre as [|s pre IH]; intros last acc Hpre Hnone.
  - cbn [app add_structures]. unfold add_structure. rewrite Hnone.
    reflexivity.
  - cbn [app add_structures] in *.
    destruct (add_structure thermo_data species temperature acc s)
      as [acc1|e]; [|discriminate Hpre].
    now apply IH.
Qed.

Lemma pes_point_ok (log log' : list string) (point : string)
    (row : pes_row) :
  pes_point file thermo_data species temperature log point = (log', Ok row) ->
  forall structure, In structure (point_structures point) ->
                    lookup species structure <> None.
Proof.
  unfold pes_point. intros H.
  destruct (String.eqb point ""); [discriminate H|].
  destruct (add_structures thermo_data species temperature
              (point_structures point) "" abs_zero) as [last [acc|e]] eqn:Hs.
  - eapply add_structures_ok; eassumption.
  - destruct e; discriminate H.
Qed.

Lemma pes_points_ok (points : list string) (log log' : list string)
    (rows rows' : list pes_row) :
  pes_points file thermo_data species temperature log points rows
  = (log', Ok rows') ->
  forall point structure,
    In point points -> In structure (point_structures point) ->
    lookup species structure <> None.
Proof.
  revert log rows. induction points as [|p rest IH];
    intros log rows H point structure Hin Hs; [destruct Hin|].
  cbn [pes_points] in H.
  destruct (pes_point file thermo_data species temperature log p)
    as [log1 [row|e]] eqn:Hp; [|discriminate H].
  destruct Hin as [<-|Hin].
  - eapply pes_point_ok; eassumption.
  - eapply IH; eassumption.
Qed.

Lemma pes_pathways_ok (pathways : list (string * list string))
    (log log' : list string) (done done' : list (string * list pes_row)) :
  pes_pathways file thermo_data species temperature log pathways done
  = (log', Ok done') ->
  forall pathway points point structure,
    In (pathway, points) pathways -> In point points ->
    In structure (point_structures point) ->
    lookup species structure <> None.
Proof.
  revert log done. induction pathways as [|[pw pts] rest IH];
    intros log done H pathway points point structure Hin Hp Hs;
    [destruct Hin|].
  cbn [pes_pathways] in H.
  destruct (pes_points file thermo_data species temperature log pts [])
    as [log1 [rows|e]] eqn:Hpts; [|discriminate H].
  destruct Hin as [Heq|Hin].
  - injection Heq as <- <-. eapply pes_points_ok; eassumption.
  - eapply IH; eassumption.
Qed.

End MissingStructure.

(** C2 (as the code has it).  A pathway point that names a structure
    missing from the species dict ends the run.  At the point itself, once
    the structures before it have been added, [get_pes] writes the warning
    that names the structure and leaves through [sys.exit]; and a call of
    [get_pes] on a specification with such a point never returns a
    table. *)
Theorem missing_structure_terminates_get_pes :
  forall (file : string) (thermo_data : list (string * bbe))
         (species : list (string * species_entry)) (temperature : R),
    (forall log point pre structure post last acc,
        point <> ""%string ->
        point_structures point = pre ++ structure :: post ->
        add_structures thermo_data species temperature pre ""%string abs_zero
        = (last, Ok acc) ->
        lookup species structure = None ->
        pes_point file thermo_data species temperature log point
        = (log ++ ["   Warning! Structure " ++ structure
                   ++ " has not been defined correctly in " ++ file
                   ++ String "010" ""]%string,
           Raise (SystemExit ("   Please edit " ++ file ++ " and try again"
                              ++ String "010" "")%string)))
    /\ (forall fmt_dps fmt_units fmt_boltz zero pathways log
               pathway points point structure,
           In (pathway, points) pathways -> In point points ->
           In structure (point_structures point) ->
           lookup species structure = None ->
           exists log' e,
             get_pes file thermo_data species fmt_dps fmt_units fmt_boltz
               zero pathways temperature log = (log', Raise e)).
Proof.
  intros file td sp T. split.
  - intros log point pre structure post last acc Hne Hsplit Hpre Hnone.
    unfold pes_point.
    destruct (String.eqb point "") eqn:Heq;
      [apply String.eqb_eq in Heq; congruence|].
    rewrite Hsplit.
    rewrite (add_structures_missing td sp T pre post structure "" last
               abs_zero acc Hpre Hnone).
    reflexivity.
  - intros fmt_dps fmt_units fmt_boltz zero pathways log pathway points
      point structure Hpw Hpt Hs Hnone.
    unfold get_pes.
    destruct zero as [zero|]; [|now eexists; eexists].
    destruct (zero_loop td sp T file log (point_structures zero) abs_zero)
      as [log1 [zero_vals|e]]; [|now eexists; eexists].
    destruct (pes_pathways file td sp T log1 pathways [])
      as [log2 [done|e]] eqn:Hpaths; [|now eexists; eexists].
    exfalso.
    exact (pes_pathways_ok file td sp T pathways log1 log2 [] done Hpaths
             pathway points point structure Hpw Hpt Hs Hnone).
Qed.

Lemma missing_structure_terminates_get_pes_witness :
  pes_point "pes.txt" sample_thermo_data sample_species 298.15 [] "TS+B"
  = (["   Warning! Structure B has not been defined correctly in pes.txt"
      ++ String "010" ""]%string,
     Raise (SystemExit ("   Please edit pes.txt and try again"
                        ++ String "010" "")%string))
  /\ exists log' e,
       get_pes "pes.txt" sample_thermo_data sample_species 2 "kcal/mol"
         BoltzFalse (Some "TS"%string) sample_pathways 298.15 []
       = (log', Raise e).
Proof.
  destruct (missing_structure_terminates_get_pes "pes.txt"
              sample_thermo_data sample_species 298.15) as [Hpoint Hrun].
  split.
  - refine (Hpoint [] "TS+B"%string ["TS"%string] "B"%string [] _ _ _ _ _ _).
    + discriminate.
    + reflexivity.
    + reflexivity.
    + reflexivity.
  - apply (Hrun 2%Z "kcal/mol"%string BoltzFalse (Some "TS"%string)
             sample_pathways [] "Path"%string ["A"; "B"; "TS"]%string
             "B"%string "B"%string).
    + left. reflexivity.
    + right. left. reflexivity.
    + left. reflexivity.
    + reflexivity.
Defined.

(** C2 (the claim as it stands fails).  The pathway [A, B, TS] with [B]
    undefined: the point is not skipped, the call ends in [SystemExit]
    after the warning and the entry [TS] is never reached. *)
Lemma missing_structure_is_not_skipped :
  get_pes "pes.txt" sample_thermo_data sample_species 2 "kcal/mol"
    BoltzFalse (Some "TS"%string) sample_pathways 298.15 []
  = (["   Warning! Structure B has not been defined correctly in pes.txt"
      ++ String "010" ""]%string,
     Raise (SystemExit ("   Please edit pes.txt and try again"
                        ++ String "010" "")%string)).
Proof. reflexivity. Qed.

(** ** Selectivities and the ee row *)

Lemma two_point_shares (p q : R) :
  0 < p -> 0 < q ->
  -100 <= p / (0.0 + p + q) * 100.0 - q / (0.0 + p + q) * 100.0 <= 100.
Proof.
  intros Hp Hq.
  assert (H00 : 0.0 = 0) by lra. rewrite H00.
  assert (H100 : 100.0 = 100) by lra. rewrite H100.
  assert (Hs : 0 < 0 + p + q) by lra.
  assert (Hp1 : 0 < p / (0 + p + q) < 1).
  { split; [apply Rdiv_lt_0_compat; lra|].
    apply (Rmult_lt_reg_r (0 + p + q)); [lra|].
    unfold Rdiv. rewrite Rmult_assoc, Rinv_l by lra. lra. }
  assert (Hq1 : 0 < q / (0 + p + q) < 1).
  { split; [apply Rdiv_lt_0_compat; lra|].
    apply (Rmult_lt_reg_r (0 + p + q)); [lra|].
    unfold Rdiv. rewrite Rmult_assoc, Rinv_l by lra. lra. }
  lra.
Qed.

Lemma selectivity_of_eq (temperature e_sum h_sum g_sum qhg_sum : R)
    (relative : list R) :
  selectivity_of temperature (e_sum, h_sum, g_sum, qhg_sum) relative
  = [boltz_term temperature relative 1 / e_sum * 100.0;
     boltz_term temperature relative 3 / h_sum * 100.0;
     boltz_term temperature relative 6 / g_sum * 100.0;
     boltz_term temperature relative 7 / qhg_sum * 100.0].
Proof. reflexivity. Qed.

Lemma boltz_sums_two (temperature : R) (zero_vals : list R)
    (row1 row2 : pes_row) :
  boltz_sums temperature zero_vals [row1; row2]
  = (0.0 + boltz_term temperature (relative_of temperature zero_vals row1) 1
     + boltz_term temperature (relative_of temperature zero_vals row2) 1,
     0.0 + boltz_term temperature (relative_of temperature zero_vals row1) 3
     + boltz_term temperature (relative_of temperature zero_vals row2) 3,
     0.0 + boltz_term temperature (relative_of temperature zero_vals row1) 6
     + boltz_term temperature (relative_of temperature zero_vals row2) 6,
     0.0 + boltz_term temperature (relative_of temperature zero_vals row1) 7
     + boltz_term temperature (relative_of temperature zero_vals row2) 7).
Proof. reflexivity. Qed.

Lemma boltz_term_pos (temperature : R) (relative : list R) (x : nat) :
  0 < boltz_term temperature relative x.
Proof. unfold boltz_term. apply exp_pos. Qed.

Lemma report_ee_length (P : PES) (temperature : R) (spc : spc_option)
    (path : string) (rows : list pes_row) :
  List.length rows <> 2%nat ->
  report_ee (report_pathway P temperature spc path rows) = None.
Proof.
  intros Hlen. unfold report_pathway. cbn [report_ee].
  destruct (boltz_is_ee (boltz P)); [|reflexivity]. cbn [andb].
  generalize (boltz_sums temperature (abs_list temperature (zero_abs P)) rows).
  intros sums.
  match goal with
  | |- (if (List.length ?sels =? 2)%nat then _ else _) = None =>
      assert (Hl : List.length sels
                   = if boltz_on (boltz P) then List.length rows else 0%nat)
  end.
  { clear Hlen.
    destruct (boltz_on (boltz P));
      induction rows as [|row rows IH];
      cbn [map flat_map snd app List.length]; try reflexivity.
    - f_equal. exact IH.
    - exact IH. }
  rewrite Hl. destruct (boltz_on (boltz P)).
  - apply Nat.eqb_neq in Hlen. now rewrite Hlen.
  - reflexivity.
Qed.

(** C3 (as the code has it).  With [boltz = ee], a pathway of exactly two
    points gets an ee row: for each of E, H, G and qh-G the selectivity of
    its first point minus that of its second point, each value between
    -100 and 100; a pathway with any other number of points gets no ee
    row. *)
Theorem ee_within_two_point_pathway :
  forall (P : PES) (temperature : R) (spc : spc_option) (path : string),
    0 < temperature -> boltz P = BoltzStr "ee" ->
    (forall row1 row2,
        let report := report_pathway P temperature spc path [row1; row2] in
        exists sel1 sel2 ee,
          map snd (report_rows report) = [Some sel1; Some sel2]
          /\ report_ee report = Some ee
          /\ ee = map (fun x => nth x sel1 0 - nth x sel2 0) (seq 0 4)
          /\ Forall (fun v => -100 <= v <= 100) ee)
    /\ (forall rows,
           List.length rows <> 2%nat ->
           report_ee (report_pathway P temperature spc path rows) = None).
Proof.
  intros P T spc path HT Hb. split.
  - intros row1 row2 report.
    unfold report, report_pathway. rewrite Hb.
    cbn [map boltz_on boltz_is_ee flat_map snd app List.length Nat.eqb andb
         report_rows report_ee nth String.eqb Ascii.eqb Bool.eqb].
    rewrite boltz_sums_two, !selectivity_of_eq.
    eexists. eexists. eexists.
    split; [reflexivity|]. split; [reflexivity|]. split; [reflexivity|].
    cbn [map seq nth List.length].
    repeat (apply Forall_cons;
            [apply two_point_shares; apply boltz_term_pos|]).
    apply Forall_nil.
  - intros rows Hlen. now apply report_ee_length.
Qed.

Lemma ee_within_two_point_pathway_witness :
  0 < 298.15
  /\ boltz sample_PES_two_points = BoltzStr "ee"
  /\ (exists ee,
        report_ee (report_pathway sample_PES_two_points 298.15 SpcFalse
                     "Selectivity"
                     [sample_row "TS_R" (-9.98); sample_row "TS_S" (-9.97)])
        = Some ee
        /\ Forall (fun v => -100 <= v <= 100) ee)
  /\ report_ee (report_pathway sample_PES_two_points 298.15 SpcFalse
                  "Selectivity" [sample_row "TS_R" (-9.98)]) = None.
Proof.
  assert (HT : 0 < 298.15) by lra.
  assert (Hb : boltz sample_PES_two_points = BoltzStr "ee") by reflexivity.
  destruct (ee_within_two_point_pathway sample_PES_two_points 298.15
              SpcFalse "Selectivity" HT Hb) as [Htwo Hother].
  split; [exact HT|]. split; [exact Hb|]. split.
  - destruct (Htwo (sample_row "TS_R" (-9.98)) (sample_row "TS_S" (-9.97)))
      as (sel1 & sel2 & ee & _ & Hee & _ & Hbound).
    exists ee. split; assumption.
  - apply Hother. cbn [List.length]. lia.
Defined.

(** C3 (the claim as it stands fails).  Two pathways of three points
    each with [boltz = ee]: no ee is reported, neither for the pair of
    pathways nor for either pathway. *)
Lemma ee_not_reported_for_two_pathways :
  boltz sample_PES = BoltzStr "ee"
  /\ List.length (paths sample_PES) = 2%nat
  /\ map report_ee (report_pes sample_PES 298.15 SpcFalse) = [None; None].
Proof. repeat split; reflexivity. Qed.

(** * Further properties of the code *)

(** ** Zero-point and vibrational energy *)

Lemma calc_zeropoint_energy_cons (freq : R) (freqs : list R) (scale : R) :
  calc_zeropoint_energy (freq :: freqs) scale
  = 0.5 * (PLANCK_CONSTANT * freq * SPEED_OF_LIGHT * scale
           / BOLTZMANN_CONSTANT) * GAS_CONSTANT
    + calc_zeropoint_energy freqs scale.
Proof. unfold calc_zeropoint_energy. cbn [map]. now rewrite py_sum_cons. Qed.

Lemma calc_vibrational_energy_cons (freq : R) (freqs : list R) (T scale : R) :
  calc_vibrational_energy (freq :: freqs) T scale
  = PLANCK_CONSTANT * freq * SPEED_OF_LIGHT * scale / (BOLTZMANN_CONSTANT * T)
    * GAS_CONSTANT * T
    * (0.5 + 1.0 / (exp (PLANCK_CONSTANT * freq * SPEED_OF_LIGHT * scale
                         / (BOLTZMANN_CONSTANT * T)) - 1.0))
    + calc_vibrational_energy freqs T scale.
Proof. unfold calc_vibrational_energy. cbn [map]. now rewrite py_sum_cons. Qed.

(** The thermal part of one mode, [x R T / (exp x - 1)], lies strictly
    between 0 and [R T]. *)
Lemma mode_thermal_energy_bounds (freq T scale : R) :
  0 < freq -> 0 < T -> 0 < scale ->
  let x := PLANCK_CONSTANT * freq * SPEED_OF_LIGHT * scale
           / (BOLTZMANN_CONSTANT * T) in
  let zero_point := 0.5 * (PLANCK_CONSTANT * freq * SPEED_OF_LIGHT * scale
                           / BOLTZMANN_CONSTANT) * GAS_CONSTANT in
  zero_point
  < x * GAS_CONSTANT * T * (0.5 + 1.0 / (exp x - 1.0))
  < zero_point + GAS_CONSTANT * T.
Proof.
  intros Hf HT Hs x zero_point.
  destruct constants_positive as (HG & Hh & Hk & Hc & _).
  assert (Hx : 0 < x) by (unfold x; prod_pos).
  assert (Hzp : zero_point = 0.5 * x * GAS_CONSTANT * T).
  { unfold zero_point, x. field. lra. }
  pose proof (exp_ineq1 x ltac:(lra)) as Hexp.
  assert (Hd : 0 < exp x - 1) by lra.
  assert (Hfrac : 0 < x / (exp x - 1) < 1).
  { split; [apply Rdiv_lt_0_compat; lra|].
    apply (Rmult_lt_reg_r (exp x - 1)); [exact Hd|].
    unfold Rdiv. rewrite Rmult_assoc, Rinv_l by lra. lra. }
  assert (Hthermal : x * GAS_CONSTANT * T * (0.5 + 1.0 / (exp x - 1.0))
                     = zero_point + GAS_CONSTANT * T * (x / (exp x - 1))).
  { rewrite Hzp. replace 1.0 with 1 by lra. field. lra. }
  rewrite Hthermal.
  assert (HGT : 0 < GAS_CONSTANT * T) by prod_pos.
  nra.
Qed.

Lemma calc_vibrational_energy_weak_bounds (freqs : list R) (T scale : R) :
  Forall (fun freq => 0 < freq) freqs -> 0 < T -> 0 < scale ->
  calc_zeropoint_energy freqs scale
  <= calc_vibrational_energy freqs T scale
  <= calc_zeropoint_energy freqs scale
     + INR (List.length freqs) * (GAS_CONSTANT * T).
Proof.
  intros Hall HT Hs. induction Hall as [|freq freqs Hf Hall IH].
  - unfold calc_zeropoint_energy, calc_vibrational_energy. cbn [map List.length].
    rewrite py_sum_nil. cbn [INR]. lra.
  - rewrite calc_zeropoint_energy_cons, calc_vibrational_energy_cons.
    change (List.length (freq :: freqs)) with (S (List.length freqs)).
    rewrite S_INR.
    pose proof (mode_thermal_energy_bounds freq T scale Hf HT Hs) as Hm.
    cbv zeta in Hm. lra.
Qed.

(** X1.  For a non-empty list of positive wavenumbers, a positive
    temperature and a positive scale factor, the vibrational energy is
    strictly above the zero-point energy and strictly below the zero-point
    energy plus [R T] per mode. *)
Theorem calc_vibrational_energy_between_zpe_and_equipartition :
  forall (freqs : list R) (temperature freq_scale_factor : R),
    freqs <> [] -> Forall (fun freq => 0 < freq) freqs ->
    0 < temperature -> 0 < freq_scale_factor ->
    calc_zeropoint_energy freqs freq_scale_factor
    < calc_vibrational_energy freqs temperature freq_scale_factor
    < calc_zeropoint_energy freqs freq_scale_factor
      + INR (List.length freqs) * (GAS_CONSTANT * temperature).
Proof.
  intros freqs T scale Hne Hall HT Hs.
  destruct freqs as [|freq freqs]; [congruence|].
  inversion Hall as [|? ? Hf Hrest]; subst.
  rewrite calc_zeropoint_energy_cons, calc_vibrational_energy_cons.
  change (List.length (freq :: freqs)) with (S (List.length freqs)).
  rewrite S_INR.
  pose proof (mode_thermal_energy_bounds freq T scale Hf HT Hs) as Hm.
  pose proof (calc_vibrational_energy_weak_bounds freqs T scale Hrest HT Hs)
    as Hw.
  cbv zeta in Hm. lra.
Qed.

Lemma calc_vibrational_energy_between_zpe_and_equipartition_witness :
  calc_zeropoint_energy [1600; 3800; 3900] 1.0
  < calc_vibrational_energy [1600; 3800; 3900] 298.15 1.0
  < calc_zeropoint_energy [1600; 3800; 3900] 1.0
    + INR 3 * (GAS_CONSTANT * 298.15).
Proof.
  apply (calc_vibrational_energy_between_zpe_and_equipartition
           [1600; 3800; 3900] 298.15 1.0).
  - discriminate.
  - repeat constructor; lra.
  - lra.
  - lra.
Defined.

(** X2.  The zero-point energy is additive over the modes and
    proportional to the scale factor. *)
Theorem calc_zeropoint_energy_additive_and_linear :
  forall (freqs1 freqs2 : list R) (freq_scale_factor : R),
    calc_zeropoint_energy (freqs1 ++ freqs2) freq_scale_factor
    = calc_zeropoint_energy freqs1 freq_scale_factor
      + calc_zeropoint_energy freqs2 freq_scale_factor
    /\ calc_zeropoint_energy freqs1 freq_scale_factor
       = freq_scale_factor * calc_zeropoint_energy freqs1 1.
Proof.
  intros l1 l2 s. split.
  - unfold calc_zeropoint_energy. rewrite !map_app. apply py_sum_app.
  - induction l1 as [|f l1 IH].
    + unfold calc_zeropoint_energy. cbn [map]. rewrite py_sum_nil. ring.
    + rewrite !calc_zeropoint_energy_cons, IH. unfold Rdiv. ring.
Qed.

(** ** The solvent table and the translational entropy *)

Lemma find_nsolv_fold_hit (solv : string) (names : list string)
    (js : list nat) (nsolv : nat) :
  nth nsolv names ""%string = solv
  \/ (exists j, In j js /\ nth j names ""%string = solv) ->
  nth (fold_left
         (fun nsolv i =>
            if String.eqb solv (nth i names ""%string) then i else nsolv)
         js nsolv) names ""%string = solv.
Proof.
  revert nsolv. induction js as [|j js IH]; intros nsolv H; cbn [fold_left].
  - destruct H as [H|(j & [] & _)]. exact H.
  - apply IH.
    destruct (String.eqb solv (nth j names ""%string)) eqn:Hj.
    + left. apply String.eqb_eq in Hj. now symmetry.
    + destruct H as [H|(k & [<-|Hk] & Hnth)].
      * now left.
      * apply String.eqb_neq in Hj. congruence.
      * right. now exists k.
Qed.

Lemma find_nsolv_fold_bound (solv : string) (names : list string)
    (js : list nat) (nsolv bound : nat) :
  (nsolv < bound)%nat -> (forall j, In j js -> (j < bound)%nat) ->
  (fold_left
     (fun nsolv i =>
        if String.eqb solv (nth i names ""%string) then i else nsolv)
     js nsolv < bound)%nat.
Proof.
  revert nsolv. induction js as [|j js IH]; intros nsolv Hn Hjs;
    cbn [fold_left]; [exact Hn|].
  apply IH.
  - destruct (String.eqb solv (nth j names ""%string));
      [apply Hjs; now left|exact Hn].
  - intros k Hk. apply Hjs. now right.
Qed.

Lemma find_nsolv_bound (solv : string) (names : list string) :
  names <> [] -> (find_nsolv solv names < List.length names)%nat.
Proof.
  intros Hne. unfold find_nsolv. apply find_nsolv_fold_bound.
  - destruct names; [congruence|]. cbn [List.length]. lia.
  - intros j Hj. apply in_seq in Hj. lia.
Qed.

(** X3.  In a table of distinct names the loop of [get_free_space] finds
    the position of every name of the table, so the molarity and the
    molecular volume read afterwards are those of the named solvent. *)
Theorem find_nsolv_finds_the_row :
  forall (names : list string) (i : nat),
    NoDup names -> (i < List.length names)%nat ->
    find_nsolv (nth i names ""%string) names = i.
Proof.
  intros names i Hnd Hi.
  assert (Hne : names <> []) by (destruct names; [cbn in Hi; lia|discriminate]).
  pose proof (find_nsolv_bound (nth i names ""%string) names Hne) as Hb.
  assert (Hnth : nth (find_nsolv (nth i names ""%string) names) names ""%string
                 = nth i names ""%string).
  { unfold find_nsolv. apply find_nsolv_fold_hit. right.
    exists i. split; [|reflexivity]. apply in_seq. lia. }
  exact (proj1 (NoDup_nth names ""%string) Hnd _ _ Hb Hi Hnth).
Qed.

Lemma solvent_list_NoDup : NoDup solvent_list.
Proof.
  unfold solvent_list.
  repeat (constructor;
          [cbn [In]; intros H;
           repeat (destruct H as [H|H]; [discriminate H|]); exact H|]).
  constructor.
Defined.

Lemma find_nsolv_finds_the_row_witness :
  NoDup solvent_list /\ (2 < List.length solvent_list)%nat
  /\ find_nsolv "toluene" solvent_list = 2%nat.
Proof.
  assert (Hi : (2 < List.length solvent_list)%nat) by (cbn; lia).
  split; [exact solvent_list_NoDup|]. split; [exact Hi|].
  exact (find_nsolv_finds_the_row solvent_list 2 solvent_list_NoDup Hi).
Defined.

Lemma Rpower_lt_base (a b p : R) :
  0 < b -> b < a -> 0 < p -> Rpower b p < Rpower a p.
Proof.
  intros Hb Hab Hp. unfold Rpower. apply exp_increasing.
  apply Rmult_lt_compat_l; [exact Hp|]. apply ln_increasing; lra.
Qed.

Lemma free_volume_positive (solv_molarity solv_volume : R) :
  0 < solv_molarity -> 0 < solv_volume ->
  solv_volume < 1e27 / (solv_molarity * AVOGADRO_CONSTANT) ->
  0 < 8 * (Rpower (1e27 / (solv_molarity * AVOGADRO_CONSTANT)) 0.333333
           - Rpower solv_volume 0.333333) ^ 3
      * solv_molarity * AVOGADRO_CONSTANT * 1e-24.
Proof.
  intros Hm Hv Hlt.
  assert (HA : 0 < AVOGADRO_CONSTANT) by (unfold AVOGADRO_CONSTANT; lra).
  pose proof (Rpower_lt_base _ _ 0.333333 Hv Hlt ltac:(lra)) as Hp.
  assert (Hd : 0 < Rpower (1e27 / (solv_molarity * AVOGADRO_CONSTANT)) 0.333333
                   - Rpower solv_volume 0.333333) by lra.
  prod_pos.
Qed.

Lemma free_space_positive (solv : string) : 0 < get_free_space solv.
Proof.
  unfold get_free_space.
  pose proof (find_nsolv_bound solv solvent_list ltac:(discriminate)) as Hb.
  cbn [solvent_list List.length] in Hb.
  assert (HA : AVOGADRO_CONSTANT = 6.0221415e23) by reflexivity.
  destruct (find_nsolv solv solvent_list) as [|[|[|[|[|[|n]]]]]];
    cbn [Nat.ltb Nat.leb nth molarity molecular_vol]; try lia; try lra;
    apply free_volume_positive; try lra; rewrite HA;
    match goal with
    | |- ?v < 1e27 / ?d =>
        apply (Rmult_lt_reg_r d); [lra|];
        unfold Rdiv; rewrite Rmult_assoc, Rinv_l by lra; lra
    end.
Qed.

(** X4.  The free space returned by [get_free_space] is positive for
    every solvent string, so the number density of the translational
    entropy is never a division by zero. *)
Theorem get_free_space_positive :
  forall solv : string, 0 < get_free_space solv.
Proof. exact free_space_positive. Qed.

Lemma ln_quotient (x y : R) : 0 < x -> 0 < y -> ln (x / y) = ln x - ln y.
Proof.
  intros Hx Hy. unfold Rdiv.
  rewrite ln_mult by (try apply Rinv_0_lt_compat; assumption).
  rewrite ln_Rinv by assumption. ring.
Qed.

(** X5.  At a fixed mass, temperature and solvent, changing the
    concentration from [conc1] to [conc2] changes the translational
    entropy by [R ln (conc1 / conc2)]: a higher concentration gives a
    lower entropy. *)
Theorem calc_translational_entropy_concentration :
  forall (molecular_mass conc1 conc2 temperature : R) (solv : string),
    0 < molecular_mass -> 0 < conc1 -> 0 < conc2 -> 0 < temperature ->
    calc_translational_entropy molecular_mass conc2 temperature solv
    - calc_translational_entropy molecular_mass conc1 temperature solv
    = GAS_CONSTANT * ln (conc1 / conc2).
Proof.
  intros mass c1 c2 T solv Hm H1 H2 HT.
  unfold calc_translational_entropy.
  pose proof (free_space_positive solv) as Hfs.
  set (fs := get_free_space solv) in *.
  assert (HA : 0 < AVOGADRO_CONSTANT) by (unfold AVOGADRO_CONSTANT; lra).
  assert (Hamu : 0 < AMU_to_KG) by (unfold AMU_to_KG; lra).
  destruct constants_positive as (HG & Hh & Hk & _).
  pose proof PI_RGT_0 as Hpi.
  assert (Hl : 0 < sqrt (2.0 * PI * mass * AMU_to_KG * BOLTZMANN_CONSTANT * T)
                   / PLANCK_CONSTANT).
  { apply Rdiv_lt_0_compat; [|exact Hh]. apply sqrt_lt_R0. prod_pos. }
  set (lmda := sqrt _ / PLANCK_CONSTANT) in *.
  assert (Hl3 : 0 < lmda ^ 3) by (apply pow_lt; exact Hl).
  assert (HK : 0 < 1000 * AVOGADRO_CONSTANT / (fs / 1000.0)) by prod_pos.
  assert (HN : forall c, 0 < c ->
                 ln (lmda ^ 3 / (c * 1000 * AVOGADRO_CONSTANT / (fs / 1000.0)))
                 = ln (lmda ^ 3) - ln c
                   - ln (1000 * AVOGADRO_CONSTANT / (fs / 1000.0))).
  { intros c Hc.
    replace (c * 1000 * AVOGADRO_CONSTANT / (fs / 1000.0))
      with (c * (1000 * AVOGADRO_CONSTANT / (fs / 1000.0)))
      by (unfold Rdiv; ring).
    assert (Hprod : 0 < c * (1000 * AVOGADRO_CONSTANT / (fs / 1000.0)))
      by (apply Rmult_lt_0_compat; assumption).
    rewrite (ln_quotient _ _ Hl3 Hprod), (ln_mult _ _ Hc HK). ring. }
  rewrite (HN c1 H1), (HN c2 H2), (ln_quotient c1 c2 H1 H2). ring.
Qed.

Lemma calc_translational_entropy_concentration_witness :
  calc_translational_entropy 18.01 1 298.15 "H2O"
  - calc_translational_entropy 18.01 0.040876 298.15 "H2O"
  = GAS_CONSTANT * ln (0.040876 / 1).
Proof.
  apply calc_translational_entropy_concentration; lra.
Defined.

(** X6.  The electronic entropy vanishes for a singlet and is positive
    and increasing in the multiplicity above it. *)
Theorem calc_electronic_entropy_multiplicity :
  calc_electronic_entropy 1 = 0
  /\ forall m1 m2 : R,
       1 <= m1 -> m1 < m2 ->
       0 <= calc_electronic_entropy m1 < calc_electronic_entropy m2.
Proof.
  destruct constants_positive as (HG & _).
  unfold calc_electronic_entropy. split.
  - rewrite ln_1. ring.
  - intros m1 m2 H1 H12.
    assert (Hln : ln m1 < ln m2) by (apply ln_increasing; lra).
    assert (H0 : 0 <= ln m1).
    { destruct H1 as [H1|<-]; [|rewrite ln_1; lra].
      left. rewrite <- ln_1. apply ln_increasing; lra. }
    split; nra.
Qed.

Lemma calc_electronic_entropy_multiplicity_witness :
  0 <= calc_electronic_entropy 1 < calc_electronic_entropy 2.
Proof.
  apply (proj2 calc_electronic_entropy_multiplicity); lra.
Defined.

(** ** The rotational entropy *)

Lemma is_zero_rotemp_positive (rotemp : list R) :
  Forall (fun theta => 0 < theta) rotemp -> is_zero_rotemp rotemp = false.
Proof.
  intros H. destruct rotemp as [|a [|b [|c [|d l]]]]; try reflexivity.
  inversion H as [|? ? Ha _]; subst. cbn [is_zero_rotemp].
  destruct (Req_dec_T a 0.0); [lra|reflexivity].
Qed.

(** X7.  For a molecule with one or three positive rotational
    temperatures, a symmetry number [sigma] lowers the rotational entropy
    of the unsymmetric molecule by [R ln sigma]. *)
Theorem calc_rotational_entropy_symmetry_number :
  forall (zpe : R) (linear symmno : Z) (rotemp : list R) (temperature : R),
    zpe <> 0 -> (linear = 0 \/ linear = 1)%Z -> (0 < symmno)%Z ->
    0 < temperature -> Forall (fun theta => 0 < theta) rotemp ->
    List.length rotemp = 1%nat \/ List.length rotemp = 3%nat ->
    calc_rotational_entropy zpe linear symmno rotemp temperature
    = calc_rotational_entropy zpe linear 1 rotemp temperature
      - GAS_CONSTANT * ln (IZR symmno).
Proof.
  intros zpe linear sigma rotemp T Hz Hlin Hs HT Hpos Hlen.
  assert (Hsig : 0 < IZR sigma) by (apply IZR_lt in Hs; exact Hs).
  unfold calc_rotational_entropy.
  rewrite (is_zero_rotemp_positive rotemp Hpos). cbn [orb].
  destruct (Req_dec_T zpe 0.0) as [Hz0|_]; [exfalso; lra|].
  destruct Hlen as [Hlen|Hlen]; rewrite Hlen; cbn [Nat.eqb].
  - destruct rotemp as [|a [|b l]]; try discriminate Hlen.
    inversion Hpos as [|? ? Ha _]; subst. cbn [nth Z.eqb Pos.eqb].
    assert (Hq : 0 < T / a) by prod_pos.
    rewrite !ln_quotient by lra. rewrite ln_1. ring.
  - destruct rotemp as [|a [|b [|c [|d l]]]]; try discriminate Hlen.
    inversion Hpos as [|? ? Ha Hpos1]; subst.
    inversion Hpos1 as [|? ? Hb Hpos2]; subst.
    inversion Hpos2 as [|? ? Hc _]; subst. cbn [nth].
    pose proof PI_RGT_0 as Hpi.
    assert (Hq : 0 < sqrt (PI * T ^ 3 / (a * b * c))).
    { apply sqrt_lt_R0. prod_pos. }
    destruct Hlin as [-> | ->]; cbn [Z.eqb Pos.eqb];
      rewrite !ln_quotient by lra; rewrite ln_1; ring.
Qed.

Lemma calc_rotational_entropy_symmetry_number_witness :
  calc_rotational_entropy 0.02 0 2 [39.0; 21.0; 13.0] 298.15
  = calc_rotational_entropy 0.02 0 1 [39.0; 21.0; 13.0] 298.15
    - GAS_CONSTANT * ln (IZR 2).
Proof.
  apply calc_rotational_entropy_symmetry_number.
  - lra.
  - left. reflexivity.
  - reflexivity.
  - lra.
  - repeat constructor; lra.
  - right. reflexivity.
Defined.

(** ** Entropies per mode *)

Lemma rrho_mode_positive (y : R) :
  0 < y ->
  0 < y * GAS_CONSTANT / (exp y - 1) - GAS_CONSTANT * ln (1 - exp (- y)).
Proof.
  intros Hy. destruct constants_positive as (HG & _).
  rewrite rrho_entry_factor. apply Rmult_lt_0_compat; [exact HG|].
  pose proof (exp_ineq1 y ltac:(lra)) as Hexp.
  assert (Hfrac : 0 < y / (exp y - 1)) by (apply Rdiv_lt_0_compat; lra).
  assert (Hneg : 0 < exp (- y) < 1).
  { split; [apply exp_pos|].
    rewrite <- exp_0. apply exp_increasing. lra. }
  assert (Hln : ln (1 - exp (- y)) < 0).
  { rewrite <- ln_1. apply ln_increasing; lra. }
  lra.
Qed.

(** X8.  [calc_rrho_entropy] returns one entropy per mode, and for
    positive wavenumbers, temperature and scale factor each of them is
    positive. *)
Theorem calc_rrho_entropy_positive :
  forall (freqs : list R) (temperature freq_scale_factor : R),
    Forall (fun freq => 0 < freq) freqs ->
    0 < temperature -> 0 < freq_scale_factor ->
    List.length (calc_rrho_entropy freqs temperature freq_scale_factor)
    = List.length freqs
    /\ Forall (fun S => 0 < S)
         (calc_rrho_entropy freqs temperature freq_scale_factor).
Proof.
  intros freqs T scale Hall HT Hs.
  split; [apply calc_rrho_entropy_length|].
  destruct constants_positive as (HG & Hh & Hk & Hc & _).
  unfold calc_rrho_entropy. rewrite map_map.
  induction Hall as [|freq freqs Hf Hall IH]; cbn [map]; constructor.
  - apply rrho_mode_positive. prod_pos.
  - exact IH.
Qed.

Lemma calc_rrho_entropy_positive_witness :
  Forall (fun S => 0 < S) (calc_rrho_entropy [50; 100; 300; 3000] 298.15 1.0).
Proof.
  apply (calc_rrho_entropy_positive [50; 100; 300; 3000] 298.15 1.0).
  - repeat constructor; lra.
  - lra.
  - lra.
Defined.

(** X9.  However low the wavenumber, the free-rotor entropy of a mode
    stays below the entropy of a rotor with the average moment of inertia
    [Bav]. *)
Theorem calc_freerot_entropy_bounded :
  forall (freqs : list R) (temperature freq_scale_factor : R),
    Forall (fun freq => 0 < freq) freqs ->
    0 < temperature -> 0 < freq_scale_factor ->
    Forall (fun S =>
              S < (0.5 + ln (sqrt (8 * PI ^ 3 * Bav * BOLTZMANN_CONSTANT
                                   * temperature / PLANCK_CONSTANT ^ 2)))
                  * GAS_CONSTANT)
      (calc_freerot_entropy freqs temperature freq_scale_factor).
Proof.
  intros freqs T scale Hall HT Hs.
  destruct constants_positive as (HG & Hh & Hk & Hc & HB & _).
  pose proof PI_RGT_0 as Hpi.
  unfold calc_freerot_entropy. rewrite !map_map.
  induction Hall as [|freq freqs Hf Hall IH]; cbn [map]; constructor;
    [|exact IH].
  set (mu := PLANCK_CONSTANT / (8 * PI ^ 2 * freq * SPEED_OF_LIGHT * scale)).
  assert (Hmu : 0 < mu) by (unfold mu; prod_pos).
  assert (Hmp : 0 < mu * Bav / (mu + Bav)) by prod_pos.
  assert (Hlt : mu * Bav / (mu + Bav) < Bav).
  { apply (Rmult_lt_reg_r (mu + Bav)); [lra|].
    unfold Rdiv. rewrite Rmult_assoc, Rinv_l by lra. nra. }
  assert (HK : 0 < 8 * PI ^ 3 * BOLTZMANN_CONSTANT * T / PLANCK_CONSTANT ^ 2)
    by prod_pos.
  assert (Hf1 : 8 * PI ^ 3 * (mu * Bav / (mu + Bav)) * BOLTZMANN_CONSTANT * T
                / PLANCK_CONSTANT ^ 2
                = 8 * PI ^ 3 * BOLTZMANN_CONSTANT * T / PLANCK_CONSTANT ^ 2
                  * (mu * Bav / (mu + Bav))) by (unfold Rdiv; ring).
  assert (Hf2 : 8 * PI ^ 3 * Bav * BOLTZMANN_CONSTANT * T
                / PLANCK_CONSTANT ^ 2
                = 8 * PI ^ 3 * BOLTZMANN_CONSTANT * T / PLANCK_CONSTANT ^ 2
                  * Bav) by (unfold Rdiv; ring).
  rewrite Hf1, Hf2.
  apply Rmult_lt_compat_r; [exact HG|].
  apply Rplus_lt_compat_l. apply ln_increasing.
  - apply sqrt_lt_R0. apply Rmult_lt_0_compat; assumption.
  - apply sqrt_lt_1; try (left; apply Rmult_lt_0_compat; assumption).
    apply Rmult_lt_compat_l; assumption.
Qed.

Lemma calc_freerot_entropy_bounded_witness :
  Forall (fun S =>
            S < (0.5 + ln (sqrt (8 * PI ^ 3 * Bav * BOLTZMANN_CONSTANT
                                 * 298.15 / PLANCK_CONSTANT ^ 2)))
                * GAS_CONSTANT)
    (calc_freerot_entropy [50; 100; 300; 3000] 298.15 1.0).
Proof.
  apply (calc_freerot_entropy_bounded [50; 100; 300; 3000] 298.15 1.0).
  - repeat constructor; lra.
  - lra.
  - lra.
Defined.

(** ** The quasi-harmonic schemes *)

Lemma vib_entropy_loop_other (QH : string) (FREQ_CUTOFF : R)
    (freqs Svib_rrho Svib_rrqho Svib_free_rot damp : list R) :
  String.eqb QH "grimme" = false -> String.eqb QH "truhlar" = false ->
  vib_entropy_loop QH FREQ_CUTOFF freqs Svib_rrho Svib_rrqho Svib_free_rot
    damp = [].
Proof.
  intros Hg Ht. unfold vib_entropy_loop. rewrite Hg, Ht.
  induction (seq 0 (List.length freqs)) as [|j js IH]; [reflexivity|exact IH].
Qed.

Lemma map_seq_pointwise (f g : nat -> R) (n : nat) :
  (forall j, (j < n)%nat -> f j = g j) -> map f (seq 0 n) = map g (seq 0 n).
Proof.
  intros H. apply map_ext_in. intros j Hj. apply in_seq in Hj. apply H. lia.
Qed.

(** A run in which every mode keeps its RRHO entropy has equal harmonic
    and quasi-harmonic entropies and Gibbs energies. *)
Lemma calc_bbe_harmonic
    (fs : filesystem) (name ext : string) (s : scan) (QH : string)
    (FREQ_CUTOFF temperature conc freq_scale_factor : R) (solv : string)
    (spc : spc_option) (r : bbe) :
  fst (vib_entropies QH FREQ_CUTOFF temperature freq_scale_factor
         (frequency_wn s))
  = snd (vib_entropies QH FREQ_CUTOFF temperature freq_scale_factor
           (frequency_wn s)) ->
  calc_bbe fs name ext s QH FREQ_CUTOFF temperature conc freq_scale_factor
    solv spc = Ok r ->
  qh_entropy r = entropy r
  /\ qh_gibbs_free_energy r = gibbs_free_energy r.
Proof.
  intros Heq Hr. unfold calc_bbe in Hr.
  destruct (read_sp_energy fs name ext spc) as [sp|e]; cbn [bind] in Hr;
    [|discriminate].
  destruct (zero_point_corr s) as [zp|];
    [|injection Hr as <-; split; reflexivity].
  destruct (rotemp_truthy (rotemp s)) as [rot|];
    [|injection Hr as <-; split; reflexivity].
  destruct (molecular_mass s) as [mass|]; cbn [getlocal bind] in Hr;
    [|discriminate].
  destruct (mult s) as [m|]; cbn [getlocal bind] in Hr; [|discriminate].
  destruct (vib_entropies QH FREQ_CUTOFF temperature freq_scale_factor
              (frequency_wn s)) as [vib rrho].
  cbn [fst snd] in Heq. subst vib.
  destruct (0 <? List.length (frequency_wn s))%nat;
    (destruct (scf_energy s) as [scf|]; cbn [getattr bind] in Hr;
     [|discriminate]); injection Hr as <-; split; reflexivity.
Qed.

(** X10.  With a cutoff of 0 the grimme scheme also leaves every mode at
    its RRHO entropy (the damping is 1), so the quasi-harmonic entropy
    and Gibbs energy of the object equal the harmonic ones. *)
Theorem grimme_zero_cutoff_is_rrho :
  forall (freqs : list R) (temperature freq_scale_factor : R),
    Forall (fun freq => 0 < freq) freqs ->
    0 < temperature -> 0 < freq_scale_factor ->
    fst (vib_entropies "grimme" 0 temperature freq_scale_factor freqs)
    = snd (vib_entropies "grimme" 0 temperature freq_scale_factor freqs)
    /\ forall fs name ext s conc solv spc r,
         frequency_wn s = freqs ->
         calc_bbe fs name ext s "grimme" 0 temperature conc
           freq_scale_factor solv spc = Ok r ->
         qh_entropy r = entropy r
         /\ qh_gibbs_free_energy r = gibbs_free_energy r.
Proof.
  intros freqs T scale _ _ _.
  assert (Heq : fst (vib_entropies "grimme" 0 T scale freqs)
                = snd (vib_entropies "grimme" 0 T scale freqs)).
  { unfold vib_entropies. cbn [fst snd]. rewrite vib_entropy_loop_grimme.
    pose proof (map_nth_seq (calc_rrho_entropy freqs T scale)) as Hseq.
    rewrite calc_rrho_entropy_length in Hseq.
    etransitivity; [|exact Hseq].
    apply map_seq_pointwise. intros j Hj.
    rewrite calc_damp_nth by exact Hj.
    replace (1 / (1 + (0 / nth j freqs 0) ^ 4)) with 1.
    - ring.
    - unfold Rdiv. rewrite Rmult_0_l. replace (0 ^ 4) with 0 by ring.
      field. }
  split; [exact Heq|].
  intros fs name ext s conc solv spc r <- Hr.
  eapply calc_bbe_harmonic; eassumption.
Qed.

Lemma grimme_zero_cutoff_is_rrho_witness :
  fst (vib_entropies "grimme" 0 298.15 1 [50; 100; 300; 3000])
  = snd (vib_entropies "grimme" 0 298.15 1 [50; 100; 300; 3000]).
Proof.
  apply (grimme_zero_cutoff_is_rrho [50; 100; 300; 3000] 298.15 1).
  - repeat constructor; lra.
  - lra.
  - lra.
Defined.

(** X11.  Under grimme with a positive cutoff, the quasi-harmonic
    entropy of every mode with a positive wavenumber lies between its
    free-rotor entropy and its RRHO entropy. *)
Theorem grimme_mode_between_freerot_and_rrho :
  forall (freqs : list R) (FREQ_CUTOFF temperature freq_scale_factor : R)
         (j : nat),
    0 < FREQ_CUTOFF -> (j < List.length freqs)%nat -> 0 < nth j freqs 0 ->
    let qh :=
      nth j (fst (vib_entropies "grimme" FREQ_CUTOFF temperature
                    freq_scale_factor freqs)) 0 in
    let rrho :=
      nth j (calc_rrho_entropy freqs temperature freq_scale_factor) 0 in
    let free_rot :=
      nth j (calc_freerot_entropy freqs temperature freq_scale_factor) 0 in
    Rmin free_rot rrho <= qh <= Rmax free_rot rrho.
Proof.
  intros freqs c T scale j Hc Hj Hf qh rrho free_rot.
  assert (Hqh : qh = rrho * nth j (calc_damp freqs c) 0
                     + (1 - nth j (calc_damp freqs c) 0) * free_rot).
  { unfold qh, vib_entropies. cbn [fst]. rewrite vib_entropy_loop_grimme.
    rewrite (nth_map_default _ _ _ 0%nat) by (rewrite length_seq; exact Hj).
    rewrite seq_nth by exact Hj. reflexivity. }
  pose proof (damp_value_bounds c (nth j freqs 0) Hc Hf) as Hd.
  rewrite <- (calc_damp_nth freqs c j Hj) in Hd.
  rewrite Hqh. set (d := nth j (calc_damp freqs c) 0) in *.
  unfold Rmin, Rmax. destruct (Rle_dec free_rot rrho); nra.
Qed.

Lemma grimme_mode_between_freerot_and_rrho_witness :
  Rmin (nth 2 (calc_freerot_entropy [50; 100; 300; 3000] 298.15 1.0) 0)
       (nth 2 (calc_rrho_entropy [50; 100; 300; 3000] 298.15 1.0) 0)
  <= nth 2 (fst (vib_entropies "grimme" 100 298.15 1.0
                   [50; 100; 300; 3000])) 0
  <= Rmax (nth 2 (calc_freerot_entropy [50; 100; 300; 3000] 298.15 1.0) 0)
          (nth 2 (calc_rrho_entropy [50; 100; 300; 3000] 298.15 1.0) 0).
Proof.
  apply (grimme_mode_between_freerot_and_rrho [50; 100; 300; 3000] 100
           298.15 1.0 2).
  - lra.
  - cbn [List.length]. lia.
  - cbn [nth]. lra.
Defined.

(** X12.  Under truhlar with a positive cutoff, a mode above the cutoff
    keeps its RRHO entropy, and every mode at or below the cutoff gets the
    RRHO entropy of a mode at the cutoff with scale factor 1.0, whatever
    its own wavenumber and the scale factor of the run. *)
Theorem truhlar_mode_entropy :
  forall (freqs : list R) (FREQ_CUTOFF temperature freq_scale_factor : R)
         (j : nat),
    0 < FREQ_CUTOFF -> (j < List.length freqs)%nat ->
    let qh :=
      nth j (fst (vib_entropies "truhlar" FREQ_CUTOFF temperature
                    freq_scale_factor freqs)) 0 in
    (FREQ_CUTOFF < nth j freqs 0 ->
     qh = nth j (calc_rrho_entropy freqs temperature freq_scale_factor) 0)
    /\ (nth j freqs 0 <= FREQ_CUTOFF ->
        qh = nth 0 (calc_rrho_entropy [FREQ_CUTOFF] temperature 1.0) 0).
Proof.
  intros freqs c T scale j Hc Hj qh.
  assert (Hqh : qh = if Rgt_dec c 0.0 then
                       if Rgt_dec (nth j freqs 0) c
                       then nth j (calc_rrho_entropy freqs T scale) 0
                       else nth j (calc_rrho_entropy
                                     (map (fun _ => c) freqs) T 1.0) 0
                     else nth j (calc_rrho_entropy freqs T scale) 0).
  { unfold qh, vib_entropies. cbn [fst]. rewrite vib_entropy_loop_truhlar.
    rewrite (nth_map_default _ _ _ 0%nat) by (rewrite length_seq; exact Hj).
    rewrite seq_nth by exact Hj. reflexivity. }
  rewrite Hqh.
  destruct (Rgt_dec c 0.0) as [_|Hn]; [|exfalso; lra].
  split; intros Hcmp.
  - destruct (Rgt_dec (nth j freqs 0) c) as [_|Hn]; [reflexivity|exfalso; lra].
  - destruct (Rgt_dec (nth j freqs 0) c) as [Hgt|_]; [exfalso; lra|].
    unfold calc_rrho_entropy. rewrite !map_map. cbn [map nth].
    rewrite (nth_map_default _ _ _ 0) by exact Hj. reflexivity.
Qed.

Lemma truhlar_mode_entropy_witness :
  nth 1 (fst (vib_entropies "truhlar" 100 298.15 0.97 [50; 100; 300; 3000])) 0
  = nth 0 (calc_rrho_entropy [100] 298.15 1.0) 0.
Proof.
  apply (truhlar_mode_entropy [50; 100; 300; 3000] 100 298.15 0.97 1).
  - lra.
  - cbn [List.length]. lia.
  - cbn [nth]. lra.
Defined.

(** X13.  [calc_bbe] does not reject a method other than grimme and
    truhlar: the loop appends nothing, the quasi-harmonic vibrational
    entropy is the sum of an empty list. *)
Theorem unknown_QH_gives_no_vibrational_entropy :
  forall (QH : string) (FREQ_CUTOFF temperature freq_scale_factor : R)
         (freqs : list R),
    QH <> "grimme"%string -> QH <> "truhlar"%string ->
    fst (vib_entropies QH FREQ_CUTOFF temperature freq_scale_factor freqs)
    = []
    /\ py_sum (fst (vib_entropies QH FREQ_CUTOFF temperature
                      freq_scale_factor freqs)) = 0.
Proof.
  intros QH c T scale freqs Hg Ht.
  apply String.eqb_neq in Hg. apply String.eqb_neq in Ht.
  unfold vib_entropies. cbn [fst].
  rewrite (vib_entropy_loop_other QH c freqs _ _ _ _ Hg Ht).
  split; reflexivity.
Qed.

Lemma unknown_QH_gives_no_vibrational_entropy_witness :
  fst (vib_entropies "Grimme" 100 298.15 1.0 [50; 100; 300; 3000]) = [].
Proof.
  apply (unknown_QH_gives_no_vibrational_entropy "Grimme" 100 298.15 1.0
           [50; 100; 300; 3000]); discriminate.
Defined.

(** ** Incomplete records and single-point files in [calc_bbe] *)

(** X14.  When the zero-point correction was never read, or [rotemp] is
    [None] or empty, [calc_bbe] returns normally with none of the thermal
    attributes assigned, whether or not the mass, the multiplicity and the
    energy were read; the frequency list, the warning and the single-point
    attribute are still stored. *)
Theorem calc_bbe_incomplete_record :
  forall (fs : filesystem) (name ext : string) (s : scan) (QH : string)
         (FREQ_CUTOFF temperature conc freq_scale_factor : R)
         (solv : string) (spc : spc_option) (sp : option pyval),
    read_sp_energy fs name ext spc = Ok sp ->
    zero_point_corr s = None \/ rotemp s = RotNone \/ rotemp s = RotList [] ->
    exists r,
      calc_bbe fs name ext s QH FREQ_CUTOFF temperature conc
        freq_scale_factor solv spc = Ok r
      /\ enthalpy r = None /\ zpe r = None /\ entropy r = None
      /\ qh_entropy r = None /\ gibbs_free_energy r = None
      /\ qh_gibbs_free_energy r = None /\ im_freq r = None
      /\ bbe_sp_energy r = sp
      /\ bbe_frequency_wn r = frequency_wn s
      /\ bbe_linear_warning r = linear_warning s.
Proof.
  intros fs name ext s QH c T conc scale solv spc sp Hsp Hmiss.
  unfold calc_bbe. rewrite Hsp. cbn [bind].
  assert (Hcase : zero_point_corr s = None
                  \/ rotemp_truthy (rotemp s) = None).
  { destruct Hmiss as [H|[H|H]]; [now left| |]; right; rewrite H;
      reflexivity. }
  destruct (zero_point_corr s) as [zp|].
  - destruct Hcase as [H|H]; [discriminate H|]. rewrite H.
    eexists. split; [reflexivity|]. now repeat split.
  - eexists. split; [reflexivity|]. now repeat split.
Qed.

Lemma calc_bbe_incomplete_record_witness :
  exists r,
    calc_bbe sample_files "water" ".log" (set_rotemp sample_scan RotNone)
      "grimme" 100.0 298.15 (atmos / GAS_CONSTANT / 298.15) 1.0 "none"
      SpcFalse = Ok r
    /\ enthalpy r = None /\ gibbs_free_energy r = None
    /\ bbe_frequency_wn r = [1600; 3800; 3900].
Proof.
  destruct (calc_bbe_incomplete_record sample_files "water" ".log"
              (set_rotemp sample_scan RotNone) "grimme" 100.0 298.15
              (atmos / GAS_CONSTANT / 298.15) 1.0 "none" SpcFalse None
              eq_refl (or_intror (or_introl eq_refl)))
    as (r & Hr & Hh & _ & _ & _ & Hg & _ & _ & _ & Hf & _).
  exists r. repeat split; assumption.
Defined.

(** X15.  With the zero-point correction and a non-empty [rotemp], a
    record whose mass or multiplicity line was never read makes
    [calc_bbe] fail with a [NameError], and a record without an energy
    line with an [AttributeError]. *)
Theorem calc_bbe_missing_fields_raise :
  forall (fs : filesystem) (name ext : string) (s : scan) (QH : string)
         (FREQ_CUTOFF temperature conc freq_scale_factor : R)
         (solv : string) (spc : spc_option) (sp : option pyval)
         (zp : R) (rot : list R),
    read_sp_energy fs name ext spc = Ok sp ->
    zero_point_corr s = Some zp -> rotemp_truthy (rotemp s) = Some rot ->
    let run := calc_bbe fs name ext s QH FREQ_CUTOFF temperature conc
                 freq_scale_factor solv spc in
    (molecular_mass s = None -> run = Raise NameError)
    /\ (molecular_mass s <> None -> mult s = None -> run = Raise NameError)
    /\ (molecular_mass s <> None -> mult s <> None -> scf_energy s = None ->
        run = Raise AttributeError).
Proof.
  intros fs name ext s QH c T conc scale solv spc sp zp rot Hsp Hzp Hrot run.
  unfold run, calc_bbe. rewrite Hsp, Hzp, Hrot. cbn [bind].
  split; [|split].
  - intros ->. reflexivity.
  - intros Hmass ->. destruct (molecular_mass s); [reflexivity|congruence].
  - intros Hmass Hmult ->.
    destruct (molecular_mass s); [|congruence].
    destruct (mult s); [|congruence]. cbn [getlocal bind].
    destruct (if (0 <? List.length (frequency_wn s))%nat then _ else _)
      as [[[[[ZPE Urot] Uvib] Srot] h_Svib] qh_Svib].
    reflexivity.
Qed.

Lemma calc_bbe_missing_fields_raise_witness :
  calc_bbe sample_files "water" ".log" sample_scan_no_energy
    "grimme" 100.0 298.15 (atmos / GAS_CONSTANT / 298.15) 1.0 "none"
    SpcFalse = Raise AttributeError.
Proof.
  refine (proj2 (proj2
    (calc_bbe_missing_fields_raise sample_files "water" ".log"
       sample_scan_no_energy "grimme" 100.0 298.15
       (atmos / GAS_CONSTANT / 298.15) 1.0 "none" SpcFalse
       None 0.02 [39.0; 21.0; 13.0] eq_refl eq_refl eq_refl)) _ _ eq_refl);
    discriminate.
Defined.

(** The attribute stored by lines 600-608 is never a float, and whenever
    it is stored the correction of lines 719-721 changes nothing. *)
Lemma read_sp_energy_never_float
    (fs : filesystem) (name ext : string) (spc : spc_option)
    (sp : option pyval) :
  read_sp_energy fs name ext spc = Ok sp ->
  forall enthalpy0 scf, sp_correction enthalpy0 scf sp = enthalpy0.
Proof.
  unfold read_sp_energy, sp_energy. intros H h scf.
  destruct spc as [|suffix]; [injection H as <-; reflexivity|].
  destruct (String.eqb suffix "link").
  - destruct (fs (name ++ ext)%string); cbn [bind] in H; [|discriminate H].
    injection H as <-. reflexivity.
  - destruct (fs (name ++ "_" ++ suffix ++ ext)%string);
      injection H as <-; reflexivity.
Qed.

Lemma calc_bbe_same_thermochemistry
    (fs : filesystem) (name ext : string) (s : scan) (QH : string)
    (FREQ_CUTOFF temperature conc freq_scale_factor : R) (solv : string)
    (spc : spc_option) (sp : option pyval) (r0 : bbe) :
  read_sp_energy fs name ext spc = Ok sp ->
  calc_bbe fs name ext s QH FREQ_CUTOFF temperature conc freq_scale_factor
    solv SpcFalse = Ok r0 ->
  exists r,
    calc_bbe fs name ext s QH FREQ_CUTOFF temperature conc
      freq_scale_factor solv spc = Ok r
    /\ bbe_sp_energy r = sp
    /\ enthalpy r = enthalpy r0 /\ zpe r = zpe r0
    /\ entropy r = entropy r0 /\ qh_entropy r = qh_entropy r0
    /\ gibbs_free_energy r = gibbs_free_energy r0
    /\ qh_gibbs_free_energy r = qh_gibbs_free_energy r0.
Proof.
  intros Hsp H0.
  pose proof (read_sp_energy_never_float fs name ext spc sp Hsp) as Hcorr.
  unfold calc_bbe in *. rewrite Hsp. cbn [read_sp_energy bind] in *.
  destruct (zero_point_corr s) as [zp|];
    [|injection H0 as <-; eexists; split; [reflexivity|]; now repeat split].
  destruct (rotemp_truthy (rotemp s)) as [rot|];
    [|injection H0 as <-; eexists; split; [reflexivity|]; now repeat split].
  destruct (molecular_mass s) as [mass|]; cbn [getlocal bind] in *;
    [|discriminate].
  destruct (mult s) as [m|]; cbn [getlocal bind] in *; [|discriminate].
  destruct (if (0 <? List.length (frequency_wn s))%nat then _ else _)
    as [[[[[ZPE Urot] Uvib] Srot] h_Svib] qh_Svib].
  destruct (scf_energy s) as [scf|]; cbn [getattr bind] in *; [|discriminate].
  injection H0 as <-. eexists. split; [reflexivity|].
  cbn [bbe_sp_energy enthalpy zpe entropy qh_entropy gibbs_free_energy
       qh_gibbs_free_energy].
  rewrite Hcorr. cbn [sp_correction]. now repeat split.
Qed.

(** X16.  A requested single-point file that does not exist does not
    stop [calc_bbe]: the attribute becomes the string ['!'] and the
    thermochemistry is that of the run without the request.  With
    [--spc link] the same situation raises [ValueError]. *)
Theorem missing_single_point_file :
  forall (fs : filesystem) (name ext suffix : string) (s : scan)
         (QH : string) (FREQ_CUTOFF temperature conc freq_scale_factor : R)
         (solv : string),
    (suffix <> "link"%string ->
     fs (name ++ "_" ++ suffix ++ ext)%string = None ->
     forall r0,
       calc_bbe fs name ext s QH FREQ_CUTOFF temperature conc
         freq_scale_factor solv SpcFalse = Ok r0 ->
       exists r,
         calc_bbe fs name ext s QH FREQ_CUTOFF temperature conc
           freq_scale_factor solv (SpcStr suffix) = Ok r
         /\ bbe_sp_energy r = Some (PyStr "!")
         /\ enthalpy r = enthalpy r0 /\ zpe r = zpe r0
         /\ entropy r = entropy r0 /\ qh_entropy r = qh_entropy r0
         /\ gibbs_free_energy r = gibbs_free_energy r0
         /\ qh_gibbs_free_energy r = qh_gibbs_free_energy r0)
    /\ (fs (name ++ ext)%string = None ->
        calc_bbe fs name ext s QH FREQ_CUTOFF temperature conc
          freq_scale_factor solv (SpcStr "link") = Raise ValueError).
Proof.
  intros fs name ext suffix s QH c T conc scale solv. split.
  - intros Hlink Hnone r0 H0.
    apply String.eqb_neq in Hlink.
    apply (calc_bbe_same_thermochemistry fs name ext s QH c T conc scale
             solv (SpcStr suffix) (Some (PyStr "!")) r0); [|exact H0].
    unfold read_sp_energy, sp_energy. rewrite Hlink, Hnone. reflexivity.
  - intros Hnone. unfold calc_bbe, read_sp_energy, sp_energy.
    cbn [String.eqb Ascii.eqb Bool.eqb]. rewrite Hnone. reflexivity.
Qed.

Lemma missing_single_point_file_witness :
  (exists r,
      calc_bbe sample_files "water" ".log" sample_scan "grimme" 100.0 298.15
        (atmos / GAS_CONSTANT / 298.15) 1.0 "none" (SpcStr "DLPNO") = Ok r
      /\ bbe_sp_energy r = Some (PyStr "!"))
  /\ calc_bbe sample_files "water" ".log" sample_scan "grimme" 100.0 298.15
       (atmos / GAS_CONSTANT / 298.15) 1.0 "none" (SpcStr "link")
     = Raise ValueError.
Proof.
  destruct (missing_single_point_file sample_files "water" ".log" "DLPNO"
              sample_scan "grimme" 100.0 298.15
              (atmos / GAS_CONSTANT / 298.15) 1.0 "none") as [Hmiss Hlink].
  split.
  - destruct (Hmiss ltac:(discriminate) eq_refl _ eq_refl)
      as (r & Hr & Hsp & _).
    exists r. split; assumption.
  - apply Hlink. reflexivity.
Defined.



(** ** The zero reference and the shape of the table in [get_pes] *)

Lemma zero_loop_ok_log (thermo_data : list (string * bbe))
    (species : list (string * species_entry)) (temperature : R)
    (file : string) (structures : list string) (log log' : list string)
    (acc acc' : abs_values) :
  zero_loop thermo_data species temperature file log structures acc
  = (log', Ok acc') ->
  log' = log
  /\ forall structure, In structure structures ->
                       lookup species structure <> None.
Proof.
  revert acc. induction structures as [|s rest IH]; intros acc H.
  - cbn [zero_loop] in H. injection H as <- _. split; [reflexivity|].
    intros structure [].
  - cbn [zero_loop] in H.
    destruct (add_structure_zero thermo_data species temperature acc s)
      as [acc1|e] eqn:Hs; [|destruct e; discriminate H].
    destruct (IH acc1 H) as [Hlog Hrest]. split; [exact Hlog|].
    intros structure [<-|Hin]; [|now apply Hrest].
    unfold add_structure_zero in Hs. intros Hnone. rewrite Hnone in Hs.
    discriminate Hs.
Qed.

Lemma zero_loop_missing (thermo_data : list (string * bbe))
    (species : list (string * species_entry)) (temperature : R)
    (file : string) (log : list string) (pre post : list string)
    (structure : string) (acc acc' : abs_values) :
  zero_loop thermo_data species temperature file log pre acc = (log, Ok acc') ->
  lookup species structure = None ->
  zero_loop thermo_data species temperature file log
    (pre ++ structure :: post) acc
  = (log ++ ["   Warning! Structure " ++ structure
             ++ " has not been defined correctly as energy-zero in "
             ++ file ++ String "010" "";
             "   Make sure this structure matches one of the SPECIES defined in the same file"
             ++ String "010" ""]%string,
     Raise (SystemExit ("   Please edit " ++ file ++ " and try again"
                        ++ String "010" "")%string)).
Proof.
  revert acc. induction pre as [|s pre IH]; intros acc Hpre Hnone.
  - cbn [app zero_loop]. unfold add_structure_zero. rewrite Hnone.
    reflexivity.
  - cbn [app zero_loop] in *.
    destruct (add_structure_zero thermo_data species temperature acc s)
      as [acc1|e]; [now apply IH|].
    destruct e; discriminate Hpre.
Qed.

(** X18.  A zero reference that names a structure missing from the
    species dict ends the run before any pathway is read: once the
    structures before it have been added, [get_pes] writes the two
    warnings and leaves through [sys.exit], and no table is returned. *)
Theorem undefined_zero_reference_terminates_get_pes :
  forall (file : string) (thermo_data : list (string * bbe))
         (species : list (string * species_entry)) (temperature : R),
    (forall log pre structure post acc,
        zero_loop thermo_data species temperature file log pre abs_zero
        = (log, Ok acc) ->
        lookup species structure = None ->
        zero_loop thermo_data species temperature file log
          (pre ++ structure :: post) abs_zero
        = (log ++ ["   Warning! Structure " ++ structure
                   ++ " has not been defined correctly as energy-zero in "
                   ++ file ++ String "010" "";
                   "   Make sure this structure matches one of the SPECIES defined in the same file"
                   ++ String "010" ""]%string,
           Raise (SystemExit ("   Please edit " ++ file ++ " and try again"
                              ++ String "010" "")%string)))
    /\ (forall fmt_dps fmt_units fmt_boltz zero pathways log structure,
           In structure (point_structures zero) ->
           lookup species structure = None ->
           exists log' e,
             get_pes file thermo_data species fmt_dps fmt_units fmt_boltz
               (Some zero) pathways temperature log = (log', Raise e)).
Proof.
  intros file td sp T. split.
  - intros log pre structure post acc Hpre Hnone.
    now apply (zero_loop_missing td sp T file log pre post structure
                 abs_zero acc).
  - intros fmt_dps fmt_units fmt_boltz zero pathways log structure Hin Hnone.
    unfold get_pes.
    destruct (zero_loop td sp T file log (point_structures zero) abs_zero)
      as [log1 [zero_vals|e]] eqn:Hz; [|now eexists; eexists].
    exfalso.
    exact (proj2 (zero_loop_ok_log td sp T file _ _ _ _ _ Hz)
             structure Hin Hnone).
Qed.

Lemma undefined_zero_reference_terminates_get_pes_witness :
  zero_loop sample_thermo_data sample_species 298.15 "pes.txt" []
    (["TS"%string] ++ "SM"%string :: [])%list abs_zero
  = ([] ++ ["   Warning! Structure " ++ "SM"
            ++ " has not been defined correctly as energy-zero in "
            ++ "pes.txt" ++ String "010" "";
            "   Make sure this structure matches one of the SPECIES defined in the same file"
            ++ String "010" ""]%string,
     Raise (SystemExit ("   Please edit " ++ "pes.txt" ++ " and try again"
                        ++ String "010" "")%string))
  /\ exists log' e,
       get_pes "pes.txt" sample_thermo_data sample_species 2 "kcal/mol"
         BoltzFalse (Some "TS + SM"%string) sample_pathways 298.15 []
       = (log', Raise e).
Proof.
  destruct (undefined_zero_reference_terminates_get_pes "pes.txt"
              sample_thermo_data sample_species 298.15) as [Hloop Hrun].
  split.
  - eapply (Hloop [] ["TS"%string] "SM"%string []); reflexivity.
  - apply (Hrun 2%Z "kcal/mol"%string BoltzFalse "TS + SM"%string
             sample_pathways [] "SM"%string).
    + right. left. reflexivity.
    + reflexivity.
Defined.

Section TableShape.

Variable file : string.
Variable thermo_data : list (string * bbe).
Variable species : list (string * species_entry).
Variable temperature : R.

Lemma pes_point_ok_shape (log log' : list string) (point : string)
    (row : pes_row) :
  pes_point file thermo_data species temperature log point = (log', Ok row) ->
  log' = log /\ row_species row = point /\ point <> ""%string.
Proof.
  unfold pes_point. intros H.
  destruct (String.eqb point "") eqn:Hp; [discriminate H|].
  apply String.eqb_neq in Hp.
  destruct (add_structures thermo_data species temperature
              (point_structures point) "" abs_zero) as [last [acc|e]].
  - injection H as <- <-. now repeat split.
  - destruct e; discriminate H.
Qed.

Lemma pes_points_ok_shape (points : list string) (log log' : list string)
    (rows rows' : list pes_row) :
  pes_points file thermo_data species temperature log points rows
  = (log', Ok rows') ->
  log' = log
  /\ map row_species rows' = map row_species rows ++ points
  /\ Forall (fun point => point <> ""%string) points.
Proof.
  revert log rows. induction points as [|p rest IH]; intros log rows H.
  - cbn [pes_points] in H. injection H as <- <-.
    rewrite app_nil_r. now repeat split.
  - cbn [pes_points] in H.
    destruct (pes_point file thermo_data species temperature log p)
      as [log1 [row|e]] eqn:Hp; [|discriminate H].
    destruct (pes_point_ok_shape _ _ _ _ Hp) as (-> & Hname & Hne).
    destruct (IH _ _ H) as (Hlog & Hrows & Hall).
    split; [exact Hlog|]. split.
    + rewrite Hrows, map_app. cbn [map]. rewrite Hname, <- app_assoc.
      reflexivity.
    + now constructor.
Qed.

Lemma pes_pathways_ok_shape (pathways : list (string * list string))
    (log log' : list string) (done done' : list (string * list pes_row)) :
  pes_pathways file thermo_data species temperature log pathways done
  = (log', Ok done') ->
  log' = log
  /\ map fst done' = map fst done ++ map fst pathways
  /\ map (fun pr => map row_species (snd pr)) done'
     = map (fun pr => map row_species (snd pr)) done ++ map snd pathways
  /\ Forall (fun pr => Forall (fun point => point <> ""%string) (snd pr))
       pathways.
Proof.
  revert log done. induction pathways as [|[pw pts] rest IH];
    intros log done H.
  - cbn [pes_pathways] in H. injection H as <- <-.
    cbn [map]. rewrite !app_nil_r. now repeat split.
  - cbn [pes_pathways] in H.
    destruct (pes_points file thermo_data species temperature log pts [])
      as [log1 [rows|e]] eqn:Hpts; [|discriminate H].
    destruct (pes_points_ok_shape _ _ _ _ _ Hpts) as (-> & Hrows & Hne).
    destruct (IH _ _ H) as (Hlog & Hnames & Hlabels & Hall).
    split; [exact Hlog|]. split; [|split].
    + rewrite Hnames, map_app. cbn [map fst]. rewrite <- app_assoc.
      reflexivity.
    + rewrite Hlabels, map_app. cbn [map snd]. rewrite Hrows.
      cbn [map app]. rewrite <- app_assoc. reflexivity.
    + constructor; assumption.
Qed.

End TableShape.

(** X19.  When [get_pes] returns a table, nothing was written to the
    log, the table has the pathways of the PES block in their order, each
    with one row per entry in the order of the entries and labelled with
    the text of the entry, and no entry was empty. *)
Theorem get_pes_table_shape :
  forall (file : string) (thermo_data : list (string * bbe))
         (species : list (string * species_entry)) (fmt_dps : Z)
         (fmt_units : string) (fmt_boltz : boltz_option)
         (zero : option string) (pathways : list (string * list string))
         (temperature : R) (log log' : list string) (P : PES),
    get_pes file thermo_data species fmt_dps fmt_units fmt_boltz zero
      pathways temperature log = (log', Ok P) ->
    log' = log
    /\ dps P = fmt_dps /\ units P = fmt_units /\ boltz P = fmt_boltz
    /\ map fst (paths P) = map fst pathways
    /\ map (fun pr => map row_species (snd pr)) (paths P) = map snd pathways
    /\ Forall (fun pr => Forall (fun point => point <> ""%string) (snd pr))
         pathways.
Proof.
  intros file td sp fmt_dps fmt_units fmt_boltz zero pathways T log log' P H.
  unfold get_pes in H.
  destruct zero as [zero|]; [|discriminate H].
  destruct (zero_loop td sp T file log (point_structures zero) abs_zero)
    as [log1 [zero_vals|e]] eqn:Hz; [|discriminate H].
  destruct (zero_loop_ok_log td sp T file _ _ _ _ _ Hz) as [-> _].
  destruct (pes_pathways file td sp T log pathways [])
    as [log2 [done|e]] eqn:Hp; [|discriminate H].
  destruct (pes_pathways_ok_shape file td sp T _ _ _ _ _ Hp)
    as (-> & Hnames & Hlabels & Hall).
  injection H as <- <-. cbn [dps units boltz paths].
  now repeat split.
Qed.

Lemma get_pes_table_shape_witness :
  exists P,
    get_pes "pes.txt" sample_thermo_data sample_species 2 "kcal/mol"
      BoltzFalse (Some "TS"%string) [("Path", ["TS"; "TS + TS"])]%string
      298.15 [] = ([], Ok P)
    /\ map fst (paths P) = ["Path"]%string
    /\ map (fun pr => map row_species (snd pr)) (paths P)
       = [["TS"; "TS + TS"]]%string.
Proof.
  eexists. split; [reflexivity|].
  match goal with
  | |- map fst (paths ?P) = _ /\ _ =>
      destruct (get_pes_table_shape "pes.txt" sample_thermo_data
                  sample_species 2 "kcal/mol" BoltzFalse (Some "TS"%string)
                  [("Path", ["TS"; "TS + TS"])]%string 298.15 [] [] P
                  eq_refl)
        as (_ & _ & _ & _ & Hnames & Hlabels & _)
  end.
  split; [exact Hnames|exact Hlabels].
Defined.

(** ** Totals of a point: fragments, conformer groups, zero reference *)

Lemma abs_ext (a b : abs_values) :
  e_abs a = e_abs b -> spc_abs a = spc_abs b -> zpe_abs a = zpe_abs b ->
  h_abs a = h_abs b -> ts_abs a = ts_abs b -> g_abs a = g_abs b ->
  qhts_abs a = qhts_abs b -> qhg_abs a = qhg_abs b -> a = b.
Proof.
  destruct a, b. cbn. intros. subst. reflexivity.
Qed.

Ltac abs_fields :=
  apply abs_ext;
  cbn [abs_plus abs_zero e_abs spc_abs zpe_abs h_abs ts_abs g_abs qhts_abs
       qhg_abs];
  try (unfold Rdiv; ring); try lra.

Lemma abs_plus_zero_r (a : abs_values) : abs_plus a abs_zero = a.
Proof. abs_fields. Qed.

Section Fragments.

Variable thermo_data : list (string * bbe).
Variable species : list (string * species_entry).
Variable temperature : R.

Lemma add_file_shift (file : string) (base acc acc' : abs_values) :
  add_file thermo_data file acc = Ok acc' ->
  add_file thermo_data file (abs_plus base acc) = Ok (abs_plus base acc').
Proof.
  unfold add_file. intros H.
  destruct (lookup thermo_data file) as [b|]; cbn [getitem bind] in *;
    [|discriminate H].
  destruct (bbe_scf_energy b) as [scf|]; cbn [getattr bind] in *;
    [|discriminate H].
  destruct (bbe_sp_energy b) as [[y|?|?|?]|]; cbn [float_add bind] in *;
    try discriminate H;
    (destruct (zpe b) as [z|]; cbn [getattr bind] in *; [|discriminate H];
     destruct (enthalpy b) as [h|]; cbn [getattr bind] in *;
       [|discriminate H];
     destruct (entropy b) as [s|]; cbn [getattr bind] in *;
       [|discriminate H];
     destruct (gibbs_free_energy b) as [g|]; cbn [getattr bind] in *;
       [|discriminate H];
     destruct (qh_entropy b) as [qs|]; cbn [getattr bind] in *;
       [|discriminate H];
     destruct (qh_gibbs_free_energy b) as [qg|]; cbn [getattr bind] in *;
       [|discriminate H];
     injection H as <-; f_equal; abs_fields).
Qed.

Lemma add_conformer_shift (g_min boltz_sum : R) (conformer : string)
    (base acc acc' : abs_values) :
  add_conformer thermo_data temperature g_min boltz_sum acc conformer
  = Ok acc' ->
  add_conformer thermo_data temperature g_min boltz_sum (abs_plus base acc)
    conformer = Ok (abs_plus base acc').
Proof.
  unfold add_conformer. intros H.
  destruct (qh_gibbs_of thermo_data conformer) as [g0|]; cbn [bind] in *;
    [|discriminate H].
  destruct (lookup thermo_data conformer) as [b|]; cbn [getitem bind] in *;
    [|discriminate H].
  destruct (bbe_scf_energy b) as [scf|]; cbn [getattr bind] in *;
    [|discriminate H].
  destruct (bbe_sp_energy b) as [[y|?|?|?]|]; cbn [mul_float bind] in *;
    try discriminate H;
    (destruct (zpe b) as [z|]; cbn [getattr bind] in *; [|discriminate H];
     destruct (enthalpy b) as [h|]; cbn [getattr bind] in *;
       [|discriminate H];
     destruct (entropy b) as [s|]; cbn [getattr bind] in *;
       [|discriminate H];
     destruct (gibbs_free_energy b) as [g|]; cbn [getattr bind] in *;
       [|discriminate H];
     destruct (qh_entropy b) as [qs|]; cbn [getattr bind] in *;
       [|discriminate H];
     destruct (qh_gibbs_free_energy b) as [qg|]; cbn [getattr bind] in *;
       [|discriminate H];
     injection H as <-; f_equal; abs_fields).
Qed.

Lemma add_conformer_fold_shift (g_min boltz_sum : R)
    (conformers : list string) (base acc acc' : abs_values) :
  fold_result (add_conformer thermo_data temperature g_min boltz_sum)
    conformers acc = Ok acc' ->
  fold_result (add_conformer thermo_data temperature g_min boltz_sum)
    conformers (abs_plus base acc) = Ok (abs_plus base acc').
Proof.
  revert acc. induction conformers as [|c cs IH]; intros acc H;
    cbn [fold_result] in *.
  - injection H as <-. reflexivity.
  - destruct (add_conformer thermo_data temperature g_min boltz_sum acc c)
      as [acc1|e] eqn:Hc; cbn [bind] in H; [|discriminate H].
    rewrite (add_conformer_shift _ _ _ base _ _ Hc). cbn [bind].
    now apply IH.
Qed.

Lemma add_structure_shift (structure : string) (base acc acc' : abs_values) :
  add_structure thermo_data species temperature acc structure = Ok acc' ->
  add_structure thermo_data species temperature (abs_plus base acc) structure
  = Ok (abs_plus base acc').
Proof.
  unfold add_structure. intros H.
  destruct (lookup species structure) as [[file|files]|];
    cbn [getitem bind] in *; [| |discriminate H].
  - now apply add_file_shift.
  - unfold add_conformers in *.
    destruct (find_g_min thermo_data files) as [g_min|]; cbn [bind] in *;
      [|discriminate H].
    destruct (find_boltz_sum thermo_data temperature g_min files)
      as [boltz_sum|]; cbn [bind] in *; [|discriminate H].
    now apply add_conformer_fold_shift.
Qed.

Lemma add_structures_shift (structures : list string) (last last' : string)
    (base acc acc' : abs_values) :
  add_structures thermo_data species temperature structures last acc
  = (last', Ok acc') ->
  add_structures thermo_data species temperature structures last
    (abs_plus base acc) = (last', Ok (abs_plus base acc')).
Proof.
  revert last acc. induction structures as [|s rest IH]; intros last acc H;
    cbn [add_structures] in *.
  - injection H as <- <-. reflexivity.
  - destruct (add_structure thermo_data species temperature acc s)
      as [acc1|e] eqn:Hs; [|discriminate H].
    rewrite (add_structure_shift _ base _ _ Hs). now apply IH.
Qed.

Lemma add_structures_last (structures : list string) (last1 last2 : string)
    (acc : abs_values) :
  snd (add_structures thermo_data species temperature structures last1 acc)
  = snd (add_structures thermo_data species temperature structures last2 acc).
Proof.
  revert last1 last2 acc. induction structures as [|s rest IH];
    intros last1 last2 acc; cbn [add_structures]; [reflexivity|].
  destruct (add_structure thermo_data species temperature acc s);
    [apply IH|reflexivity].
Qed.

Lemma add_structures_app (l1 l2 : list string) (last last1 : string)
    (acc acc1 : abs_values) :
  add_structures thermo_data species temperature l1 last acc
  = (last1, Ok acc1) ->
  add_structures thermo_data species temperature (l1 ++ l2) last acc
  = add_structures thermo_data species temperature l2 last1 acc1.
Proof.
  revert last acc. induction l1 as [|s l1 IH]; intros last acc H;
    cbn [app add_structures] in *.
  - injection H as <- <-. reflexivity.
  - destruct (add_structure thermo_data species temperature acc s)
      as [acc'|e]; [now apply IH|discriminate H].
Qed.

Lemma add_structures_fragments (l1 l2 : list string) (last1 last2 : string)
    (a1 a2 : abs_values) :
  add_structures thermo_data species temperature l1 "" abs_zero
  = (last1, Ok a1) ->
  add_structures thermo_data species temperature l2 "" abs_zero
  = (last2, Ok a2) ->
  snd (add_structures thermo_data species temperature (l1 ++ l2) ""
         abs_zero) = Ok (abs_plus a1 a2).
Proof.
  intros H1 H2.
  rewrite (add_structures_app l1 l2 _ _ _ _ H1).
  rewrite (add_structures_last l2 last1 "").
  pose proof (add_structures_shift l2 "" last2 a1 abs_zero a2 H2) as Hs.
  rewrite abs_plus_zero_r in Hs. rewrite Hs. reflexivity.
Qed.

End Fragments.

Lemma remove_spaces_plus (p1 p2 : string) :
  remove_spaces (p1 ++ "+" ++ p2)
  = (remove_spaces p1 ++ "+" ++ remove_spaces p2)%string.
Proof.
  induction p1 as [|c p1 IH]; cbn [String.append remove_spaces] in *.
  - reflexivity.
  - destruct (Ascii.eqb c " "); [exact IH|].
    cbn [String.append]. now rewrite IH.
Qed.

Lemma split_on_plus (s1 s2 cur : string) :
  split_on "+" (s1 ++ "+" ++ s2) cur
  = split_on "+" s1 cur ++ split_on "+" s2 "".
Proof.
  revert cur. induction s1 as [|c s1 IH]; intros cur;
    cbn [String.append split_on] in *.
  - reflexivity.
  - destruct (Ascii.eqb c "+").
    + cbn [app]. f_equal. apply IH.
    + apply IH.
Qed.

Lemma point_structures_plus (p1 p2 : string) :
  point_structures (p1 ++ "+" ++ p2)
  = point_structures p1 ++ point_structures p2.
Proof.
  unfold point_structures. rewrite remove_spaces_plus. apply split_on_plus.
Qed.

(** X20.  The totals of a combined entry [p1+p2] are the field-wise sums
    of the totals of the entries [p1] and [p2]. *)
Theorem pes_point_fragments_add :
  forall (file : string) (thermo_data : list (string * bbe))
         (species : list (string * species_entry)) (temperature : R)
         (log : list string) (p1 p2 : string) (row1 row2 : pes_row),
    pes_point file thermo_data species temperature log p1 = (log, Ok row1) ->
    pes_point file thermo_data species temperature log p2 = (log, Ok row2) ->
    pes_point file thermo_data species temperature log (p1 ++ "+" ++ p2)
    = (log, Ok {| row_species := (p1 ++ "+" ++ p2)%string;
                  row_abs := abs_plus (row_abs row1) (row_abs row2) |}).
Proof.
  intros file td sp T log p1 p2 row1 row2 H1 H2.
  unfold pes_point in *.
  destruct (String.eqb p1 "") eqn:Hp1; [discriminate H1|].
  destruct (String.eqb p2 "") eqn:Hp2; [discriminate H2|].
  assert (Hp : String.eqb (p1 ++ "+" ++ p2) "" = false).
  { destruct p1; [discriminate Hp1|reflexivity]. }
  rewrite Hp, point_structures_plus.
  destruct (add_structures td sp T (point_structures p1) "" abs_zero)
    as [last1 [a1|e1]] eqn:Ha1; [|destruct e1; discriminate H1].
  destruct (add_structures td sp T (point_structures p2) "" abs_zero)
    as [last2 [a2|e2]] eqn:Ha2; [|destruct e2; discriminate H2].
  injection H1 as <-. injection H2 as <-. cbn [row_abs].
  pose proof (add_structures_fragments td sp T _ _ _ _ _ _ Ha1 Ha2) as Hsum.
  destruct (add_structures td sp T
              (point_structures p1 ++ point_structures p2) "" abs_zero)
    as [last r]. cbn [snd] in Hsum. subst r. reflexivity.
Qed.

Lemma pes_point_fragments_add_witness :
  exists row1 row2,
    pes_point "pes.txt" sample_thermo_data sample_species 298.15 [] "TS"
    = ([], Ok row1)
    /\ pes_point "pes.txt" sample_thermo_data sample_species 298.15 [] "TS "
       = ([], Ok row2)
    /\ pes_point "pes.txt" sample_thermo_data sample_species 298.15 []
         ("TS" ++ "+" ++ "TS ")
       = ([], Ok {| row_species := ("TS" ++ "+" ++ "TS ")%string;
                    row_abs := abs_plus (row_abs row1) (row_abs row2) |}).
Proof.
  eexists. eexists. split; [reflexivity|]. split; [reflexivity|].
  apply pes_point_fragments_add; reflexivity.
Defined.

Section ZeroAgreement.

Variable thermo_data : list (string * bbe).
Variable species : list (string * species_entry).
Variable temperature : R.

(** No object of the table carries a single-point attribute (a run
    without [--spc]). *)
Hypothesis no_single_point :
  forall file b, lookup thermo_data file = Some b -> bbe_sp_energy b = None.

Lemma add_file_zero_same (file : string) (acc : abs_values) :
  add_file_zero thermo_data file acc = add_file thermo_data file acc.
Proof.
  unfold add_file_zero, add_file.
  destruct (lookup thermo_data file) as [b|] eqn:Hb; [|reflexivity].
  cbn [getitem bind]. rewrite (no_single_point file b Hb). cbn [bind].
  destruct (bbe_scf_energy b); reflexivity.
Qed.

Lemma add_conformer_zero_same (g_min boltz_sum : R) (acc : abs_values)
    (conformer : string) :
  add_conformer_zero thermo_data temperature g_min boltz_sum acc conformer
  = add_conformer thermo_data temperature g_min boltz_sum acc conformer.
Proof.
  unfold add_conformer_zero, add_conformer.
  destruct (qh_gibbs_of thermo_data conformer); [|reflexivity].
  cbn [bind].
  destruct (lookup thermo_data conformer) as [b|] eqn:Hb; [|reflexivity].
  cbn [getitem bind]. rewrite (no_single_point conformer b Hb). cbn [bind].
  destruct (bbe_scf_energy b); reflexivity.
Qed.

Lemma add_structure_zero_same (acc : abs_values) (structure : string) :
  add_structure_zero thermo_data species temperature acc structure
  = add_structure thermo_data species temperature acc structure.
Proof.
  unfold add_structure_zero, add_structure, add_conformers.
  destruct (lookup species structure) as [[file|files]|]; cbn [getitem bind];
    [apply add_file_zero_same| |reflexivity].
  destruct (find_g_min thermo_data files) as [g_min|]; [|reflexivity].
  cbn [bind].
  destruct (find_boltz_sum thermo_data temperature g_min files)
    as [boltz_sum|]; [|reflexivity].
  cbn [bind]. generalize acc.
  induction files as [|c cs IH]; intros acc0; cbn [fold_result];
    [reflexivity|].
  rewrite add_conformer_zero_same.
  destruct (add_conformer thermo_data temperature g_min boltz_sum acc0 c);
    cbn [bind]; [apply IH|reflexivity].
Qed.

Lemma zero_loop_same (file : string) (log log' : list string)
    (structures : list string) (last : string) (acc z : abs_values) :
  zero_loop thermo_data species temperature file log structures acc
  = (log', Ok z) ->
  snd (add_structures thermo_data species temperature structures last acc)
  = Ok z.
Proof.
  revert last acc. induction structures as [|s rest IH]; intros last acc H;
    cbn [zero_loop add_structures] in *.
  - injection H as _ <-. reflexivity.
  - rewrite add_structure_zero_same in H.
    destruct (add_structure thermo_data species temperature acc s)
      as [acc1|e]; [now apply IH|destruct e; discriminate H].
Qed.

End ZeroAgreement.

Lemma relative_of_same (temperature : R) (z : abs_values) (name : string) :
  relative_of temperature (abs_list temperature z)
    {| row_species := name; row_abs := z |}
  = [0; 0; 0; 0; 0; 0; 0; 0].
Proof.
  unfold relative_of, abs_list.
  cbn [map seq List.length nth row_abs].
  now rewrite !Rminus_diag.
Qed.

(** X21.  In a run without single-point attributes, a pathway entry that
    names the structures of the zero reference, in the same order, has the
    totals of the zero reference, so all eight relative values of its row
    are 0. *)
Theorem zero_reference_entry_is_zero :
  forall (file : string) (thermo_data : list (string * bbe))
         (species : list (string * species_entry)) (temperature : R)
         (zero point : string) (log log1 log2 : list string)
         (z : abs_values) (row : pes_row),
    (forall f b, lookup thermo_data f = Some b -> bbe_sp_energy b = None) ->
    point_structures point = point_structures zero ->
    zero_loop thermo_data species temperature file log
      (point_structures zero) abs_zero = (log1, Ok z) ->
    pes_point file thermo_data species temperature log1 point
    = (log2, Ok row) ->
    row_abs row = z
    /\ relative_of temperature (abs_list temperature z) row
       = [0; 0; 0; 0; 0; 0; 0; 0].
Proof.
  intros file td sp T zero point log log1 log2 z row Hsp Hsame Hz Hp.
  pose proof (zero_loop_same td sp T Hsp file _ _ _ "" _ _ Hz) as Hsnd.
  unfold pes_point in Hp.
  destruct (String.eqb point ""); [discriminate Hp|].
  rewrite Hsame in Hp.
  destruct (add_structures td sp T (point_structures zero) "" abs_zero)
    as [last [acc|e]]; cbn [snd] in Hsnd; [|discriminate Hsnd].
  injection Hsnd as ->. injection Hp as _ <-. cbn [row_abs].
  split; [reflexivity|apply relative_of_same].
Qed.

Lemma sample_thermo_data_no_single_point :
  forall f b, lookup sample_thermo_data f = Some b -> bbe_sp_energy b = None.
Proof.
  intros f b H. unfold sample_thermo_data in H. cbn [lookup] in H.
  repeat match type of H with
         | (if ?c then _ else _) = _ =>
             destruct c; [injection H as <-; reflexivity|]
         end.
  discriminate H.
Defined.

Lemma zero_reference_entry_is_zero_witness :
  exists z row,
    zero_loop sample_thermo_data sample_species 298.15 "pes.txt" []
      (point_structures "TS+TS") abs_zero = ([], Ok z)
    /\ pes_point "pes.txt" sample_thermo_data sample_species 298.15 []
         "TS + TS" = ([], Ok row)
    /\ relative_of 298.15 (abs_list 298.15 z) row
       = [0; 0; 0; 0; 0; 0; 0; 0].
Proof.
  eexists. eexists. split; [reflexivity|]. split; [reflexivity|].
  eapply (zero_reference_entry_is_zero "pes.txt" sample_thermo_data
            sample_species 298.15 "TS+TS" "TS + TS" [] [] []).
  - exact sample_thermo_data_no_single_point.
  - reflexivity.
  - reflexivity.
  - reflexivity.
Defined.

(** X22.  A conformer group that matches one file gives the totals of
    that file: the single Boltzmann weight is 1. *)
Theorem single_conformer_group_is_the_file :
  forall (thermo_data : list (string * bbe)) (temperature : R)
         (conformer : string) (b : bbe) (acc : abs_values),
    lookup thermo_data conformer = Some b -> complete b ->
    exists acc',
      add_conformers thermo_data temperature [conformer] acc = Ok acc'
      /\ add_file thermo_data conformer acc = Ok acc'.
Proof.
  intros td T c b acc Hb Hc.
  assert (Hav : exists b, lookup td c = Some b /\ complete b)
    by (exists b; split; assumption).
  pose proof (qh_gibbs_of_available td c Hav) as Hq.
  unfold add_conformers, find_g_min, find_boltz_sum, add_conformer, add_file.
  cbn [fold_result]. rewrite !Hq. cbn [bind].
  rewrite ?Hq. cbn [bind]. rewrite Hb. cbn [getitem bind].
  destruct Hc as (Hsp & Hscf & Hz & Hh & Hs & Hqs & Hg & Hqg).
  rewrite Hsp.
  destruct (bbe_scf_energy b) as [scf|]; [|congruence].
  destruct (zpe b) as [z|]; [|congruence].
  destruct (enthalpy b) as [h|]; [|congruence].
  destruct (entropy b) as [s|]; [|congruence].
  destruct (gibbs_free_energy b) as [g|]; [|congruence].
  destruct (qh_entropy b) as [qs|]; [|congruence].
  destruct (qh_gibbs_free_energy b) as [qg|]; [|congruence].
  cbn [getattr bind].
  eexists. split; [reflexivity|]. f_equal.
  match goal with
  | |- context [boltz_fac_of ?g ?m T] =>
      pose proof (boltz_fac_pos g m T) as Hf;
      set (fac := boltz_fac_of g m T) in *
  end.
  assert (H00 : 0.0 = 0) by lra.
  apply abs_ext;
    cbn [e_abs spc_abs zpe_abs h_abs ts_abs g_abs qhts_abs qhg_abs];
    rewrite ?H00; try reflexivity; field; lra.
Qed.

Lemma single_conformer_group_is_the_file_witness :
  exists acc',
    add_conformers sample_thermo_data 298.15 ["ts.log"%string] abs_zero
    = Ok acc'
    /\ add_file sample_thermo_data "ts.log" abs_zero = Ok acc'.
Proof.
  apply (single_conformer_group_is_the_file sample_thermo_data 298.15
           "ts.log" (sample_bbe (-20) (-19.9) 0.0003 0.0002 298.15)).
  - reflexivity.
  - unfold complete. cbn. repeat split; (reflexivity || discriminate).
Defined.

Lemma weighted_sum_bounds (w : R -> R) (lo hi : R) (l : list R) :
  (forall g, 0 < w g) -> Forall (fun g => lo <= g <= hi) l ->
  lo * py_sum (map w l) <= py_sum (map (fun g => g * w g) l)
  <= hi * py_sum (map w l).
Proof.
  intros Hw Hall. induction Hall as [|g l Hg Hall IH]; cbn [map].
  - rewrite !py_sum_nil. lra.
  - rewrite !py_sum_cons. specialize (Hw g). nra.
Qed.

(** X23.  The Boltzmann-averaged quasi-harmonic Gibbs energy of a
    non-empty group of complete conformers lies between the lowest and the
    highest quasi-harmonic Gibbs energy of its conformers. *)
Theorem boltzmann_average_within_range :
  forall (thermo_data : list (string * bbe)) (temperature lo hi : R)
         (conformers : list string),
    conformers <> [] -> 0 < temperature ->
    Forall (fun c => exists b, lookup thermo_data c = Some b /\ complete b)
      conformers ->
    Forall (fun c => lo <= qh_gibbs_value thermo_data c <= hi) conformers ->
    exists acc,
      add_conformers thermo_data temperature conformers abs_zero = Ok acc
      /\ lo <= qhg_abs acc <= hi.
Proof.
  intros td T lo hi confs Hne HT Hall Hrange.
  destruct (find_g_min_available td confs Hall) as (g_min & Hmin).
  pose proof (find_boltz_sum_available td T g_min confs Hall) as Hsum.
  set (gs := map (qh_gibbs_value td) confs) in *.
  set (total := py_sum (map (fun g => boltz_fac_of g g_min T) gs)) in *.
  destruct (add_conformer_fold td T g_min (0.0 + total) confs Hall abs_zero)
    as (acc & Hfold & Hq & _).
  fold gs in Hq.
  assert (Hgs : gs <> []) by (unfold gs; destruct confs; [congruence|discriminate]).
  assert (Htot : 0 < total).
  { apply py_sum_map_pos; [exact Hgs|]. intros g. apply boltz_fac_pos. }
  exists acc. split.
  { unfold add_conformers. rewrite Hmin. cbn [bind]. rewrite Hsum.
    cbn [bind]. exact Hfold. }
  assert (Hr : Forall (fun g => lo <= g <= hi) gs).
  { unfold gs. clear -Hrange. induction Hrange; cbn [map]; constructor;
      assumption. }
  pose proof (weighted_sum_bounds (fun g => boltz_fac_of g g_min T) lo hi gs
                (fun g => boltz_fac_pos g g_min T) Hr) as Hb.
  fold total in Hb.
  rewrite Hq. cbn [abs_zero qhg_abs].
  assert (H00 : 0.0 = 0) by lra. rewrite !H00, !Rplus_0_l.
  rewrite (py_sum_map_scale (fun g => g * boltz_fac_of g g_min T)).
  set (num := py_sum (map (fun g => g * boltz_fac_of g g_min T) gs)) in *.
  split.
  - apply (Rmult_le_reg_r total); [exact Htot|].
    unfold Rdiv. rewrite Rmult_assoc, Rinv_l by lra. lra.
  - apply (Rmult_le_reg_r total); [exact Htot|].
    unfold Rdiv. rewrite Rmult_assoc, Rinv_l by lra. lra.
Qed.

Lemma boltzmann_average_within_range_witness :
  exists acc,
    add_conformers sample_thermo_data 298.15
      ["conf1.log"; "conf2.log"]%string abs_zero = Ok acc
    /\ -11 <= qhg_abs acc <= -10.
Proof.
  apply (boltzmann_average_within_range sample_thermo_data 298.15 (-11) (-10)
           ["conf1.log"; "conf2.log"]%string).
  - discriminate.
  - lra.
  - eapply Forall_impl; [|exact sample_conformers_available].
    intros c (b & Hb & Hc & _). exists b. split; assumption.
  - repeat constructor; unfold qh_gibbs_value; cbn; lra.
Defined.

(** ** Boltzmann factors relative to a reference *)

Lemma boltz_fac_reference (g m1 m2 temperature : R) :
  boltz_fac_of g m1 temperature
  = exp ((m1 - m2) * j_to_au / GAS_CONSTANT / temperature)
    * boltz_fac_of g m2 temperature.
Proof.
  unfold boltz_fac_of. rewrite <- exp_plus. f_equal. unfold Rdiv. ring.
Qed.

Lemma py_sum_map_mult {A : Type} (f : A -> R) (k : R) (l : list A) :
  py_sum (map (fun x => k * f x) l) = k * py_sum (map f l).
Proof.
  induction l as [|x l IH]; cbn [map].
  - rewrite !py_sum_nil. ring.
  - rewrite !py_sum_cons, IH. ring.
Qed.

(** The share of one value in a non-empty Boltzmann sum does not depend
    on the reference that is subtracted before exponentiating. *)
Lemma boltz_share_reference (g m1 m2 temperature : R) (gs : list R) :
  gs <> [] ->
  boltz_fac_of g m1 temperature
  / (0.0 + py_sum (map (fun x => boltz_fac_of x m1 temperature) gs))
  = boltz_fac_of g m2 temperature
    / (0.0 + py_sum (map (fun x => boltz_fac_of x m2 temperature) gs)).
Proof.
  intros Hne.
  assert (H2 : 0 < py_sum (map (fun x => boltz_fac_of x m2 temperature) gs)).
  { apply py_sum_map_pos; [exact Hne|]. intros x. apply boltz_fac_pos. }
  rewrite (boltz_fac_reference g m1 m2).
  rewrite (map_ext (fun x => boltz_fac_of x m1 temperature)
                   (fun x => exp ((m1 - m2) * j_to_au / GAS_CONSTANT
                                  / temperature)
                             * boltz_fac_of x m2 temperature))
    by (intros x; apply boltz_fac_reference).
  rewrite py_sum_map_mult.
  pose proof (exp_pos ((m1 - m2) * j_to_au / GAS_CONSTANT / temperature))
    as Hr.
  assert (H00 : 0.0 = 0) by lra. rewrite H00.
  field. split; lra.
Qed.

(** X24.  The totals of a conformer group do not depend on the value
    that is subtracted from the Gibbs energies before exponentiating: the
    loop run with any reference [m] and the Boltzmann sum taken at [m]
    returns what it returns with [g_min]. *)
Theorem boltzmann_totals_reference_independent :
  forall (thermo_data : list (string * bbe)) (temperature m1 m2 s1 s2 : R)
         (conformers : list string) (acc : abs_values),
    Forall (fun c => exists b, lookup thermo_data c = Some b /\ complete b)
      conformers ->
    find_boltz_sum thermo_data temperature m1 conformers = Ok s1 ->
    find_boltz_sum thermo_data temperature m2 conformers = Ok s2 ->
    fold_result (add_conformer thermo_data temperature m1 s1) conformers acc
    = fold_result (add_conformer thermo_data temperature m2 s2) conformers
        acc.
Proof.
  intros td T m1 m2 s1 s2 confs acc Hall H1 H2.
  rewrite (find_boltz_sum_available td T m1 confs Hall) in H1.
  rewrite (find_boltz_sum_available td T m2 confs Hall) in H2.
  injection H1 as <-. injection H2 as <-.
  destruct confs as [|c0 cs0] eqn:Hconfs; [reflexivity|].
  rewrite <- Hconfs in *.
  assert (Hgs : map (qh_gibbs_value td) confs <> [])
    by (rewrite Hconfs; discriminate).
  set (gs := map (qh_gibbs_value td) confs) in *.
  pose proof (fun g => boltz_share_reference g m1 m2 T gs Hgs) as Hshare.
  set (t1 := 0.0 + py_sum (map (fun x => boltz_fac_of x m1 T) gs)) in *.
  set (t2 := 0.0 + py_sum (map (fun x => boltz_fac_of x m2 T) gs)) in *.
  clearbody t1 t2. clear Hconfs Hgs gs.
  revert acc. induction Hall as [|c cs Hc Hall IH]; intros acc;
    cbn [fold_result]; [reflexivity|].
  assert (Hstep : add_conformer td T m1 t1 acc c
                  = add_conformer td T m2 t2 acc c).
  { destruct Hc as (b & Hb & Hcomp).
    assert (Hav : exists b, lookup td c = Some b /\ complete b)
      by (exists b; split; assumption).
    unfold add_conformer. rewrite (qh_gibbs_of_available td c Hav).
    cbn [bind]. rewrite Hb. cbn [getitem bind].
    destruct Hcomp as (Hsp & _). rewrite Hsp.
    destruct (bbe_scf_energy b); cbn [getattr bind]; [|reflexivity].
    destruct (zpe b); cbn [getattr bind]; [|reflexivity].
    destruct (enthalpy b); cbn [getattr bind]; [|reflexivity].
    destruct (entropy b); cbn [getattr bind]; [|reflexivity].
    destruct (gibbs_free_energy b); cbn [getattr bind]; [|reflexivity].
    destruct (qh_entropy b); cbn [getattr bind]; [|reflexivity].
    destruct (qh_gibbs_free_energy b); cbn [getattr bind]; [|reflexivity].
    f_equal. specialize (Hshare (qh_gibbs_value td c)).
    set (f1 := boltz_fac_of (qh_gibbs_value td c) m1 T) in *.
    set (f2 := boltz_fac_of (qh_gibbs_value td c) m2 T) in *.
    apply abs_ext;
      cbn [e_abs spc_abs zpe_abs h_abs ts_abs g_abs qhts_abs qhg_abs];
      try reflexivity;
      match goal with
      | |- ?a + ?x * f1 / t1 = ?a + ?x * f2 / t2 =>
          replace (x * f1 / t1) with (x * (f1 / t1)) by (unfold Rdiv; ring);
          replace (x * f2 / t2) with (x * (f2 / t2)) by (unfold Rdiv; ring);
          now rewrite Hshare
      end. }
  rewrite Hstep.
  destruct (add_conformer td T m2 t2 acc c); cbn [bind]; [apply IH|reflexivity].
Qed.

Lemma boltzmann_totals_reference_independent_witness :
  exists s1 s2,
    find_boltz_sum sample_thermo_data 298.15 (-10.5)
      ["conf1.log"; "conf2.log"]%string = Ok s1
    /\ find_boltz_sum sample_thermo_data 298.15 0
         ["conf1.log"; "conf2.log"]%string = Ok s2
    /\ fold_result (add_conformer sample_thermo_data 298.15 (-10.5) s1)
         ["conf1.log"; "conf2.log"]%string abs_zero
       = fold_result (add_conformer sample_thermo_data 298.15 0 s2)
           ["conf1.log"; "conf2.log"]%string abs_zero.
Proof.
  eexists. eexists. split; [reflexivity|]. split; [reflexivity|].
  apply boltzmann_totals_reference_independent.
  - eapply Forall_impl; [|exact sample_conformers_available].
    intros c (b & Hb & Hc & _). exists b. split; assumption.
  - reflexivity.
  - reflexivity.
Defined.

(** ** The rows printed for a pathway *)

Lemma boltz_sums_fold (temperature : R) (zero_vals : list R)
    (rows : list pes_row) :
  boltz_sums temperature zero_vals rows
  = (0.0 + py_sum (map (fun row =>
             boltz_term temperature
               (relative_of temperature zero_vals row) 1) rows),
     0.0 + py_sum (map (fun row =>
             boltz_term temperature
               (relative_of temperature zero_vals row) 3) rows),
     0.0 + py_sum (map (fun row =>
             boltz_term temperature
               (relative_of temperature zero_vals row) 6) rows),
     0.0 + py_sum (map (fun row =>
             boltz_term temperature
               (relative_of temperature zero_vals row) 7) rows)).
Proof.
  unfold boltz_sums. generalize 0.0 at 1 5. generalize 0.0 at 1 4.
  generalize 0.0 at 1 3. generalize 0.0.
  induction rows as [|row rows IH]; intros a b c d; cbn [fold_left map].
  - rewrite !py_sum_nil, !Rplus_0_r. reflexivity.
  - rewrite IH, !py_sum_cons, !Rplus_assoc. reflexivity.
Qed.

Lemma py_sum_map_percent {A : Type} (f : A -> R) (total : R) (l : list A) :
  py_sum (map (fun x => f x / total * 100.0) l)
  = py_sum (map f l) / total * 100.0.
Proof.
  induction l as [|x l IH]; cbn [map].
  - rewrite !py_sum_nil. unfold Rdiv. ring.
  - rewrite !py_sum_cons, IH. unfold Rdiv. ring.
Qed.

Lemma report_rows_selectivity (P : PES) (temperature : R)
    (spc : spc_option) (path : string) (rows : list pes_row) :
  boltz P <> BoltzFalse ->
  map snd (report_rows (report_pathway P temperature spc path rows))
  = map (fun row =>
           Some (selectivity_of temperature
                   (boltz_sums temperature
                      (abs_list temperature (zero_abs P)) rows)
                   (relative_of temperature
                      (abs_list temperature (zero_abs P)) row))) rows.
Proof.
  intros Hb. unfold report_pathway. cbn [report_rows].
  rewrite map_map. apply map_ext. intros row. cbn [snd].
  destruct (boltz P); [congruence|reflexivity].
Qed.

(** X25.  When populations are requested, the selectivities printed for
    the points of a non-empty pathway add up to 100 in each of the four
    columns (E, H, G, qh-G), and each of them is positive. *)
Theorem selectivities_sum_to_100 :
  forall (P : PES) (temperature : R) (spc : spc_option) (path : string)
         (rows : list pes_row) (x : nat),
    rows <> [] -> boltz P <> BoltzFalse -> 0 < temperature -> (x < 4)%nat ->
    let sels :=
      map snd (report_rows (report_pathway P temperature spc path rows)) in
    py_sum (map (fun sel => match sel with
                            | Some s => nth x s 0
                            | None => 0
                            end) sels) = 100
    /\ Forall (fun sel => match sel with
                          | Some s => 0 < nth x s 0
                          | None => False
                          end) sels.
Proof.
  intros P T spc path rows x Hne Hb HT Hx sels. unfold sels.
  rewrite (report_rows_selectivity P T spc path rows Hb), boltz_sums_fold.
  rewrite !map_map.
  set (z := abs_list T (zero_abs P)).
  assert (Hpos : forall i, 0 < 0.0 + py_sum (map (fun row =>
                     boltz_term T (relative_of T z row) i) rows)).
  { intros i.
    assert (0 < py_sum (map (fun row => boltz_term T (relative_of T z row) i)
                          rows)).
    { rewrite <- (map_map (relative_of T z)
                          (fun rel => boltz_term T rel i)).
      apply py_sum_map_pos.
      - destruct rows; [congruence|discriminate].
      - intros rel. apply boltz_term_pos. }
    lra. }
  assert (H100 : 100.0 = 100) by lra.
  split.
  - destruct x as [|[|[|[|x]]]]; try lia;
      erewrite map_ext by (intros row; rewrite selectivity_of_eq;
                           cbn [nth]; reflexivity);
      rewrite py_sum_map_percent, H100;
      match goal with
      | |- ?n / ?d * 100 = 100 =>
          pose proof (Hpos 1%nat); pose proof (Hpos 3%nat);
          pose proof (Hpos 6%nat); pose proof (Hpos 7%nat);
          replace d with (0.0 + n) by reflexivity
      end;
      match goal with
      | |- ?n / (0.0 + ?n) * 100 = 100 =>
          assert (H00 : 0.0 = 0) by lra; rewrite H00; field; lra
      end.
  - apply Forall_forall. intros sel Hin. apply in_map_iff in Hin.
    destruct Hin as (row & <- & _). rewrite selectivity_of_eq.
    destruct x as [|[|[|[|x]]]]; try lia; cbn [nth]; rewrite H100;
      apply Rmult_lt_0_compat; try lra;
      apply Rdiv_lt_0_compat; try apply boltz_term_pos; apply Hpos.
Qed.

Lemma selectivities_sum_to_100_witness :
  py_sum (map (fun sel => match sel with
                          | Some s => nth 2 s 0
                          | None => 0
                          end)
            (map snd (report_rows
                        (report_pathway sample_PES 298.15 SpcFalse "R"
                           [sample_row "SM" (-10); sample_row "TS_R" (-9.98);
                            sample_row "P_R" (-10.01)])))) = 100.
Proof.
  apply (selectivities_sum_to_100 sample_PES 298.15 SpcFalse "R"
           [sample_row "SM" (-10); sample_row "TS_R" (-9.98);
            sample_row "P_R" (-10.01)] 2).
  - discriminate.
  - discriminate.
  - lra.
  - lia.
Defined.

(** X26.  Relative values are differences: adding the same offsets to
    the totals of a point and to the zero reference leaves all eight
    relative values unchanged. *)
Theorem relative_values_offset_invariant :
  forall (temperature : R) (zero point offset : abs_values) (name : string),
    relative_of temperature (abs_list temperature (abs_plus zero offset))
      {| row_species := name; row_abs := abs_plus point offset |}
    = relative_of temperature (abs_list temperature zero)
        {| row_species := name; row_abs := point |}.
Proof.
  intros T z a d name. unfold relative_of, abs_list.
  cbn [map seq List.length nth row_abs abs_plus e_abs spc_abs zpe_abs h_abs
       ts_abs g_abs qhts_abs qhg_abs].
  repeat match goal with
         | |- _ :: _ = _ :: _ => apply f_equal2; [ring|]
         end.
  reflexivity.
Qed.




Lemma boltz_term_as_fac (temperature : R) (z : abs_values) (row : pes_row) :
  boltz_term temperature
    (relative_of temperature (abs_list temperature z) row) 1
  = boltz_fac_of (e_abs (row_abs row)) (e_abs z) temperature
  /\ boltz_term temperature
       (relative_of temperature (abs_list temperature z) row) 3
     = boltz_fac_of (h_abs (row_abs row)) (h_abs z) temperature
  /\ boltz_term temperature
       (relative_of temperature (abs_list temperature z) row) 6
     = boltz_fac_of (g_abs (row_abs row)) (g_abs z) temperature
  /\ boltz_term temperature
       (relative_of temperature (abs_list temperature z) row) 7
     = boltz_fac_of (qhg_abs (row_abs row)) (qhg_abs z) temperature.
Proof. repeat split; reflexivity. Qed.

Lemma selectivity_share (temperature : R) (f : pes_row -> R) (m1 m2 : R)
    (rows : list pes_row) (row : pes_row) :
  In row rows ->
  boltz_fac_of (f row) m1 temperature
  / (0.0 + py_sum (map (fun r => boltz_fac_of (f r) m1 temperature) rows))
  * 100.0
  = boltz_fac_of (f row) m2 temperature
    / (0.0 + py_sum (map (fun r => boltz_fac_of (f r) m2 temperature) rows))
    * 100.0.
Proof.
  intros Hin.
  rewrite <- !(map_map f (fun x => boltz_fac_of x _ temperature)).
  rewrite (boltz_share_reference (f row) m1 m2 temperature (map f rows)).
  - reflexivity.
  - destruct rows; [destruct Hin|discriminate].
Qed.

(** X28.  The selectivities printed for a pathway do not depend on the
    zero reference of the table. *)
Theorem selectivities_zero_reference_independent :
  forall (P : PES) (zero1 zero2 : abs_values) (temperature : R)
         (spc : spc_option) (path : string) (rows : list pes_row),
    boltz P <> BoltzFalse -> 0 < temperature ->
    map snd (report_rows (report_pathway (with_zero P zero1) temperature
                            spc path rows))
    = map snd (report_rows (report_pathway (with_zero P zero2) temperature
                              spc path rows)).
Proof.
  intros P z1 z2 T spc path rows Hb _.
  rewrite !report_rows_selectivity by exact Hb.
  cbn [with_zero zero_abs]. rewrite !boltz_sums_fold.
  apply map_ext_in. intros row Hin. f_equal.
  rewrite !selectivity_of_eq.
  rewrite !(map_ext _ _ (fun r => proj1 (boltz_term_as_fac T _ r))).
  rewrite !(map_ext _ _ (fun r => proj1 (proj2 (boltz_term_as_fac T _ r)))).
  rewrite !(map_ext _ _
              (fun r => proj1 (proj2 (proj2 (boltz_term_as_fac T _ r))))).
  rewrite !(map_ext _ _
              (fun r => proj2 (proj2 (proj2 (boltz_term_as_fac T _ r))))).
  destruct (boltz_term_as_fac T z1 row) as (-> & -> & -> & ->).
  destruct (boltz_term_as_fac T z2 row) as (-> & -> & -> & ->).
  rewrite (selectivity_share T (fun r => e_abs (row_abs r)) (e_abs z1)
             (e_abs z2) rows row Hin).
  rewrite (selectivity_share T (fun r => h_abs (row_abs r)) (h_abs z1)
             (h_abs z2) rows row Hin).
  rewrite (selectivity_share T (fun r => g_abs (row_abs r)) (g_abs z1)
             (g_abs z2) rows row Hin).
  rewrite (selectivity_share T (fun r => qhg_abs (row_abs r)) (qhg_abs z1)
             (qhg_abs z2) rows row Hin).
  reflexivity.
Qed.

Lemma selectivities_zero_reference_independent_witness :
  map snd (report_rows
             (report_pathway
                (with_zero sample_PES (row_abs (sample_row "SM" (-10))))
                298.15 SpcFalse "R"
                [sample_row "SM" (-10); sample_row "TS_R" (-9.98)]))
  = map snd (report_rows
               (report_pathway
                  (with_zero sample_PES (row_abs (sample_row "TS_R" (-9.98))))
                  298.15 SpcFalse "R"
                  [sample_row "SM" (-10); sample_row "TS_R" (-9.98)])).
Proof.
  apply selectivities_zero_reference_independent.
  - discriminate.
  - lra.
Defined.

(** ** A record without frequencies *)

(** X29.  For a record with an empty frequency list (an atom) that has
    its zero-point correction, rotational temperatures, mass, multiplicity
    and energy, the zero-point energy is 0, the enthalpy is the energy plus
    [5/2 R T], the entropy is translational plus electronic only, and the
    quasi-harmonic values coincide with the harmonic ones. *)
Theorem calc_bbe_without_frequencies :
  forall (fs : filesystem) (name ext : string) (s : scan) (QH : string)
         (FREQ_CUTOFF temperature conc freq_scale_factor : R)
         (solv : string) (zp mass m scf : R) (rot : list R),
    frequency_wn s = [] ->
    zero_point_corr s = Some zp -> rotemp_truthy (rotemp s) = Some rot ->
    molecular_mass s = Some mass -> mult s = Some m ->
    scf_energy s = Some scf ->
    exists r,
      calc_bbe fs name ext s QH FREQ_CUTOFF temperature conc
        freq_scale_factor solv SpcFalse = Ok r
      /\ zpe r = Some 0
      /\ enthalpy r = Some (scf + 5 / 2 * GAS_CONSTANT * temperature
                                  / j_to_au)
      /\ entropy r
         = Some ((calc_translational_entropy mass conc temperature solv
                  + calc_electronic_entropy m) / j_to_au)
      /\ qh_entropy r = entropy r
      /\ qh_gibbs_free_energy r = gibbs_free_energy r.
Proof.
  intros fs name ext s QH c T conc scale solv zp mass m scf rot
    Hf Hzp Hrot Hmass Hm Hscf.
  unfold calc_bbe. cbn [read_sp_energy bind].
  rewrite Hzp, Hrot, Hmass, Hm, Hscf, Hf.
  cbn [List.length Nat.ltb Nat.leb getlocal getattr bind sp_correction].
  eexists. split; [reflexivity|].
  cbn [zpe enthalpy entropy qh_entropy gibbs_free_energy
       qh_gibbs_free_energy].
  assert (H00 : 0.0 = 0) by lra.
  assert (H15 : 1.5 = 3 / 2) by lra.
  unfold calc_translational_energy. rewrite !H00, !H15.
  assert (Hj : j_to_au <> 0) by (unfold j_to_au; lra).
  repeat split; f_equal; field; exact Hj.
Qed.

Lemma calc_bbe_without_frequencies_witness :
  exists r,
    calc_bbe sample_files "He" ".log"
      {| scf_energy := Some (-2.9); zero_point_corr := Some 0;
         mult := Some 1; molecular_mass := Some 4.0026; symmno := 1;
         linear_mol := 0; rotemp := RotList [0.0; 0.0; 0.0];
         frequency_wn := []; im_frequency_wn := [];
         linear_warning := PyStr "" |}
      "grimme" 100.0 298.15 (atmos / GAS_CONSTANT / 298.15) 1.0 "none"
      SpcFalse = Ok r
    /\ zpe r = Some 0
    /\ enthalpy r = Some (-2.9 + 5 / 2 * GAS_CONSTANT * 298.15 / j_to_au)
    /\ qh_gibbs_free_energy r = gibbs_free_energy r.
Proof.
  destruct (calc_bbe_without_frequencies sample_files "He" ".log"
              {| scf_energy := Some (-2.9); zero_point_corr := Some 0;
                 mult := Some 1; molecular_mass := Some 4.0026; symmno := 1;
                 linear_mol := 0; rotemp := RotList [0.0; 0.0; 0.0];
                 frequency_wn := []; im_frequency_wn := [];
                 linear_warning := PyStr "" |}
              "grimme" 100.0 298.15 (atmos / GAS_CONSTANT / 298.15) 1.0
              "none" 0 4.0026 1 (-2.9) [0.0; 0.0; 0.0]
              eq_refl eq_refl eq_refl eq_refl eq_refl eq_refl)
    as (r & Hr & Hz & Hh & _ & _ & Hq).
  exists r. repeat split; assumption.
Defined.

(** ** The Boltzmann column of the main table *)

Section BoltzColumn.

Variable thermo_data : list (string * bbe).
Variable temperature : R.






End BoltzColumn.



